(** * tool-calling-evaluation: environment, tool registry and scoring engine

    A shallow embedding of [src/tools.py], [src/harness.py] ([build_env],
    [exec_tool], [run_sequence], [run_llm]), [src/scoring.py] and the drivers
    of [run_eval.py], and the properties of the specification checked
    against it.

    Conventions of the embedding.
    - Python [int] is [Z]; [str] is [string]; [float] is the kernel's binary64
      [float] (round to nearest even, as CPython's C double).
    - A Python [dict] used as a map is a [gmap]; a dict literal that is only
      ever returned as a payload is an association list in source order.
    - Tool functions mutate the environment in place; here they take the
      environment and return the new one next to their result.
    - Values follow the type annotations of the source.  The keyword
      arguments of a tool call are dynamically typed ([pyval]).  A string or
      [None] given for an [int] parameter makes the first comparison of the
      tool body raise a [TypeError], as in Python; any other call whose
      argument does not have the annotated type of the parameter it binds to
      is reported as [IllTyped] and is outside the typed model.
    - [time.time()] is the parameter [now] of a call; [hash] on strings, the
      first draw of [random.Random(h)] and the interpreter's text of a
      binding [TypeError] are the fields of a [PyRuntime].
    - The chat-completion service, [json.loads], [json.dumps] and the prompt
      files are the fields of an [LlmRuntime]; the characters of a reply are
      code points below 256. *)

From Stdlib Require Import ZArith String Ascii List Lia Bool.
From Stdlib Require Import PrimFloat FloatOps SpecFloat FloatAxioms DecimalString.
From stdpp Require Import base option list gmap strings.

Local Open Scope string_scope.
Local Open Scope list_scope.
Local Open Scope Z_scope.

(** ** The Python values the code handles *)

Inductive pyval : Type :=
  | PNone
  | PBool (b : bool)
  | PInt (z : Z)
  | PFloat (f : float)
  | PStr (s : string).

(** [bool(v)]. *)
Definition py_bool (v : pyval) : bool :=
  match v with
  | PNone => false
  | PBool b => b
  | PInt z => negb (Z.eqb z 0)
  | PFloat f => negb (PrimFloat.eqb f 0%float)
  | PStr s => negb (String.eqb s "")
  end.

(** [str(n)] for an [int]. *)
Definition str_of_int (z : Z) : string := NilZero.string_of_int (Z.to_int z).

(** [f"{x}"] for an optional string: [None] prints as [None]. *)
Definition str_of_opt (o : option string) : string :=
  match o with
  | Some s => s
  | None => "None"
  end.

(** [sub in s] for two strings. *)
Fixpoint str_in (sub s : string) : bool :=
  String.prefix sub s ||
  match s with
  | EmptyString => false
  | String _ s' => str_in sub s'
  end.

(** [x in (a, b, ...)] for strings. *)
Definition str_mem (x : string) (l : list string) : bool :=
  existsb (String.eqb x) l.

(** Truthiness of an optional string ([None] and [""] are falsy). *)
Definition truthy_str (o : option string) : bool :=
  match o with
  | Some s => negb (String.eqb s "")
  | None => false
  end.

(** ** Exceptions *)

Inductive exn : Type :=
  | TypeError (msg : string)
  | OverflowError (msg : string).

(** [str(e)]. *)
Definition exn_msg (e : exn) : string :=
  match e with
  | TypeError m => m
  | OverflowError m => m
  end.

(** [type(v).__name__]. *)
Definition type_name (v : pyval) : string :=
  match v with
  | PNone => "NoneType"
  | PBool _ => "bool"
  | PInt _ => "int"
  | PFloat _ => "float"
  | PStr _ => "str"
  end.

(** The [TypeError] of [v op n] for an [int] [n] and a [v] that no [int]
    compares with. *)
Definition unorderable (op : string) (v : pyval) : exn :=
  TypeError ("'" +:+ op +:+ "' not supported between instances of '" +:+ type_name v
             +:+ "' and 'int'").

(** What running a piece of code yields: a value, an exception, or a call
    that left the typed model. *)
Inductive outcome (A : Type) : Type :=
  | Return (a : A)
  | Raise (e : exn)
  | IllTyped.
Arguments Return {A} a.
Arguments Raise {A} e.
Arguments IllTyped {A}.

Definition bind {A B : Type} (m : outcome A) (k : A -> outcome B) : outcome B :=
  match m with
  | Return a => k a
  | Raise e => Raise e
  | IllTyped => IllTyped
  end.

#[global] Instance outcome_ret : MRet outcome := fun A a => Return a.
#[global] Instance outcome_bind : MBind outcome := fun A B k m => bind m k.

(** ** Floats *)

(** Conversion of an [int] to [float]: the nearest double (an integer below
    2^53 in magnitude is its own double), [OverflowError] beyond the largest
    double. *)
Definition nearest_float (z : Z) : float := SF2Prim (binary_normalize prec emax z 0 false).

Definition float_of_int (z : Z) : outcome float :=
  let f := nearest_float z in
  if is_infinity f then Raise (OverflowError "int too large to convert to float")
  else Return f.

(** The builtin [max(a, b)] on floats: [b] when [b > a], otherwise [a]. *)
Definition py_max (a b : float) : float := if PrimFloat.ltb a b then b else a.

(** Rounding of a non-negative rational [m * 2^e] to the nearest integer,
    ties to even. *)
Definition round_half_even (m e : Z) : Z :=
  if 0 <=? e then m * 2 ^ e
  else
    let d := 2 ^ (- e) in
    let q := m / d in
    let r := m mod d in
    if 2 * r <? d then q
    else if d <? 2 * r then q + 1
    else if Z.even q then q else q + 1.

(** [round(x, 1)]: the double nearest to the decimal with one fractional
    digit nearest to [x] (ties to even on the exact value of [x]). *)
Definition py_round1 (x : float) : float :=
  match Prim2SF x with
  | S754_finite s m e =>
      match round_half_even (Z.pos m * 10) e with
      | Z.pos k => SF2Prim (SFdiv prec emax (S754_finite s k 0) (S754_finite false 10 0))
      | _ => SF2Prim (S754_zero s)
      end
  | _ => x
  end.

(** What the interpreter supplies. *)
Class PyRuntime : Type := {
  (** [hash(s)] for a string, fixed within one process *)
  py_hash : string -> Z;
  (** the first [random()] of [random.Random(h)], in [0, 1) *)
  random_random : Z -> float;
  (** the text of the [TypeError] of a call whose keyword arguments do not
      bind to the parameters of the function *)
  bind_error_text : string -> list string -> gmap string pyval -> string
}.

(** ** [src/tools.py]: the environment *)

Record Deployment : Type := {
  service : string;
  namespace : string;
  replicas : Z;
  restarted_at : option float
}.

Record Ticket : Type := {
  status : string;  (* open|investigating|mitigated|resolved *)
  note : string
}.

(** An entry of [EnvState.incident_log]: [{"ts", "severity", "message"}]. *)
Record LogEntry : Type := {
  ts : float;
  severity : string;
  message : string
}.

Record EnvState : Type := {
  deployments : gmap (string * string) Deployment;
  feature_flags : gmap string bool;
  ticket : Ticket;
  incident_log : list LogEntry;
  seed : Z
}.

(** [EnvState()], every field at its default. *)
Definition EnvState_default : EnvState := {|
  deployments := ∅;
  feature_flags := ∅;
  ticket := {| status := "open"; note := "" |};
  incident_log := [];
  seed := 42
|}.

Record ToolResult : Type := {
  ok : bool;
  data : option (list (string * pyval));
  error : option string
}.

Definition failure (msg : string) : ToolResult :=
  {| ok := false; data := None; error := Some msg |}.

Definition success (d : list (string * pyval)) : ToolResult :=
  {| ok := true; data := Some d; error := None |}.

(** In-place updates of the environment. *)
Definition set_deployments (env : EnvState) (m : gmap (string * string) Deployment) : EnvState :=
  {| deployments := m; feature_flags := feature_flags env; ticket := ticket env;
     incident_log := incident_log env; seed := seed env |}.

Definition set_feature_flags (env : EnvState) (m : gmap string bool) : EnvState :=
  {| deployments := deployments env; feature_flags := m; ticket := ticket env;
     incident_log := incident_log env; seed := seed env |}.

Definition set_ticket (env : EnvState) (t : Ticket) : EnvState :=
  {| deployments := deployments env; feature_flags := feature_flags env; ticket := t;
     incident_log := incident_log env; seed := seed env |}.

Definition set_incident_log (env : EnvState) (l : list LogEntry) : EnvState :=
  {| deployments := deployments env; feature_flags := feature_flags env; ticket := ticket env;
     incident_log := l; seed := seed env |}.

Definition set_replicas (d : Deployment) (n : Z) : Deployment :=
  {| service := service d; namespace := namespace d; replicas := n;
     restarted_at := restarted_at d |}.

Definition set_restarted_at (d : Deployment) (t : float) : Deployment :=
  {| service := service d; namespace := namespace d; replicas := replicas d;
     restarted_at := Some t |}.

Module Tools.
Section WithRuntime.
Context {rt : PyRuntime}.

(** [_rng(env, key)] followed by the one draw every caller makes:
    [random.Random(hash(key) ^ env.seed).uniform(a, b)], that is
    [a + (b - a) * random()]. *)
Definition _rng_uniform (env : EnvState) (key : string) (a b : float) : float :=
  let h := Z.lxor (py_hash key) (seed env) in
  (a + (b - a) * random_random h)%float.

(** The set [{"latency_p95", "error_rate", "qps"}]. *)
Definition METRICS : list string := ["latency_p95"; "error_rate"; "qps"].

Definition metrics_query (env : EnvState) (service metric : string) (minutes : Z)
    (namespace : string) : outcome (EnvState * ToolResult) :=
  if negb (str_mem metric METRICS) then
    Return (env, failure ("invalid metric: " +:+ metric))
  else if (minutes <=? 0) || (120 <? minutes) then
    Return (env, failure ("minutes out of range: " +:+ str_of_int minutes))
  else
    match deployments env !! (service, namespace) with
    | None =>
        Return (env, failure ("unknown deployment: " +:+ service +:+ " in " +:+ namespace))
    | Some dep =>
        let uniform :=
          _rng_uniform env
            (service +:+ ":" +:+ namespace +:+ ":" +:+ metric +:+ ":" +:+ str_of_int minutes) in
        (* every branch multiplies a float by dep.replicas, which converts it *)
        reps ← float_of_int (replicas dep);
        let '(value, status, recommendation) :=
          if String.eqb metric "error_rate" then
            (* 0.005, 0.06, 0.006 *)
            let base := py_max 0x1.47ae147ae147bp-8
                          (0x1.eb851eb851eb8p-5 - 0x1.89374bc6a7efap-8 * reps)%float in
            (* -0.003, 0.003 *)
            let noise := uniform (-0x1.89374bc6a7efap-9)%float 0x1.89374bc6a7efap-9%float in
            let value := py_max 0%float (base + noise)%float in
            if PrimFloat.ltb value 0x1.eb851eb851eb8p-7 (* 0.015 *) then
              (value, "good", "Error rate is acceptable")
            else if PrimFloat.ltb value 0x1.999999999999ap-6 (* 0.025 *) then
              (value, "acceptable", "Error rate improved but could be better")
            else
              (value, "concerning", "Error rate still high, consider further scaling")
          else if String.eqb metric "latency_p95" then
            let base := py_max 80%float (300 - 20 * reps)%float in
            let noise := uniform (-10)%float 10%float in
            let value := py_max 0%float (base + noise)%float in
            if PrimFloat.ltb value 120%float then
              (value, "good", "Latency is acceptable")
            else if PrimFloat.ltb value 200%float then
              (value, "acceptable", "Latency improved but could be better")
            else
              (value, "concerning", "Latency still high, consider further scaling")
          else
            let base := (50 * reps)%float in
            let noise := uniform (-10)%float 10%float in
            let value := py_max 0%float (base + noise)%float in
            (value, "info",
             "Current throughput with " +:+ str_of_int (replicas dep) +:+ " replicas") in
        Return (env, success [("metric", PStr metric); ("minutes", PInt minutes);
                              ("value", PFloat value); ("status", PStr status);
                              ("recommendation", PStr recommendation)])
    end.

Definition k8s_scale (env : EnvState) (service : string) (replicas : Z)
    (namespace : string) : EnvState * ToolResult :=
  if (replicas <? 1) || (100 <? replicas) then
    (env, failure ("replicas out of range: " +:+ str_of_int replicas))
  else
    let key := (service, namespace) in
    match deployments env !! key with
    | None => (env, failure ("unknown deployment: " +:+ service +:+ " in " +:+ namespace))
    | Some dep =>
        (set_deployments env (<[key := set_replicas dep replicas]> (deployments env)),
         success [("service", PStr service); ("namespace", PStr namespace);
                  ("replicas", PInt replicas)])
    end.

Definition k8s_restart (now : float) (env : EnvState) (service namespace : string)
    : EnvState * ToolResult :=
  let key := (service, namespace) in
  match deployments env !! key with
  | None => (env, failure ("unknown deployment: " +:+ service +:+ " in " +:+ namespace))
  | Some dep =>
      (set_deployments env (<[key := set_restarted_at dep now]> (deployments env)),
       success [("service", PStr service); ("namespace", PStr namespace);
                ("restarted_at", PFloat now)])
  end.

Definition feature_flag_set (env : EnvState) (flag : string) (enabled : bool)
    : EnvState * ToolResult :=
  (set_feature_flags env (<[flag := enabled]> (feature_flags env)),
   success [("flag", PStr flag); ("enabled", PBool enabled)]).

Definition incident_log (now : float) (env : EnvState) (message severity : string)
    : EnvState * ToolResult :=
  if negb (str_mem severity ["info"; "warning"; "critical"]) then
    (env, failure ("invalid severity: " +:+ severity))
  else
    let entry := {| ts := now; severity := severity; message := message |} in
    (set_incident_log env (incident_log env ++ [entry]),
     success [("ts", PFloat now); ("severity", PStr severity); ("message", PStr message)]).

Definition ticket_update (env : EnvState) (status note : string) : EnvState * ToolResult :=
  if negb (str_mem status ["open"; "investigating"; "mitigated"; "resolved"]) then
    (env, failure ("invalid status: " +:+ status))
  else
    (set_ticket env {| status := status; note := note |},
     success [("status", PStr status); ("note", PStr note)]).

(** *** Calling a tool with keyword arguments *)

(** A function object as [fn(env=env, **arguments)] sees it: its name, the
    names of its parameters after [env], and its code on bound arguments. *)
Record pyfunction : Type := {
  fn_name : string;
  fn_params : list string;
  fn_code : float -> EnvState -> gmap string pyval -> outcome (EnvState * ToolResult)
}.

(** The keyword arguments bind when they name every parameter and nothing
    else (no parameter has a default; a key [env] would be given twice). *)
Definition binds (params : list string) (args : gmap string pyval) : bool :=
  bool_decide (dom args = list_to_set params).

Definition call_function (f : pyfunction) (now : float) (env : EnvState)
    (args : gmap string pyval) : outcome (EnvState * ToolResult) :=
  if binds (fn_params f) args then fn_code f now env args
  else Raise (TypeError (bind_error_text (fn_name f) (fn_params f) args)).

(** Reading a bound argument at its annotated type. *)
Definition arg_str (args : gmap string pyval) (p : string) : outcome string :=
  match args !! p with
  | Some (PStr s) => Return s
  | _ => IllTyped
  end.

Definition arg_bool (args : gmap string pyval) (p : string) : outcome bool :=
  match args !! p with
  | Some (PBool b) => Return b
  | _ => IllTyped
  end.

(** Reading an [int] argument that the body compares with an [int] by [op]
    before any other use: a string or [None] makes the comparison raise. *)
Definition arg_int_compared (op : string) (args : gmap string pyval) (p : string)
    : outcome Z :=
  match args !! p with
  | Some (PInt z) => Return z
  | Some (PStr s) => Raise (unorderable op (PStr s))
  | Some PNone => Raise (unorderable op PNone)
  | _ => IllTyped
  end.

Definition fn_metrics_query : pyfunction := {|
  fn_name := "metrics_query";
  fn_params := ["service"; "metric"; "minutes"; "namespace"];
  fn_code := fun now env args =>
    metric ← arg_str args "metric";
    (* the body returns on an invalid metric before it compares minutes *)
    if negb (str_mem metric METRICS) then
      Return (env, failure ("invalid metric: " +:+ metric))
    else
      minutes ← arg_int_compared "<=" args "minutes";
      service ← arg_str args "service";
      namespace ← arg_str args "namespace";
      metrics_query env service metric minutes namespace
|}.

Definition fn_k8s_scale : pyfunction := {|
  fn_name := "k8s_scale";
  fn_params := ["service"; "replicas"; "namespace"];
  fn_code := fun now env args =>
    (* the body starts with [replicas < 1] *)
    replicas ← arg_int_compared "<" args "replicas";
    service ← arg_str args "service";
    namespace ← arg_str args "namespace";
    Return (k8s_scale env service replicas namespace)
|}.

Definition fn_k8s_restart : pyfunction := {|
  fn_name := "k8s_restart";
  fn_params := ["service"; "namespace"];
  fn_code := fun now env args =>
    service ← arg_str args "service";
    namespace ← arg_str args "namespace";
    Return (k8s_restart now env service namespace)
|}.

Definition fn_feature_flag_set : pyfunction := {|
  fn_name := "feature_flag_set";
  fn_params := ["flag"; "enabled"];
  fn_code := fun now env args =>
    flag ← arg_str args "flag";
    enabled ← arg_bool args "enabled";
    Return (feature_flag_set env flag enabled)
|}.

Definition fn_incident_log : pyfunction := {|
  fn_name := "incident_log";
  fn_params := ["message"; "severity"];
  fn_code := fun now env args =>
    message ← arg_str args "message";
    severity ← arg_str args "severity";
    Return (incident_log now env message severity)
|}.

Definition fn_ticket_update : pyfunction := {|
  fn_name := "ticket_update";
  fn_params := ["status"; "note"];
  fn_code := fun now env args =>
    status ← arg_str args "status";
    note ← arg_str args "note";
    Return (ticket_update env status note)
|}.

Definition TOOL_REGISTRY : gmap string pyfunction :=
  list_to_map [
    ("metrics_query", fn_metrics_query);
    ("k8s_scale", fn_k8s_scale);
    ("k8s_restart", fn_k8s_restart);
    ("feature_flag_set", fn_feature_flag_set);
    ("incident_log", fn_incident_log);
    ("ticket_update", fn_ticket_update)
  ].

End WithRuntime.
End Tools.

(** ** [src/harness.py] *)

Record ToolCall : Type := {
  name : string;
  arguments : gmap string pyval
}.

(** An element of [ExecutionTrace.tool_calls]:
    [{"step": i, "call": {...}, "result": {...}}].  The result dict is read
    through [.get("ok")] and [.get("error")] only, so the dict that
    [exec_tool] builds without a [data] key is a [ToolResult] without data. *)
Record TraceEntry : Type := {
  step : Z;
  call : ToolCall;
  result : ToolResult
}.

(** [ExecutionTrace]; the [final] snapshot, which no check reads, is left out. *)
Record ExecutionTrace : Type := {
  tool_calls : list TraceEntry
}.

(** An item of [initial_state["deployments"]]. *)
Record DeploymentItem : Type := {
  item_service : string;
  item_namespace : string;
  item_replicas : option Z
}.

(** [initial_state["ticket"]]. *)
Record TicketInit : Type := {
  init_status : option string;
  init_note : option string
}.

Record InitialState : Type := {
  init_deployments : option (list DeploymentItem);
  init_feature_flags : option (list (string * pyval));
  init_ticket : option TicketInit
}.

Module Harness.
Section WithRuntime.
Context {rt : PyRuntime}.

Definition build_env (initial_state : InitialState) : EnvState :=
  let env := EnvState_default in
  (* Deployments *)
  let env :=
    fold_left
      (fun env item =>
         let key := (item_service item, item_namespace item) in
         set_deployments env
           (<[key := {| service := item_service item; namespace := item_namespace item;
                        replicas := default 1 (item_replicas item);
                        restarted_at := None |}]> (deployments env)))
      (default [] (init_deployments initial_state)) env in
  (* Feature flags *)
  let env :=
    fold_left
      (fun env kv => set_feature_flags env (<[kv.1 := py_bool kv.2]> (feature_flags env)))
      (default [] (init_feature_flags initial_state)) env in
  (* Ticket *)
  match init_ticket initial_state with
  | Some t =>
      let env := set_ticket env {| status := default (status (ticket env)) (init_status t);
                                   note := note (ticket env) |} in
      set_ticket env {| status := status (ticket env);
                        note := default (note (ticket env)) (init_note t) |}
  | None => env
  end.

Definition exec_tool (now : float) (env : EnvState) (call : ToolCall)
    : outcome (EnvState * ToolResult) :=
  match Tools.TOOL_REGISTRY !! name call with
  | None => Return (env, failure ("unknown tool: " +:+ name call))
  | Some fn =>
      match Tools.call_function fn now env (arguments call) with
      | Return (env', res) => Return (env', res)
      | Raise (TypeError e) => Return (env, failure ("argument error: " +:+ e))
      | Raise e => Return (env, failure ("runtime error: " +:+ exn_msg e))
      | IllTyped => IllTyped
      end
  end.

(** The loop of [Harness.run_sequence]; [clock i] is what [time.time()]
    returns during the call at index [i]. *)
Fixpoint run_steps (clock : nat -> float) (max_steps : nat) (i : nat) (env : EnvState)
    (sequence : list ToolCall) (trace : list TraceEntry)
    : outcome (EnvState * list TraceEntry) :=
  match sequence with
  | [] => Return (env, trace)
  | call :: rest =>
      if (max_steps <=? i)%nat then Return (env, trace)
      else
        r ← exec_tool (clock i) env call;
        run_steps clock max_steps (S i) r.1 rest
          (trace ++ [{| step := Z.of_nat i + 1; call := call; result := r.2 |}])
  end.

Definition run_sequence (clock : nat -> float) (env : EnvState) (sequence : list ToolCall)
    (max_steps : nat) : outcome (EnvState * ExecutionTrace) :=
  r ← run_steps clock max_steps 0 env sequence [];
  Return (r.1, {| tool_calls := r.2 |}).

End WithRuntime.
End Harness.

(** ** [src/scoring.py] *)

(** [criteria["deployment"]]. *)
Record DeploymentReq : Type := {
  req_service : option string;
  req_namespace : option string;
  replicas_gte : option Z
}.

(** The acceptance criteria of a scenario; a key that is absent reads as
    [None] through [.get]. *)
Record Criteria : Type := {
  deployment : option DeploymentReq;
  incident_log_contains : option string;
  ticket_status : option string
}.

(** The dict [{"valid": ok, "reasons": reasons}]. *)
Record CheckResult : Type := {
  valid : bool;
  reasons : list string
}.

(** The dict [partial_credit] returns. *)
Record PartialCredit : Type := {
  tool_syntax_ok : bool;
  verification_performed : bool;
  incident_logged : bool;
  ticket_updated : bool
}.

Record Breakdown : Type := {
  bd_technical_task : float;
  bd_ticket_updated : float;
  bd_incident_logged : float;
  bd_verification : float;
  bd_tool_syntax : float
}.

(** The dict [compute_weighted_score] returns; [weights] has the keys of
    the breakdown. *)
Record WeightedScore : Type := {
  total_score : float;
  max_score : float;
  breakdown : Breakdown;
  weights : Breakdown
}.

Module Scoring.

(** Truthiness of [criteria.get("deployment")]: [None] and the empty dict
    are falsy. *)
Definition truthy_req (o : option DeploymentReq) : bool :=
  match o with
  | Some r =>
      match req_service r, req_namespace r, replicas_gte r with
      | None, None, None => false
      | _, _, _ => true
      end
  | None => false
  end.

(** [env.deployments.get((svc, ns))] where [svc] or [ns] may be [None],
    which is no key of the dict. *)
Definition find_deployment (env : EnvState) (svc ns : option string) : option Deployment :=
  match svc, ns with
  | Some s, Some n => deployments env !! (s, n)
  | _, _ => None
  end.

(** The deployment block shared by both checks, on the pair [(ok, reasons)]. *)
Definition check_deployment (env : EnvState) (criteria : Criteria)
    (st : bool * list string) : bool * list string :=
  let '(ok, reasons) := st in
  let dep_req := deployment criteria in
  if truthy_req dep_req then
    let svc := dep_req ≫= req_service in
    let ns := dep_req ≫= req_namespace in
    let gte := dep_req ≫= replicas_gte in
    match find_deployment env svc ns with
    | None =>
        (false, reasons ++ ["missing deployment " +:+ str_of_opt svc +:+ ":" +:+ str_of_opt ns])
    | Some dep =>
        let reps := replicas dep in
        match gte with
        | Some gte =>
            if reps <? gte then
              (false, reasons ++ ["replicas " +:+ str_of_int reps +:+ " < " +:+ str_of_int gte])
            else (ok, reasons)
        | None => (ok, reasons)
        end
    end
  else (ok, reasons).

(** The incident-log block shared by both checks. *)
Definition check_log (env : EnvState) (criteria : Criteria)
    (st : bool * list string) : bool * list string :=
  let '(ok, reasons) := st in
  let log_contains := incident_log_contains criteria in
  if truthy_str log_contains then
    if negb (existsb (fun e => str_in (default "" log_contains) (message e)) (incident_log env))
    then (false, reasons ++ ["incident log missing required message"])
    else (ok, reasons)
  else (ok, reasons).

(** The ticket block of [check_acceptance]. *)
Definition check_ticket (env : EnvState) (criteria : Criteria)
    (st : bool * list string) : bool * list string :=
  let '(ok, reasons) := st in
  let ticket_status := ticket_status criteria in
  if truthy_str ticket_status then
    if negb (String.eqb (status (ticket env)) (default "" ticket_status)) then
      (false, reasons ++ ["ticket status " +:+ status (ticket env) +:+ " != "
                          +:+ default "" ticket_status])
    else (ok, reasons)
  else (ok, reasons).

Definition check_acceptance (env : EnvState) (criteria : Criteria) : CheckResult :=
  let st := (true, []) in
  let st := check_deployment env criteria st in
  let st := check_log env criteria st in
  let st := check_ticket env criteria st in
  {| valid := st.1; reasons := st.2 |}.

Definition check_technical_success (env : EnvState) (criteria : Criteria) : CheckResult :=
  let st := (true, []) in
  let st := check_deployment env criteria st in
  let st := check_log env criteria st in
  {| valid := st.1; reasons := st.2 |}.

(** [str(c.get("result", {}).get("error", ""))]: an error that is [None]
    prints as [None]. *)
Definition error_text (r : ToolResult) : string := str_of_opt (error r).

(** The loop of [partial_credit] over [calls], on the pair
    [(did_action, verification)]. *)
Definition verification_step (st : bool * bool) (c : TraceEntry) : bool * bool :=
  let '(did_action, verification) := st in
  let name := name (call c) in
  let did_action :=
    if str_mem name ["k8s_scale"; "k8s_restart"; "feature_flag_set"] then true
    else did_action in
  let verification :=
    if did_action && String.eqb name "metrics_query" then true else verification in
  (did_action, verification).

Definition partial_credit (trace : ExecutionTrace) : PartialCredit :=
  let calls := tool_calls trace in
  let any_arg_error :=
    existsb (fun c => negb (ok (result c)) && str_in "argument error" (error_text (result c)))
      calls in
  let incident_logged :=
    existsb (fun c => String.eqb (name (call c)) "incident_log") calls in
  let ticket_updated :=
    existsb (fun c => String.eqb (name (call c)) "ticket_update") calls in
  let '(did_action, verification) := fold_left verification_step calls (false, false) in
  {| tool_syntax_ok := negb any_arg_error;
     verification_performed := verification;
     incident_logged := incident_logged;
     ticket_updated := ticket_updated |}.

(** The weights 0.60, 0.15, 0.15, 0.05, 0.05 as the doubles Python reads. *)
Definition w_technical_task : float := 0x1.3333333333333p-1.
Definition w_ticket_updated : float := 0x1.3333333333333p-3.
Definition w_incident_logged : float := 0x1.3333333333333p-3.
Definition w_verification : float := 0x1.999999999999ap-5.
Definition w_tool_syntax : float := 0x1.999999999999ap-5.

(** Both arguments are dicts the checks above built, so every
    [.get(key, False)] finds its key. *)
Definition compute_weighted_score (acceptance : CheckResult) (partial : PartialCredit)
    (technical : CheckResult) : WeightedScore :=
  let technical_score := if valid technical then 1%float else 0%float in
  let ticket_score := if ticket_updated partial then 1%float else 0%float in
  let incident_score := if incident_logged partial then 1%float else 0%float in
  let verification_score := if verification_performed partial then 1%float else 0%float in
  let syntax_score := if tool_syntax_ok partial then 1%float else 0%float in
  let total_score :=
    (technical_score * w_technical_task +
     ticket_score * w_ticket_updated +
     incident_score * w_incident_logged +
     verification_score * w_verification +
     syntax_score * w_tool_syntax)%float in
  {| total_score := py_round1 (total_score * 100)%float;
     max_score := 100%float;
     breakdown := {|
       bd_technical_task := py_round1 (technical_score * w_technical_task * 100)%float;
       bd_ticket_updated := py_round1 (ticket_score * w_ticket_updated * 100)%float;
       bd_incident_logged := py_round1 (incident_score * w_incident_logged * 100)%float;
       bd_verification := py_round1 (verification_score * w_verification * 100)%float;
       bd_tool_syntax := py_round1 (syntax_score * w_tool_syntax * 100)%float
     |};
     weights := {|
       bd_technical_task := w_technical_task;
       bd_ticket_updated := w_ticket_updated;
       bd_incident_logged := w_incident_logged;
       bd_verification := w_verification;
       bd_tool_syntax := w_tool_syntax
     |} |}.

End Scoring.

(** ** [src/harness.py]: the conversation loop of [run_llm] *)

(** What [json.loads] returns. *)
#[warnings="-register-all"]
Inductive json : Type :=
  | JNull
  | JBool (b : bool)
  | JInt (z : Z)
  | JFloat (f : float)
  | JStr (s : string)
  | JList (l : list json)
  | JDict (d : gmap string json).

(** [bool(v)] for a parsed value. *)
Definition json_truthy (j : json) : bool :=
  match j with
  | JNull => false
  | JBool b => b
  | JInt z => negb (Z.eqb z 0)
  | JFloat f => negb (PrimFloat.eqb f 0%float)
  | JStr s => negb (String.eqb s "")
  | JList l => match l with [] => false | _ :: _ => true end
  | JDict d => negb (bool_decide (d = ∅))
  end.

(** A parsed scalar as an argument value; lists and objects have no
    counterpart among the argument values of the typed tools. *)
Definition json_to_pyval (j : json) : option pyval :=
  match j with
  | JNull => Some PNone
  | JBool b => Some (PBool b)
  | JInt z => Some (PInt z)
  | JFloat f => Some (PFloat f)
  | JStr s => Some (PStr s)
  | JList _ | JDict _ => None
  end.

(** A chat message [{"role": ..., "content": ...}]. *)
Record Message : Type := {
  role : string;
  content : string
}.

(** What the HTTP exchange of [_openrouter_chat] yields: the content of the
    first choice ([None] when it is not a string: a null, or a list of
    parts), or an exception with its text. *)
Inductive chat_reply : Type :=
  | Content (text : option string)
  | ChatRaised (e : string).

(** What lies outside the program: the chat-completion service, the JSON
    library and the prompt files.  The reply of the service is a function
    of the messages sent; within a run no two requests carry the same
    messages, since one message is appended between any two of them. *)
Class LlmRuntime : Type := {
  (** [requests.post(...)] up to [data["choices"][0]["message"]["content"]] *)
  post_chat : list Message -> chat_reply;
  (** [json.loads(s)], [None] when it raises *)
  json_loads : string -> option json;
  (** [json.dumps({"tool_result": res})] *)
  dumps_tool_result : ToolResult -> string;
  (** the text of a file of the prompts directory, [None] when it does not
      exist *)
  read_prompt : string -> option string
}.

(** The fields of [Harness] the loop reads. *)
Record HarnessConfig : Type := {
  model : option string;
  api_key : option string
}.

(** [class Scenario]. *)
Record Scenario : Type := {
  sc_id : Z;
  user_prompt : string;
  initial_state : InitialState;
  acceptance_criteria : Criteria
}.

(** How [run_llm] can end: it returns a trace, an exception leaves it, or a
    tool call leaves the typed model. *)
Inductive run_error : Type :=
  | ChatError (e : string)      (* raised by [_openrouter_chat] *)
  | ReplyTypeError              (* ["final_answer" in parsed] on a scalar *)
  | ReplyAttributeError.        (* [parsed.get] on a list or a string *)

Inductive run_end (A : Type) : Type :=
  | Returned (a : A)
  | Escaped (e : run_error)
  | OutOfModel.
Arguments Returned {A} a.
Arguments Escaped {A} e.
Arguments OutOfModel {A}.

Module Llm.

(** The double quote and the newline. *)
Definition dq : string := String "034" EmptyString.
Definition nl : string := String "010" EmptyString.

(** [str.isspace()] on a character below 256. *)
Definition is_space (a : ascii) : bool :=
  let n := nat_of_ascii a in
  ((9 <=? n) && (n <=? 13) || (28 <=? n) && (n <=? 32) || (n =? 133) || (n =? 160))%nat.

Fixpoint lstrip (s : string) : string :=
  match s with
  | EmptyString => EmptyString
  | String a s' => if is_space a then lstrip s' else s
  end.

Fixpoint rstrip (s : string) : string :=
  match s with
  | EmptyString => EmptyString
  | String a s' =>
      match rstrip s' with
      | EmptyString => if is_space a then EmptyString else String a EmptyString
      | r => String a r
      end
  end.

(** [s.strip()]. *)
Definition strip (s : string) : string := rstrip (lstrip s).

(** [s.find(c)] for a character, counting from [i]: the lowest index, or -1. *)
Fixpoint find_from (c : ascii) (s : string) (i : Z) : Z :=
  match s with
  | EmptyString => -1
  | String a s' => if Ascii.eqb a c then i else find_from c s' (i + 1)
  end.

(** [s.rfind(c)] for a character, counting from [i]: the highest index, or -1. *)
Fixpoint rfind_from (c : ascii) (s : string) (i : Z) : Z :=
  match s with
  | EmptyString => -1
  | String a s' =>
      let r := rfind_from c s' (i + 1) in
      if 0 <=? r then r else if Ascii.eqb a c then i else -1
  end.

(** The text [parse_response] hands to [json.loads]: the reply stripped,
    cut down to the span from its first [{] to its last [}] when there is
    one. *)
Definition json_candidate (txt : string) : string :=
  let txt := strip txt in
  let start := find_from "{" txt 0 in
  let end_ := rfind_from "}" txt 0 in
  if (0 <=? start) && (start <=? end_) then
    String.substring (Z.to_nat start) (Z.to_nat (end_ + 1 - start)) txt
  else txt.

Section WithRuntime.
Context {rt : PyRuntime} {llm : LlmRuntime}.

(** The nested [parse_response]; [None] when it raises, which it does on a
    content without [strip] and whenever [json.loads] does. *)
Definition parse_response (raw : option string) : option json :=
  txt ← raw; json_loads (json_candidate txt).

(** [Harness._tool_schema_text]. *)
Definition _tool_schema_text : string :=
  String.concat nl [
    "TOOLS AVAILABLE (invoke one at a time):";
    "- metrics_query(service: string, metric: 'latency_p95'|'error_rate'|'qps', minutes: int[1..120], namespace: string)";
    "  Returns: value, status ('good'|'acceptable'|'concerning'), recommendation";
    "- k8s_scale(service: string, replicas: int[1..100], namespace: string)";
    "- k8s_restart(service: string, namespace: string)";
    "- feature_flag_set(flag: string, enabled: boolean)";
    "- incident_log(message: string, severity: 'info'|'warning'|'critical')";
    "- ticket_update(status: 'open'|'investigating'|'mitigated'|'resolved', note: string)";
    nl +:+ "RESPONSE FORMAT (strict JSON, no extra text):";
    "{" +:+ dq +:+ "tool_call" +:+ dq +:+ ": {" +:+ dq +:+ "name" +:+ dq +:+ ": " +:+ dq
      +:+ "<tool_name>" +:+ dq +:+ ", " +:+ dq +:+ "arguments" +:+ dq
      +:+ ": { /* tool args */ }}}";
    "OR {" +:+ dq +:+ "final_answer" +:+ dq +:+ ": " +:+ dq
      +:+ "<concise result/summary>" +:+ dq +:+ "}"
  ].

(** [Harness._load_prompt]: every variant but [baseline] reads
    [improved.txt]; a missing file reads as the empty text. *)
Definition _load_prompt (variant : string) : string :=
  let fname := if String.eqb variant "baseline" then "baseline.txt" else "improved.txt" in
  default "" (read_prompt fname).

(** [json.dumps({"final_answer": "no_api_key"})]. *)
Definition no_api_key_reply : string :=
  "{" +:+ dq +:+ "final_answer" +:+ dq +:+ ": " +:+ dq +:+ "no_api_key" +:+ dq +:+ "}".

(** [Harness._openrouter_chat]. *)
Definition _openrouter_chat (h : HarnessConfig) (messages : list Message) : chat_reply :=
  if negb (truthy_str (api_key h)) then Content (Some no_api_key_reply)
  else post_chat messages.

Definition reformat_message : Message :=
  {| role := "user";
     content := "Your last response was not valid JSON. Reply with JSON only as specified." |}.

Definition schema_message : Message :=
  {| role := "user";
     content := "You must respond with either a tool_call or a final_answer in JSON." |}.

Definition malformed_message : Message :=
  {| role := "user";
     content := "Malformed tool_call. Provide name (string) and arguments (object)." |}.

(** The inner loop [for attempt in range(2)] with its [else]. *)
Inductive parse_end : Type :=
  | Parsed (parsed : json) (messages : list Message)
  | Unparsed (messages : list Message)     (* the [else] branch: both attempts failed *)
  | RetryRaised (e : string).              (* the chat call in the handler raised *)

Fixpoint parse_attempts (h : HarnessConfig) (attempts : nat) (raw : option string)
    (messages : list Message) : parse_end :=
  match attempts with
  | O => Unparsed messages
  | S attempts' =>
      match parse_response raw with
      | Some parsed => Parsed parsed messages
      | None =>
          let messages := messages ++ [reformat_message] in
          match _openrouter_chat h messages with
          | ChatRaised e => RetryRaised e
          | Content raw => parse_attempts h attempts' raw messages
          end
      end
  end.

(** ["final_answer" in parsed]; [None] is the [TypeError] of a scalar. *)
Definition has_final_answer (parsed : json) : option bool :=
  match parsed with
  | JDict d => Some (bool_decide (is_Some (d !! "final_answer")))
  | JList l =>
      Some (existsb (fun j => match j with
                              | JStr s => String.eqb s "final_answer"
                              | _ => false
                              end) l)
  | JStr s => Some (str_in "final_answer" s)
  | JNull | JBool _ | JInt _ | JFloat _ => None
  end.

(** [parsed.get("tool_call")]; the outer [None] is the [AttributeError] of a
    list or a string. *)
Definition get_tool_call (parsed : json) : option (option json) :=
  match parsed with
  | JDict d => Some (d !! "tool_call")
  | _ => None
  end.

(** The arguments of a call as the typed tools take them. *)
Definition arguments_of (args : gmap string json) : option (gmap string pyval) :=
  if bool_decide (map_Forall (fun _ j => is_Some (json_to_pyval j)) args)
  then Some (omap json_to_pyval args) else None.

(** How one pass through the body of the loop ends: [break] or [return],
    an exception that nothing catches, a call outside the typed model, or
    the next pass (by [continue] or by reaching the end of the body). *)
Inductive turn_end : Type :=
  | Stop
  | Fails (e : run_error)
  | Leaves
  | Continue (env : EnvState) (trace : list TraceEntry) (messages : list Message).

(** The body of the loop [for step in range(1, max_steps + 1)];
    [now] is what [time.time()] returns during the tool call.  A call whose
    arguments hold a list or an object, or that leaves the typed tools, is
    outside the model. *)
Definition turn (h : HarnessConfig) (now : float) (step : nat)
    (env : EnvState) (trace : list TraceEntry) (messages : list Message) : turn_end :=
  match _openrouter_chat h messages with
  | ChatRaised e => Stop                                   (* logged; break *)
  | Content raw =>
      match parse_attempts h 2 raw messages with
      | RetryRaised e => Fails (ChatError e)
      | Unparsed _ => Stop                                 (* could not parse; break *)
      | Parsed parsed messages =>
          match has_final_answer parsed with
          | None => Fails ReplyTypeError
          | Some true => Stop                              (* return *)
          | Some false =>
              match get_tool_call parsed with
              | None => Fails ReplyAttributeError
              | Some (Some (JDict call)) =>
                  if bool_decide (call = ∅) then
                    Continue env trace (messages ++ [schema_message])
                  else
                    let name := call !! "name" in
                    let args :=
                      match call !! "arguments" with
                      | Some a => if json_truthy a then a else JDict ∅
                      | None => JDict ∅
                      end in
                    match name, args with
                    | Some (JStr name), JDict args =>
                        match arguments_of args with
                        | None => Leaves
                        | Some arguments =>
                            let call := {| name := name; arguments := arguments |} in
                            match Harness.exec_tool now env call with
                            | Return (env, res) =>
                                Continue env
                                  (trace ++ [{| step := Z.of_nat step; call := call;
                                                result := res |}])
                                  (messages ++ [{| role := "assistant";
                                                   content := dumps_tool_result res |}])
                            | _ => Leaves
                            end
                        end
                    | _, _ => Continue env trace (messages ++ [malformed_message])
                    end
              | Some _ => Continue env trace (messages ++ [schema_message])
              end
          end
      end
  end.

(** The loop, with [remaining] passes left from [step] on; [clock step] is
    the time of the tool call of that step. *)
Fixpoint llm_loop (h : HarnessConfig) (clock : nat -> float) (remaining step : nat)
    (env : EnvState) (trace : list TraceEntry) (messages : list Message)
    : run_end (EnvState * ExecutionTrace) :=
  match remaining with
  | O => Returned (env, {| tool_calls := trace |})         (* step limit reached *)
  | S remaining' =>
      match turn h (clock step) step env trace messages with
      | Stop => Returned (env, {| tool_calls := trace |})
      | Fails e => Escaped e
      | Leaves => OutOfModel
      | Continue env trace messages => llm_loop h clock remaining' (S step) env trace messages
      end
  end.

(** [Harness.run_llm]. *)
Definition run_llm (h : HarnessConfig) (clock : nat -> float) (env : EnvState)
    (scenario : Scenario) (variant : string) (max_steps : nat)
    : run_end (EnvState * ExecutionTrace) :=
  let sys_preamble := _tool_schema_text in
  let variant_prompt := _load_prompt variant in
  let messages := [{| role := "system"; content := sys_preamble |};
                   {| role := "system"; content := variant_prompt |};
                   {| role := "user"; content := user_prompt scenario |}] in
  llm_loop h clock max_steps 1 env [] messages.

End WithRuntime.
End Llm.

(** ** [run_eval.py] *)

(** An entry of [results["runs"]]. *)
Record RunRecord : Type := {
  scenario_id : Z;
  run_valid : bool;                (* ["valid"] *)
  technical_success : bool;
  run_reasons : list string;       (* ["reasons"] *)
  run_trace : ExecutionTrace;      (* ["trace"] *)
  partial : PartialCredit;
  weighted_score : WeightedScore
}.

Module RunEval.

(** [l[:limit]], also for a negative [limit]. *)
Definition slice_to {A : Type} (l : list A) (limit : Z) : list A :=
  if 0 <=? limit then take (Z.to_nat limit) l
  else take (length l - Z.to_nat (- limit)) l.

(** What both drivers compute from the environment and the trace a run
    left, and append to [results["runs"]]. *)
Definition score_run (sc : Scenario) (env : EnvState) (trace : ExecutionTrace) : RunRecord :=
  let acc := Scoring.check_acceptance env (acceptance_criteria sc) in
  let technical := Scoring.check_technical_success env (acceptance_criteria sc) in
  let partial := Scoring.partial_credit trace in
  let weighted := Scoring.compute_weighted_score acc partial technical in
  {| scenario_id := sc_id sc;
     run_valid := valid acc;
     technical_success := valid technical;
     run_reasons := reasons acc;
     run_trace := trace;
     partial := partial;
     weighted_score := weighted |}.

Section WithRuntime.
Context {rt : PyRuntime} {llm : LlmRuntime}.

(** The loop of [run_ground_truth] over the scenarios selected; [gt] is the
    content of [data/ground_truth.json], its calls already [ToolCall]s, and
    [clock k] the clock during the run at index [k]. *)
Fixpoint ground_truth_runs (clock : nat -> nat -> float) (gt : gmap string (list ToolCall))
    (k : nat) (scenarios : list Scenario) : outcome (list RunRecord) :=
  match scenarios with
  | [] => Return []
  | sc :: rest =>
      let env := Harness.build_env (initial_state sc) in
      let seq := default [] (gt !! str_of_int (sc_id sc)) in
      r ← Harness.run_sequence (clock k) env seq 8;
      runs ← ground_truth_runs clock gt (S k) rest;
      Return (score_run sc r.1 r.2 :: runs)
  end.

Definition run_ground_truth (clock : nat -> nat -> float) (gt : gmap string (list ToolCall))
    (scenarios : list Scenario) (limit : Z) : outcome (list RunRecord) :=
  ground_truth_runs clock gt 0 (slice_to scenarios limit).

(** The loop of [run_eval.run_llm] over the scenarios selected. *)
Fixpoint llm_runs (h : HarnessConfig) (clock : nat -> nat -> float) (variant : string)
    (k : nat) (scenarios : list Scenario) : run_end (list RunRecord) :=
  match scenarios with
  | [] => Returned []
  | sc :: rest =>
      let env := Harness.build_env (initial_state sc) in
      match Llm.run_llm h (clock k) env sc variant 8 with
      | Returned (env, trace) =>
          match llm_runs h clock variant (S k) rest with
          | Returned runs => Returned (score_run sc env trace :: runs)
          | Escaped e => Escaped e
          | OutOfModel => OutOfModel
          end
      | Escaped e => Escaped e
      | OutOfModel => OutOfModel
      end
  end.

Definition run_llm (h : HarnessConfig) (clock : nat -> nat -> float) (scenarios : list Scenario)
    (limit : Z) (variant : string) : run_end (list RunRecord) :=
  llm_runs h clock variant 0 (slice_to scenarios limit).

End WithRuntime.

(** The counters of [main]'s summary and the percentage it prints. *)
Definition passed (runs : list RunRecord) : nat :=
  sum_list_with (fun r => if run_valid r then 1%nat else 0%nat) runs.

Definition technical_passed (runs : list RunRecord) : nat :=
  sum_list_with (fun r => if technical_success r then 1%nat else 0%nat) runs.

Definition total (runs : list RunRecord) : nat := length runs.

Definition percent (n total : nat) : nat := (100 * n / Nat.max total 1)%nat.

End RunEval.

(** ** Concrete data: the scenario of the specification *)

Module Examples.

(** A runtime to evaluate examples with; no property depends on its choice. *)
Definition demo_runtime : PyRuntime := {|
  py_hash := fun s => Z.of_nat (String.length s);
  random_random := fun _ => 0.5%float;
  bind_error_text := fun f _ _ => f +:+ "() got unexpected or missing keyword arguments"
|}.

(** [{"deployments": [{"service": "checkout-service", "namespace": "prod",
    "replicas": 2}]}]. *)
Definition checkout_initial : InitialState := {|
  init_deployments :=
    Some [{| item_service := "checkout-service"; item_namespace := "prod";
             item_replicas := Some 2 |}];
  init_feature_flags := None;
  init_ticket := None
|}.

Definition checkout_env : EnvState := Harness.build_env checkout_initial.

Definition call_scale (n : Z) : ToolCall := {|
  name := "k8s_scale";
  arguments := list_to_map [("service", PStr "checkout-service"); ("replicas", PInt n);
                            ("namespace", PStr "prod")]
|}.

Definition call_metrics : ToolCall := {|
  name := "metrics_query";
  arguments := list_to_map [("service", PStr "checkout-service"); ("metric", PStr "error_rate");
                            ("minutes", PInt 15); ("namespace", PStr "prod")]
|}.

Definition call_log : ToolCall := {|
  name := "incident_log";
  arguments := list_to_map [("message", PStr "scaled checkout-service to mitigate errors");
                            ("severity", PStr "warning")]
|}.

Definition call_ticket : ToolCall := {|
  name := "ticket_update";
  arguments := list_to_map [("status", PStr "mitigated"); ("note", PStr "scaled and verified")]
|}.


(** The trace [run_sequence] records for a list of calls on the checkout
    environment. *)
Definition run_trace (calls : list ToolCall) : ExecutionTrace :=
  match Harness.run_sequence (rt := demo_runtime) (fun _ => 0%float) checkout_env calls 8 with
  | Return (_, t) => t
  | _ => {| tool_calls := [] |}
  end.

(** The environment after a list of calls on the checkout environment. *)
Definition run_env (calls : list ToolCall) : EnvState :=
  match Harness.run_sequence (rt := demo_runtime) (fun _ => 0%float) checkout_env calls 8 with
  | Return (env, _) => env
  | _ => checkout_env
  end.

(** The run of the specification: scale, verify, log, update the ticket. *)
Definition full_run : list ToolCall := [call_scale 6; call_metrics; call_log; call_ticket].

Definition full_env : EnvState := Eval vm_compute in run_env full_run.
Definition full_trace : ExecutionTrace := Eval vm_compute in run_trace full_run.

(** A run that fixes and documents but leaves the ticket open. *)
Definition technical_env : EnvState := Eval vm_compute in run_env [call_scale 6; call_log].

(** A run that only scales. *)
Definition scale_only_env : EnvState := Eval vm_compute in run_env [call_scale 6].
Definition scale_only_trace : ExecutionTrace := Eval vm_compute in run_trace [call_scale 6].

(** A scale call without its [replicas] and [namespace] arguments. *)
Definition call_scale_unbound : ToolCall := {|
  name := "k8s_scale";
  arguments := list_to_map [("service", PStr "checkout-service")]
|}.



(** A scale call that fails on its range. *)
Definition failed_scale_only : ExecutionTrace :=
  Eval vm_compute in run_trace [call_scale 150].

(** The same call, then a metrics query. *)
Definition failed_scale_then_query : ExecutionTrace :=
  Eval vm_compute in run_trace [call_scale 150; call_metrics].

(** A scale call on a deployment that does not exist. *)
Definition call_scale_payments : ToolCall := {|
  name := "k8s_scale";
  arguments := list_to_map [("service", PStr "payments"); ("replicas", PInt 6);
                            ("namespace", PStr "prod")]
|}.

Definition unknown_deployment_only : ExecutionTrace :=
  Eval vm_compute in run_trace [call_scale_payments].


(** [{"ticket": {"status": "closed"}}]. *)
Definition closed_initial : InitialState := {|
  init_deployments := None;
  init_feature_flags := None;
  init_ticket := Some {| init_status := Some "closed"; init_note := None |}
|}.

(** Two entries for checkout-service/prod, with 2 and then 7 replicas, and
    one for another service between them. *)
Definition duplicate_initial : InitialState := {|
  init_deployments :=
    Some [{| item_service := "checkout-service"; item_namespace := "prod";
             item_replicas := Some 2 |};
          {| item_service := "payments"; item_namespace := "prod"; item_replicas := None |};
          {| item_service := "checkout-service"; item_namespace := "prod";
             item_replicas := Some 7 |}];
  init_feature_flags := None;
  init_ticket := None
|}.

(** A deployment with more replicas than a double can hold. *)
Definition huge_initial : InitialState := {|
  init_deployments :=
    Some [{| item_service := "checkout-service"; item_namespace := "prod";
             item_replicas := Some (2 ^ 1024) |}];
  init_feature_flags := None;
  init_ticket := None
|}.

Definition checkout_criteria : Criteria := {|
  deployment := Some {| req_service := Some "checkout-service"; req_namespace := Some "prod";
                        replicas_gte := Some 5 |};
  incident_log_contains := Some "scaled checkout-service";
  ticket_status := Some "mitigated"
|}.

(** Criteria asking for 5 replicas and a log entry about mitigation. *)
Definition mitigation_criteria : Criteria := {|
  deployment := Some {| req_service := Some "checkout-service"; req_namespace := Some "prod";
                        replicas_gte := Some 5 |};
  incident_log_contains := Some "mitigat";
  ticket_status := None
|}.

End Examples.

(** ** The criteria in the words of the specification *)

Definition is_substring (sub s : string) : Prop :=
  exists pre post : string, s = pre +:+ sub +:+ post.

(** The (service, namespace) deployment exists with replicas at or above the
    threshold, when the requirement names one. *)
Definition deployment_criterion (env : EnvState) (r : DeploymentReq) : Prop :=
  exists (s n : string) (d : Deployment),
    req_service r = Some s /\ req_namespace r = Some n /\
    deployments env !! (s, n) = Some d /\
    forall g : Z, replicas_gte r = Some g -> g <= replicas d.

(** Some incident-log entry's message contains the substring. *)
Definition log_criterion (env : EnvState) (sub : string) : Prop :=
  exists e : LogEntry, In e (incident_log env) /\ is_substring sub (message e).

(** The ticket's status equals the required status. *)
Definition ticket_criterion (env : EnvState) (t : string) : Prop :=
  status (ticket env) = t.

(** The deployment requirement [{}]. *)
Definition empty_req : DeploymentReq :=
  {| req_service := None; req_namespace := None; replicas_gte := None |}.


(** A criterion is specified when the record gives it a non-empty value. *)
Definition deployment_unmet (env : EnvState) (c : Criteria) : Prop :=
  exists r, deployment c = Some r /\ r <> empty_req /\ ~ deployment_criterion env r.

Definition log_unmet (env : EnvState) (c : Criteria) : Prop :=
  exists s, incident_log_contains c = Some s /\ s <> "" /\ ~ log_criterion env s.

Definition ticket_unmet (env : EnvState) (c : Criteria) : Prop :=
  exists t, ticket_status c = Some t /\ t <> "" /\ ~ ticket_criterion env t.

Definition deployment_met (env : EnvState) (c : Criteria) : Prop :=
  forall r, deployment c = Some r -> r <> empty_req -> deployment_criterion env r.

Definition log_met (env : EnvState) (c : Criteria) : Prop :=
  forall s, incident_log_contains c = Some s -> s <> "" -> log_criterion env s.

Definition ticket_met (env : EnvState) (c : Criteria) : Prop :=
  forall t, ticket_status c = Some t -> t <> "" -> ticket_criterion env t.

(** Every specified criterion holds. *)
Definition criteria_hold (env : EnvState) (c : Criteria) : Prop :=
  deployment_met env c /\ log_met env c /\ ticket_met env c.



(** ** The partial-credit signals in the words of the specification *)

(** A scale, restart or feature-flag operation. *)
Definition is_action (c : TraceEntry) : Prop :=
  name (call c) = "k8s_scale" \/ name (call c) = "k8s_restart" \/
  name (call c) = "feature_flag_set".

Definition is_query (c : TraceEntry) : Prop := name (call c) = "metrics_query".

(** Some scale, restart or flag operation is followed later in the trace by
    a metrics query. *)
Definition action_then_query (calls : list TraceEntry) : Prop :=
  exists (i j : nat) (a q : TraceEntry),
    calls !! i = Some a /\ calls !! j = Some q /\ (i < j)%nat /\ is_action a /\ is_query q.

(** The same, for a successful operation. *)
Definition successful_action_then_query (calls : list TraceEntry) : Prop :=
  exists (i j : nat) (a q : TraceEntry),
    calls !! i = Some a /\ calls !! j = Some q /\ (i < j)%nat /\
    is_action a /\ ok (result a) = true /\ is_query q.

(** Every metrics query occurs before every action. *)
Definition queries_precede_actions (calls : list TraceEntry) : Prop :=
  forall (i j : nat) (q a : TraceEntry),
    calls !! i = Some q -> calls !! j = Some a -> is_query q -> is_action a -> (i < j)%nat.

(** An argument-validation error, as the scorer recognises it: a failure
    whose error text contains [argument error]. *)
Definition is_argument_error (r : ToolResult) : Prop :=
  ok r = false /\ is_substring "argument error" (Scoring.error_text r).

(** Whether a character occurs in a string. *)
Fixpoint has_char (ch : ascii) (s : string) : bool :=
  match s with
  | EmptyString => false
  | String a s' => Ascii.eqb a ch || has_char ch s'
  end.

(** A trace of one entry. *)
Definition single_call (i : Z) (c : ToolCall) (r : ToolResult) : ExecutionTrace :=
  {| tool_calls := [{| step := i; call := c; result := r |}] |}.

(** ** Observations on tool outcomes *)

(** The result of a call, without the environment. *)
Definition returned {A B : Type} (o : outcome (A * B)) : outcome B :=
  match o with
  | Return (_, r) => Return r
  | Raise e => Raise e
  | IllTyped => IllTyped
  end.

(** The environment after a call that started in [env]. *)
Definition env_after {B : Type} (env : EnvState) (o : outcome (EnvState * B)) : EnvState :=
  match o with
  | Return (env', _) => env'
  | _ => env
  end.

(** ** Typed calls *)





(** ** Reachable environments *)

Definition valid_status (s : string) : Prop :=
  In s ["open"; "investigating"; "mitigated"; "resolved"].

(** Built by [build_env] from an initial state, then mutated by calls
    through the registry. *)
Inductive reachable_from {rt : PyRuntime} (initial_state : InitialState) : EnvState -> Prop :=
  | reachable_build : reachable_from initial_state (Harness.build_env initial_state)
  | reachable_call (env env' : EnvState) (now : float) (c : ToolCall) (r : ToolResult) :
      reachable_from initial_state env ->
      Harness.exec_tool now env c = Return (env', r) ->
      reachable_from initial_state env'.

(** The entries of a deployments list under one (service, namespace) key,
    in list order. *)
Definition entries_for (key : string * string) (items : list DeploymentItem)
    : list DeploymentItem :=
  List.filter
    (fun item => String.eqb (item_service item) key.1 && String.eqb (item_namespace item) key.2)
    items.

(** The deployment [build_env] makes of an item. *)
Definition deployment_of (item : DeploymentItem) : Deployment :=
  {| service := item_service item; namespace := item_namespace item;
     replicas := default 1 (item_replicas item); restarted_at := None |}.

(** ** The score in the words of the specification *)

(** The points of a weight of [w] percent: all or nothing. *)
Definition points (w : Z) (earned : bool) : Z := if earned then w else 0.

(** ** Observations on environments *)

(** The (service, namespace) keys of the deployments. *)
Definition deployment_keys (env : EnvState) : gset (string * string) := dom (deployments env).



(** ** Traces and the runs that record them *)

(** The entries record a run from [env] to [env']: each result is what
    [exec_tool] returned for the call in the environment reached so far,
    the call at index [i] reading the clock at [i]. *)
Fixpoint records_run {rt : PyRuntime} (clock : nat -> float) (i : nat) (env : EnvState)
    (entries : list TraceEntry) (env' : EnvState) : Prop :=
  match entries with
  | [] => env' = env
  | e :: rest =>
      exists env1 : EnvState,
        Harness.exec_tool (clock i) env (call e) = Return (env1, result e) /\
        records_run clock (S i) env1 rest env'
  end.

(** The entry is a call of the tool [n] that succeeded. *)
Definition is_successful (n : string) (e : TraceEntry) : bool :=
  String.eqb (name (call e)) n && ok (result e).

(** The message a successful [incident_log] entry logged. *)
Definition logged_message (e : TraceEntry) : option string :=
  if is_successful "incident_log" e then
    match arguments (call e) !! "message" with
    | Some (PStr m) => Some m
    | _ => None
    end
  else None.

(** The ticket a successful [ticket_update] entry wrote. *)
Definition ticket_written (e : TraceEntry) : option Ticket :=
  if is_successful "ticket_update" e then
    match arguments (call e) !! "status", arguments (call e) !! "note" with
    | Some (PStr s), Some (PStr n) => Some {| status := s; note := n |}
    | _, _ => None
    end
  else None.

(** The replica count a successful [k8s_scale] entry gave the deployment
    under [key]. *)
Definition replicas_written (key : string * string) (e : TraceEntry) : option Z :=
  if is_successful "k8s_scale" e then
    match arguments (call e) !! "service", arguments (call e) !! "namespace",
          arguments (call e) !! "replicas" with
    | Some (PStr s), Some (PStr ns), Some (PInt n) =>
        if bool_decide ((s, ns) = key) then Some n else None
    | _, _, _ => None
    end
  else None.

(** ** Scores and signals compared *)

(** One record of signals has every signal the other has, a failing
    [tool_syntax_ok] counting as the absence of a signal. *)
Definition signals_le (p q : PartialCredit) : Prop :=
  (tool_syntax_ok p = true -> tool_syntax_ok q = true) /\
  (verification_performed p = true -> verification_performed q = true) /\
  (incident_logged p = true -> incident_logged q = true) /\
  (ticket_updated p = true -> ticket_updated q = true).

(** The criteria of a scenario that asks for a replica floor, a log
    substring and a ticket status. *)
Definition full_criteria (service namespace : string) (gte : Z) (sub t : string) : Criteria :=
  {| deployment := Some {| req_service := Some service; req_namespace := Some namespace;
                           replicas_gte := Some gte |};
     incident_log_contains := Some sub;
     ticket_status := Some t |}.

(** The values an initial feature-flag mapping gives for one flag, in the
    order of the mapping. *)
Definition flag_values (k : string) (flags : list (string * pyval)) : list pyval :=
  map snd (List.filter (fun kv => String.eqb kv.1 k) flags).

(** ** Runs of the conversation loop *)

(** The entries are what [exec_tool] returned, each at the time of its step,
    in the environment the earlier entries left. *)
Fixpoint records_turns {rt : PyRuntime} (clock : nat -> float) (env : EnvState)
    (entries : list TraceEntry) (env' : EnvState) : Prop :=
  match entries with
  | [] => env' = env
  | e :: rest =>
      exists env1 : EnvState,
        Harness.exec_tool (clock (Z.to_nat (step e))) env (call e) = Return (env1, result e) /\
        records_turns clock env1 rest env'
  end.

(** The step numbers increase strictly and lie between [lo] and [hi]. *)
Fixpoint steps_within (lo hi : Z) (entries : list TraceEntry) : Prop :=
  match entries with
  | [] => True
  | e :: rest => lo <= step e <= hi /\ steps_within (step e + 1) hi rest
  end.



Module LlmExamples.

(** A text in double quotes. *)
Definition q (s : string) : string := Llm.dq +:+ s +:+ Llm.dq.

(** [{"tool_call": {"name": "k8s_scale", "arguments": {"service":
    "checkout-service", "replicas": 6, "namespace": "prod"}}}]. *)
Definition scale_body : string :=
  q "tool_call" +:+ ": {" +:+ q "name" +:+ ": " +:+ q "k8s_scale" +:+ ", "
  +:+ q "arguments" +:+ ": {" +:+ q "service" +:+ ": " +:+ q "checkout-service" +:+ ", "
  +:+ q "replicas" +:+ ": 6, " +:+ q "namespace" +:+ ": " +:+ q "prod" +:+ "}}".

Definition scale_reply : string := "{" +:+ scale_body +:+ "}".

Definition scale_json : json :=
  JDict (list_to_map
    [("tool_call",
      JDict (list_to_map
        [("name", JStr "k8s_scale");
         ("arguments",
          JDict (list_to_map [("service", JStr "checkout-service"); ("replicas", JInt 6);
                              ("namespace", JStr "prod")]))]))]).

(** [{"final_answer": "scaled to 6"}]. *)
Definition final_reply : string :=
  "{" +:+ q "final_answer" +:+ ": " +:+ q "scaled to 6" +:+ "}".

Definition final_json : json := JDict (list_to_map [("final_answer", JStr "scaled to 6")]).

(** A reply that holds both keys. *)
Definition both_reply : string :=
  "{" +:+ q "final_answer" +:+ ": " +:+ q "scaling" +:+ ", " +:+ q "tool_call" +:+ ": {"
  +:+ q "name" +:+ ": " +:+ q "k8s_scale" +:+ "}}".

Definition both_json : json :=
  JDict (list_to_map
    [("final_answer", JStr "scaling");
     ("tool_call", JDict (list_to_map [("name", JStr "k8s_scale")]))]).

(** [{"tool_call": {"name": "k8s_scale"}}]: a call without arguments. *)
Definition bare_reply : string :=
  "{" +:+ q "tool_call" +:+ ": {" +:+ q "name" +:+ ": " +:+ q "k8s_scale" +:+ "}}".

Definition bare_json : json :=
  JDict (list_to_map [("tool_call", JDict (list_to_map [("name", JStr "k8s_scale")]))]).

(** [{"tool_call": {"name": 7}}]: a call whose name is not a string. *)
Definition malformed_reply : string :=
  "{" +:+ q "tool_call" +:+ ": {" +:+ q "name" +:+ ": 7}}".

Definition malformed_json : json :=
  JDict (list_to_map [("tool_call", JDict (list_to_map [("name", JInt 7)]))]).

(** [json.loads] on the replies above and on the number [42]; every other
    text is taken as not being JSON. *)
Definition loads (s : string) : option json :=
  snd <$> List.find (fun p => String.eqb p.1 s)
    [(scale_reply, scale_json); (final_reply, final_json); (both_reply, both_json);
     (malformed_reply, malformed_json); (bare_reply, bare_json); ("42", JInt 42);
     (Llm.no_api_key_reply, JDict (list_to_map [("final_answer", JStr "no_api_key")]))].

(** A chat service that answers from a script: the request that carries
    [3 + n] messages gets the reply at index [n], and fails with a
    connection error once the script is used up. *)
Definition scripted (script : list chat_reply) : LlmRuntime := {|
  post_chat := fun messages =>
    nth (length messages - 3) script (ChatRaised "connection reset");
  json_loads := loads;
  dumps_tool_result := fun r => if ok r then "{ok}" else "{failed}";
  read_prompt := fun _ => None
|}.

Definition online : HarnessConfig := {| model := None; api_key := Some "sk-or-demo" |}.
Definition offline : HarnessConfig := {| model := None; api_key := None |}.

Definition checkout_scenario : Scenario := {|
  sc_id := 1;
  user_prompt := "Error rate is high on checkout-service in prod. Mitigate.";
  initial_state := Examples.checkout_initial;
  acceptance_criteria := Examples.checkout_criteria
|}.

(** A run of [run_llm] on the checkout scenario against a script. *)
Definition run (h : HarnessConfig) (script : list chat_reply) (max_steps : nat)
    : run_end (EnvState * ExecutionTrace) :=
  Llm.run_llm (rt := Examples.demo_runtime) (llm := scripted script) h (fun _ => 0%float)
    Examples.checkout_env checkout_scenario "baseline" max_steps.

(** The model wraps its call in prose, then answers with prose only, is
    asked to reformat, and gives its final answer. *)
Definition polite_script : list chat_reply :=
  [Content (Some ("Sure, scaling now: " +:+ scale_reply +:+ " Done."));
   Content (Some "All good!");
   Content (Some final_reply)].

Definition polite_env : EnvState :=
  Eval vm_compute in
    match run online polite_script 8 with
    | Returned (env, _) => env
    | _ => EnvState_default
    end.

Definition polite_trace : ExecutionTrace :=
  Eval vm_compute in
    match run online polite_script 8 with
    | Returned (_, trace) => trace
    | _ => {| tool_calls := [] |}
    end.

(** [data/ground_truth.json] with the full run for scenario 1. *)
Definition ground_truth : gmap string (list ToolCall) := {[ "1" := Examples.full_run ]}.

(** A second scenario, for which the ground truth has no entry. *)
Definition idle_scenario : Scenario := {|
  sc_id := 2;
  user_prompt := "Nothing to do.";
  initial_state := Examples.checkout_initial;
  acceptance_criteria := Examples.checkout_criteria
|}.

Definition ground_truth_report : list RunRecord :=
  Eval vm_compute in
    match RunEval.run_ground_truth (rt := Examples.demo_runtime) (fun _ _ => 0%float)
            ground_truth [checkout_scenario; idle_scenario] 2 with
    | Return runs => runs
    | _ => []
    end.

Definition llm_report : list RunRecord :=
  Eval vm_compute in
    match RunEval.run_llm (rt := Examples.demo_runtime) (llm := scripted polite_script)
            online (fun _ _ => 0%float) [checkout_scenario; idle_scenario] (-1) "baseline" with
    | Returned runs => runs
    | _ => []
    end.

End LlmExamples.

(** * Properties *)

(** ** Strings *)

Lemma prefix_true_iff (sub s : string) :
  String.prefix sub s = true <-> exists post : string, s = sub +:+ post.
Proof.
  revert s. induction sub as [|a sub IH]; intros s.
  - split; [intros _; exists s; reflexivity | intros _; now destruct s].
  - destruct s as [|b s]; simpl.
    + split; [discriminate | intros [post H]; discriminate].
    + destruct (Ascii.ascii_dec a b) as [->|Hne].
      * rewrite IH. split; intros [post H]; exists post.
        -- simpl. now rewrite H.
        -- simpl in H. now injection H.
      * split; [discriminate |].
        intros [post H]. simpl in H. injection H as H1 H2. congruence.
Qed.

Lemma str_in_nil (sub : string) : str_in sub "" = String.prefix sub "".
Proof. unfold str_in. apply orb_false_r. Qed.

Lemma str_in_cons (sub : string) (b : ascii) (s : string) :
  str_in sub (String b s) = String.prefix sub (String b s) || str_in sub s.
Proof. reflexivity. Qed.

Lemma str_in_true_iff (sub s : string) :
  str_in sub s = true <-> is_substring sub s.
Proof.
  unfold is_substring. induction s as [|b s IH].
  - rewrite str_in_nil, prefix_true_iff. split.
    + intros [post H]. exists "", post. exact H.
    + intros [pre [post H]]. destruct pre; simpl in H; [eauto | discriminate].
  - rewrite str_in_cons, orb_true_iff, prefix_true_iff, IH. split.
    + intros [[post H] | [pre [post H]]].
      * exists "", post. exact H.
      * exists (String b pre), post. simpl. now rewrite H.
    + intros [pre [post H]]. destruct pre as [|c pre]; simpl in H.
      * left. eauto.
      * right. injection H as _ H. eauto.
Qed.

Lemma truthy_str_iff (o : option string) :
  truthy_str o = true <-> exists s : string, o = Some s /\ s <> "".
Proof.
  destruct o as [s|]; simpl.
  - rewrite negb_true_iff. destruct (String.eqb_spec s ""); split.
    + discriminate.
    + intros [s' [[= <-] H]]. contradiction.
    + eauto.
    + reflexivity.
  - split; [discriminate | intros [s [[=] _]]].
Qed.

Lemma str_mem_true_iff (x : string) (l : list string) :
  str_mem x l = true <-> In x l.
Proof.
  unfold str_mem. rewrite existsb_exists. split.
  - intros [y [Hin Heq]]. apply String.eqb_eq in Heq. now subst.
  - intros Hin. exists x. split; [assumption | apply String.eqb_refl].
Qed.

(** ** The acceptance and technical-success checks *)

Section Specified.
Context {A : Type} (o : option A) (e : A) (Q : A -> Prop).

(** A specified criterion: a boolean that decides it decides both its
    unmet and its met form. *)
Lemma specified_decides (x : A) (b : bool) :
  o = Some x -> x <> e -> (b = false <-> Q x) ->
  (b = true <-> exists y, o = Some y /\ y <> e /\ ~ Q y) /\
  (b = false <-> forall y, o = Some y -> y <> e -> Q y).
Proof.
  intros Ho Hne Hb. rewrite Ho. split; split.
  - intros ->. exists x. repeat split; auto. intros Hq. apply Hb in Hq. discriminate.
  - intros [y [[= <-] [_ Hn]]]. destruct b; auto. exfalso. apply Hn, Hb. reflexivity.
  - intros Hf y [= <-] _. now apply Hb.
  - intros Hall. apply Hb. now apply Hall.
Qed.

(** A criterion that is not specified is vacuously met. *)
Lemma unspecified_vacuous :
  ~ (exists x, o = Some x /\ x <> e) ->
  (false = true <-> exists y, o = Some y /\ y <> e /\ ~ Q y) /\
  (false = false <-> forall y, o = Some y -> y <> e -> Q y).
Proof.
  intros Hno. split; split; try discriminate; auto.
  - intros [x [Ho [Hne _]]]. exfalso. eauto.
  - intros _ x Ho Hne. exfalso. eauto.
Qed.

End Specified.

Lemma truthy_req_iff (o : option DeploymentReq) :
  Scoring.truthy_req o = true <-> exists r, o = Some r /\ r <> empty_req.
Proof.
  destruct o as [[[s|] [n|] [g|]]|]; simpl; split; try discriminate;
    try (intros _; eexists; split; [reflexivity | discriminate]);
    try reflexivity.
  - intros [r [[= <-] H]]. now contradiction H.
  - intros [r [[=] _]].
Qed.

Lemma truthy_false_not_specified {A : Type} (t : bool) (o : option A) (e : A) :
  (t = true <-> exists x, o = Some x /\ x <> e) -> t = false ->
  ~ (exists x, o = Some x /\ x <> e).
Proof. intros H Ht Hx. apply H in Hx. congruence. Qed.

(** Whether the deployment a requirement names exists at its threshold. *)
Lemma find_deployment_decides (env : EnvState) (r : DeploymentReq) :
  match Scoring.find_deployment env (req_service r) (req_namespace r) with
  | None => ~ deployment_criterion env r
  | Some d =>
      match replicas_gte r with
      | Some g => if replicas d <? g then ~ deployment_criterion env r
                  else deployment_criterion env r
      | None => deployment_criterion env r
      end
  end.
Proof.
  unfold Scoring.find_deployment, deployment_criterion.
  destruct (req_service r) as [s|]; [| intros (s & n & d & [=] & _)].
  destruct (req_namespace r) as [n|]; [| intros (s0 & n & d & _ & [=] & _)].
  destruct (deployments env !! (s, n)) as [d|] eqn:Hd.
  - destruct (replicas_gte r) as [g|].
    + destruct (Z.ltb_spec (replicas d) g) as [Hlt|Hge].
      * intros (s0 & n0 & d0 & [= <-] & [= <-] & Hd' & Hall).
        rewrite Hd in Hd'. injection Hd' as <-. specialize (Hall g eq_refl). lia.
      * exists s, n, d. repeat split; auto. intros g0 [= <-]. lia.
    + exists s, n, d. repeat split; auto. intros g0 [=].
  - intros (s0 & n0 & d & [= <-] & [= <-] & Hd' & _). congruence.
Qed.

(** The deployment block adds one reason exactly when the deployment
    criterion is specified and unmet, and only then clears [ok]. *)
Lemma check_deployment_spec (env : EnvState) (c : Criteria) (ok0 : bool) (rs : list string) :
  exists (b : bool) (msg : string),
    (b = true <-> deployment_unmet env c) /\
    (b = false <-> deployment_met env c) /\
    Scoring.check_deployment env c (ok0, rs) = (ok0 && negb b, rs ++ if b then [msg] else []).
Proof.
  unfold Scoring.check_deployment, deployment_unmet, deployment_met.
  destruct (Scoring.truthy_req (deployment c)) eqn:Ht.
  - apply truthy_req_iff in Ht as [r [Hr Hne]].
    pose proof (find_deployment_decides env r) as Hdec.
    pose proof (fun b => specified_decides (deployment c) empty_req
                           (deployment_criterion env) r b Hr Hne) as Hcase.
    rewrite Hr in Hcase |- *. simpl.
    destruct (Scoring.find_deployment env (req_service r) (req_namespace r)) as [d|].
    + destruct (replicas_gte r) as [g|]; [destruct (replicas d <? g) |].
      * eexists true, _. rewrite andb_false_r.
        destruct (Hcase true) as [H1 H2]; [split; [discriminate | tauto] |].
        split; [exact H1 | split; [exact H2 | reflexivity]].
      * exists false, "". rewrite andb_true_r, app_nil_r.
        destruct (Hcase false) as [H1 H2]; [tauto | auto].
      * exists false, "". rewrite andb_true_r, app_nil_r.
        destruct (Hcase false) as [H1 H2]; [tauto | auto].
    + eexists true, _. rewrite andb_false_r.
      destruct (Hcase true) as [H1 H2]; [split; [discriminate | tauto] |].
      split; [exact H1 | split; [exact H2 | reflexivity]].
  - exists false, "". rewrite andb_true_r, app_nil_r.
    destruct (unspecified_vacuous (deployment c) empty_req (deployment_criterion env)); auto.
    eapply truthy_false_not_specified; [apply truthy_req_iff | exact Ht].
Qed.

(** The incident-log block, likewise. *)
Lemma check_log_spec (env : EnvState) (c : Criteria) (ok0 : bool) (rs : list string) :
  exists (b : bool) (msg : string),
    (b = true <-> log_unmet env c) /\
    (b = false <-> log_met env c) /\
    Scoring.check_log env c (ok0, rs) = (ok0 && negb b, rs ++ if b then [msg] else []).
Proof.
  unfold Scoring.check_log, log_unmet, log_met.
  destruct (truthy_str (incident_log_contains c)) eqn:Ht.
  - apply truthy_str_iff in Ht as [sub [Hs Hne]].
    pose proof (fun b => specified_decides (incident_log_contains c) ""
                           (log_criterion env) sub b Hs Hne) as Hcase.
    rewrite Hs in Hcase |- *. simpl.
    destruct (existsb (fun e => str_in sub (message e)) (incident_log env)) eqn:Hex; simpl.
    + exists false, "". rewrite andb_true_r, app_nil_r.
      destruct (Hcase false) as [H1 H2]; [| auto].
      split; [intros _ | reflexivity].
      apply existsb_exists in Hex as [e [Hin He]].
      exists e. split; [assumption | now apply str_in_true_iff].
    + eexists true, _. rewrite andb_false_r.
      destruct (Hcase true) as [H1 H2]; [| split; [exact H1 | split; [exact H2 | reflexivity]]].
      split; [discriminate |].
      intros [e [Hin He]]. apply str_in_true_iff in He.
      assert (existsb (fun e => str_in sub (message e)) (incident_log env) = true)
        by (apply existsb_exists; eauto).
      congruence.
  - exists false, "". rewrite andb_true_r, app_nil_r.
    destruct (unspecified_vacuous (incident_log_contains c) "" (log_criterion env)); auto.
    eapply truthy_false_not_specified; [apply truthy_str_iff | exact Ht].
Qed.

(** The ticket block, likewise. *)
Lemma check_ticket_spec (env : EnvState) (c : Criteria) (ok0 : bool) (rs : list string) :
  exists (b : bool) (msg : string),
    (b = true <-> ticket_unmet env c) /\
    (b = false <-> ticket_met env c) /\
    Scoring.check_ticket env c (ok0, rs) = (ok0 && negb b, rs ++ if b then [msg] else []).
Proof.
  unfold Scoring.check_ticket, ticket_unmet, ticket_met.
  destruct (truthy_str (ticket_status c)) eqn:Ht.
  - apply truthy_str_iff in Ht as [t [Hs Hne]].
    pose proof (fun b => specified_decides (ticket_status c) ""
                           (ticket_criterion env) t b Hs Hne) as Hcase.
    rewrite Hs in Hcase |- *. simpl. unfold ticket_criterion in *.
    destruct (String.eqb_spec (status (ticket env)) t) as [Heq|Hneq]; simpl.
    + exists false, "". rewrite andb_true_r, app_nil_r.
      destruct (Hcase false) as [H1 H2]; [tauto | auto].
    + eexists true, _. rewrite andb_false_r.
      destruct (Hcase true) as [H1 H2]; [| split; [exact H1 | split; [exact H2 | reflexivity]]].
      split; [discriminate | contradiction].
  - exists false, "". rewrite andb_true_r, app_nil_r.
    destruct (unspecified_vacuous (ticket_status c) "" (ticket_criterion env)); auto.
    eapply truthy_false_not_specified; [apply truthy_str_iff | exact Ht].
Qed.

Lemma length_app_flag (rs : list string) (b : bool) (msg : string) :
  length (rs ++ if b then [msg] else []) = (length rs + Nat.b2n b)%nat.
Proof. rewrite length_app. now destruct b. Qed.

(** The three blocks of [check_acceptance] in sequence: the flags of the
    unmet criteria, the validity and the number of reasons. *)
Lemma check_acceptance_blocks (env : EnvState) (c : Criteria) :
  exists bd bl bt : bool,
    ((bd = true <-> deployment_unmet env c) /\ (bd = false <-> deployment_met env c)) /\
    ((bl = true <-> log_unmet env c) /\ (bl = false <-> log_met env c)) /\
    ((bt = true <-> ticket_unmet env c) /\ (bt = false <-> ticket_met env c)) /\
    valid (Scoring.check_acceptance env c) = negb bd && negb bl && negb bt /\
    length (reasons (Scoring.check_acceptance env c))
      = (Nat.b2n bd + Nat.b2n bl + Nat.b2n bt)%nat.
Proof.
  unfold Scoring.check_acceptance.
  destruct (check_deployment_spec env c true []) as (bd & m1 & Hd1 & Hd2 & ->).
  destruct (check_log_spec env c (true && negb bd) ([] ++ if bd then [m1] else []))
    as (bl & m2 & Hl1 & Hl2 & ->).
  destruct (check_ticket_spec env c (true && negb bd && negb bl)
              (([] ++ if bd then [m1] else []) ++ if bl then [m2] else []))
    as (bt & m3 & Ht1 & Ht2 & ->).
  cbn [valid reasons fst snd].
  exists bd, bl, bt. repeat split; try tauto.
  rewrite !length_app_flag. reflexivity.
Qed.

Lemma check_acceptance_spec (env : EnvState) (c : Criteria) :
  valid (Scoring.check_acceptance env c) = true <-> criteria_hold env c.
Proof.
  destruct (check_acceptance_blocks env c)
    as (bd & bl & bt & [_ Hd] & [_ Hl] & [_ Ht] & -> & _).
  unfold criteria_hold. rewrite <- Hd, <- Hl, <- Ht.
  destruct bd, bl, bt; simpl; intuition congruence.
Qed.



Lemma check_technical_success_spec (env : EnvState) (c : Criteria) :
  valid (Scoring.check_technical_success env c) = true <->
  deployment_met env c /\ log_met env c.
Proof.
  unfold Scoring.check_technical_success.
  destruct (check_deployment_spec env c true []) as (bd & m1 & Hd1 & Hd2 & ->).
  destruct (check_log_spec env c (true && negb bd) ([] ++ if bd then [m1] else []))
    as (bl & m2 & Hl1 & Hl2 & ->).
  cbn [valid fst]. rewrite <- Hd2, <- Hl2.
  destruct bd, bl; simpl; intuition congruence.
Qed.



(** ** The weighted score *)

(** Small integers are their own doubles. *)
Example nearest_float_points :
  map nearest_float [0; 5; 15; 60; 100] = [0; 5; 15; 60; 100]%float.
Proof. reflexivity. Qed.

(** C3.  The total of [compute_weighted_score] is the double of 60 points
    for a valid technical success plus 15 for [ticket_updated], 15 for
    [incident_logged], 5 for [verification_performed] and 5 for
    [tool_syntax_ok]; it lies between 0 and 100; each entry of the breakdown
    is the whole weight of its signal or zero, and the entries add up to the
    total.  With every signal true the total is 100.0. *)
Theorem compute_weighted_score_total (acceptance technical : CheckResult)
    (partial : PartialCredit) :
  let w := Scoring.compute_weighted_score acceptance partial technical in
  let b := breakdown w in
  total_score w
    = nearest_float (points 60 (valid technical) + points 15 (ticket_updated partial)
                     + points 15 (incident_logged partial)
                     + points 5 (verification_performed partial)
                     + points 5 (tool_syntax_ok partial)) /\
  PrimFloat.leb 0 (total_score w) = true /\
  PrimFloat.leb (total_score w) 100 = true /\
  bd_technical_task b = nearest_float (points 60 (valid technical)) /\
  bd_ticket_updated b = nearest_float (points 15 (ticket_updated partial)) /\
  bd_incident_logged b = nearest_float (points 15 (incident_logged partial)) /\
  bd_verification b = nearest_float (points 5 (verification_performed partial)) /\
  bd_tool_syntax b = nearest_float (points 5 (tool_syntax_ok partial)) /\
  (bd_technical_task b + bd_ticket_updated b + bd_incident_logged b
   + bd_verification b + bd_tool_syntax b)%float = total_score w /\
  (valid technical = true -> ticket_updated partial = true ->
   incident_logged partial = true -> verification_performed partial = true ->
   tool_syntax_ok partial = true -> total_score w = 100%float).
Proof.
  destruct technical as [[|] rs], partial as [[|] [|] [|] [|]];
    vm_compute; repeat split; intros; congruence.
Qed.

(** ** The partial-credit signals *)

Lemma action_name_iff (c : TraceEntry) :
  str_mem (name (call c)) ["k8s_scale"; "k8s_restart"; "feature_flag_set"] = true
  <-> is_action c.
Proof. rewrite str_mem_true_iff. unfold is_action. simpl. intuition. Qed.

Lemma query_name_iff (c : TraceEntry) :
  String.eqb (name (call c)) "metrics_query" = true <-> is_query c.
Proof. apply String.eqb_eq. Qed.

(** The state of the loop of [partial_credit] after a prefix of the trace:
    [did_action] records an action in the prefix, [verification] an action
    followed by a query. *)
Lemma verification_loop (calls : list TraceEntry) :
  let st := fold_left Scoring.verification_step calls (false, false) in
  (st.1 = true <-> exists (i : nat) (a : TraceEntry), calls !! i = Some a /\ is_action a) /\
  (st.2 = true <-> action_then_query calls).
Proof.
  induction calls as [|c calls IH] using rev_ind; cbn zeta.
  - cbn. split; split; try discriminate.
    + intros (i & a & H & _). now rewrite lookup_nil in H.
    + intros (i & j & a & q & H & _). now rewrite lookup_nil in H.
  - rewrite fold_left_app. cbn [fold_left].
    destruct (fold_left Scoring.verification_step calls (false, false)) as [did ver].
    cbn zeta in IH. cbn [fst snd] in IH. destruct IH as [IHd IHv].
    unfold Scoring.verification_step.
    pose proof (action_name_iff c) as Hact. pose proof (query_name_iff c) as Hq.
    set (ba := str_mem (name (call c)) _) in *.
    set (bq := String.eqb (name (call c)) _) in *.
    assert (Hd' : (if ba then true else did) = true <->
                  exists (i : nat) (a : TraceEntry), (calls ++ [c]) !! i = Some a /\ is_action a).
    { split.
      - intros H. destruct ba.
        + exists (length calls), c. split; [| now apply Hact].
          apply lookup_snoc_Some. right. auto.
        + apply IHd in H as (i & a & Hi & Ha). exists i, a.
          split; [now apply lookup_app_l_Some | assumption].
      - intros (i & a & Hi & Ha). apply lookup_snoc_Some in Hi as [[_ Hi] | [_ <-]].
        + assert (did = true) as -> by (apply IHd; eauto). now destruct ba.
        + apply Hact in Ha. now rewrite Ha. }
    split; [exact Hd' |]. cbn [fst snd]. split.
    + intros H.
      destruct ((if ba then true else did) && bq) eqn:Hnow.
      * apply andb_true_iff in Hnow as [Hdid Hbq].
        apply Hd' in Hdid as (i & a & Hi & Ha).
        apply Hq in Hbq.
        apply lookup_snoc_Some in Hi as [[Hlt Hi] | [_ <-]].
        -- exists i, (length calls), a, c. repeat split; auto.
           ++ now apply lookup_app_l_Some.
           ++ apply lookup_snoc_Some. right. auto.
        -- exfalso. unfold is_action, is_query in *. destruct Ha as [Ha | [Ha | Ha]]; congruence.
      * apply IHv in H as (i & j & a & q & Hi & Hj & Hlt & Ha & Hqq).
        exists i, j, a, q. repeat split; auto using lookup_app_l_Some.
    + intros (i & j & a & q & Hi & Hj & Hlt & Ha & Hqq).
      apply lookup_snoc_Some in Hj as [[Hjl Hj] | [Hjl <-]].
      * apply lookup_snoc_Some in Hi as [[_ Hi] | [Hil _]]; [| lia].
        assert (ver = true) as -> by (apply IHv; exists i, j, a, q; auto).
        now destruct (_ && _).
      * apply lookup_snoc_Some in Hi as [[_ Hi] | [Hil _]]; [| lia].
        assert (did = true) as -> by (apply IHd; eauto).
        apply Hq in Hqq. rewrite Hqq. now destruct ba.
Qed.

Lemma verification_performed_spec (trace : ExecutionTrace) :
  verification_performed (Scoring.partial_credit trace) = true
  <-> action_then_query (tool_calls trace).
Proof.
  unfold Scoring.partial_credit.
  pose proof (verification_loop (tool_calls trace)) as [_ H]. cbn zeta in H.
  destruct (fold_left Scoring.verification_step (tool_calls trace) (false, false)).
  exact H.
Qed.

(** C4 (as amended).  [partial_credit] sets [verification_performed] to
    true if and only if some scale, restart or feature-flag call, successful
    or not, appears in the trace and is followed later by a metrics query; a
    trace whose metrics queries all occur before every such call yields
    false. *)
Theorem verification_performed_iff (trace : ExecutionTrace) :
  (verification_performed (Scoring.partial_credit trace) = true
   <-> action_then_query (tool_calls trace)) /\
  (queries_precede_actions (tool_calls trace) ->
   verification_performed (Scoring.partial_credit trace) = false).
Proof.
  split; [apply verification_performed_spec |].
  intros Hpre.
  destruct (verification_performed (Scoring.partial_credit trace)) eqn:Hv; [| reflexivity].
  apply verification_performed_spec in Hv as (i & j & a & q & Hi & Hj & Hlt & Ha & Hq).
  specialize (Hpre j i q a Hj Hi Hq Ha). lia.
Qed.

(** C4 (as stated) fails: a scale call rejected for its range, followed by a
    metrics query, sets [verification_performed] although no successful
    operation precedes the query. *)
Lemma verification_after_failed_action :
  map (fun c => (name (call c), ok (result c)))
      (tool_calls Examples.failed_scale_then_query)
    = [("k8s_scale", false); ("metrics_query", true)] /\
  verification_performed (Scoring.partial_credit Examples.failed_scale_then_query) = true /\
  ~ successful_action_then_query (tool_calls Examples.failed_scale_then_query).
Proof.
  split; [reflexivity |]. split; [reflexivity |].
  intros (i & j & a & q & Hi & Hj & Hlt & Ha & Hok & Hq).
  destruct i as [|[|i]]; cbn in Hi; try discriminate.
  - injection Hi as <-. discriminate Hok.
  - injection Hi as <-. destruct Ha as [Ha | [Ha | Ha]]; discriminate Ha.
Qed.

Lemma has_char_app (ch : ascii) (a b : string) :
  has_char ch (a +:+ b) = has_char ch a || has_char ch b.
Proof. induction a as [|x a IH]; simpl; [reflexivity |]. now rewrite IH, orb_assoc. Qed.

Lemma has_char_substring (ch : ascii) (sub s : string) :
  is_substring sub s -> has_char ch sub = true -> has_char ch s = true.
Proof.
  intros (pre & post & ->) H. rewrite !has_char_app, H.
  now rewrite orb_true_r.
Qed.

(** The decimal text of an integer has no letter [m]. *)
Lemma has_char_str_of_int (z : Z) : has_char "m" (str_of_int z) = false.
Proof.
  assert (Hu : forall d, has_char "m" (NilEmpty.string_of_uint d) = false)
    by (induction d; simpl; auto).
  assert (Hz : forall d, has_char "m" (NilZero.string_of_uint d) = false)
    by (intros d; destruct d; simpl; auto).
  unfold str_of_int, NilZero.string_of_int.
  destruct (Z.to_int z); simpl; auto.
Qed.

Lemma range_error_not_argument_error (n : Z) :
  ~ is_argument_error (failure ("replicas out of range: " +:+ str_of_int n)).
Proof.
  intros [_ Hsub]. cbn in Hsub.
  apply (has_char_substring "m") in Hsub; [| reflexivity].
  rewrite (has_char_app "m" "replicas out of range: "), has_char_str_of_int in Hsub.
  discriminate Hsub.
Qed.

Lemma tool_syntax_ok_spec (trace : ExecutionTrace) :
  tool_syntax_ok (Scoring.partial_credit trace) = false
  <-> exists c : TraceEntry, In c (tool_calls trace) /\ is_argument_error (result c).
Proof.
  unfold Scoring.partial_credit, is_argument_error.
  destruct (fold_left Scoring.verification_step (tool_calls trace) (false, false)).
  cbn [tool_syntax_ok]. rewrite negb_false_iff, existsb_exists.
  split; intros (c & Hin & H); exists c; split; auto.
  - apply andb_true_iff in H as [Hok Hsub].
    apply negb_true_iff in Hok. apply str_in_true_iff in Hsub. auto.
  - destruct H as [Hok Hsub]. rewrite Hok. now apply str_in_true_iff.
Qed.

Lemma tool_syntax_ok_single (i : Z) (c : ToolCall) (r : ToolResult) :
  tool_syntax_ok (Scoring.partial_credit (single_call i c r)) = false <-> is_argument_error r.
Proof.
  rewrite tool_syntax_ok_spec. cbn. split.
  - intros (e & [<- | []] & H). exact H.
  - intros H. eexists. split; [left; reflexivity | exact H].
Qed.

Lemma k8s_scale_out_of_range (env : EnvState) (service namespace : string) (n : Z) :
  n < 1 \/ 100 < n ->
  Tools.k8s_scale env service n namespace
  = (env, failure ("replicas out of range: " +:+ str_of_int n)).
Proof.
  intros H. unfold Tools.k8s_scale.
  destruct (Z.ltb_spec n 1), (Z.ltb_spec 100 n); simpl; try reflexivity; lia.
Qed.

Lemma k8s_scale_unknown (env : EnvState) (service namespace : string) (n : Z) :
  deployments env !! (service, namespace) = None -> 1 <= n <= 100 ->
  Tools.k8s_scale env service n namespace
  = (env, failure ("unknown deployment: " +:+ service +:+ " in " +:+ namespace)).
Proof.
  intros Hd H. unfold Tools.k8s_scale. rewrite Hd.
  destruct (Z.ltb_spec n 1), (Z.ltb_spec 100 n); simpl; try reflexivity; lia.
Qed.

Section ExecTool.
Context {rt : PyRuntime}.

Lemma exec_tool_unknown (now : float) (env : EnvState) (c : ToolCall) :
  Tools.TOOL_REGISTRY !! name c = None ->
  Harness.exec_tool now env c = Return (env, failure ("unknown tool: " +:+ name c)).
Proof. intros H. unfold Harness.exec_tool. now rewrite H. Qed.

Lemma exec_tool_unbound (now : float) (env : EnvState) (c : ToolCall) (fn : Tools.pyfunction) :
  Tools.TOOL_REGISTRY !! name c = Some fn ->
  Tools.binds (Tools.fn_params fn) (arguments c) = false ->
  Harness.exec_tool now env c
  = Return (env, failure ("argument error: "
                          +:+ bind_error_text (Tools.fn_name fn) (Tools.fn_params fn)
                                (arguments c))).
Proof.
  intros H Hb. unfold Harness.exec_tool, Tools.call_function. now rewrite H, Hb.
Qed.
End ExecTool.

Lemma argument_error_prefix (m : string) :
  is_argument_error (failure ("argument error: " +:+ m)).
Proof. split; [reflexivity |]. exists "", (": " +:+ m). reflexivity. Qed.

(** C5 (as amended).  [partial_credit] sets [tool_syntax_ok] to false if and
    only if some trace entry's result is a failure whose error text contains
    [argument error], which is what [exec_tool] records for a [TypeError],
    as when the arguments do not bind to the tool's parameters.  A [k8s_scale] call with replicas
    outside [1,100] (150, say) returns a failure and leaves the environment
    as it was, but its error [replicas out of range: N] is not of that kind,
    so on its own it leaves [tool_syntax_ok] true, as does the failure for
    the unknown deployment payments/prod. *)
Theorem tool_syntax_ok_iff :
  (forall trace : ExecutionTrace,
     tool_syntax_ok (Scoring.partial_credit trace) = false
     <-> exists c : TraceEntry, In c (tool_calls trace) /\ is_argument_error (result c)) /\
  (forall (rt : PyRuntime) (now : float) (env : EnvState) (c : ToolCall)
          (fn : Tools.pyfunction) (i : Z),
     Tools.TOOL_REGISTRY !! name c = Some fn ->
     Tools.binds (Tools.fn_params fn) (arguments c) = false ->
     exists r : ToolResult,
       Harness.exec_tool now env c = Return (env, r) /\
       tool_syntax_ok (Scoring.partial_credit (single_call i c r)) = false) /\
  (forall (env : EnvState) (service namespace : string) (n i : Z) (c : ToolCall),
     n < 1 \/ 100 < n ->
     let r := (Tools.k8s_scale env service n namespace).2 in
     (Tools.k8s_scale env service n namespace).1 = env /\
     ok r = false /\
     error r = Some ("replicas out of range: " +:+ str_of_int n) /\
     tool_syntax_ok (Scoring.partial_credit (single_call i c r)) = true) /\
  error (Tools.k8s_scale Examples.checkout_env "checkout-service" 150 "prod").2
    = Some "replicas out of range: 150" /\
  tool_syntax_ok (Scoring.partial_credit Examples.unknown_deployment_only) = true.
Proof.
  split; [exact tool_syntax_ok_spec |].
  split; [| split; [| split; reflexivity]].
  - intros rt now env c fn i Hfn Hb. eexists. split.
    + exact (exec_tool_unbound now env c fn Hfn Hb).
    + apply tool_syntax_ok_single, argument_error_prefix.
  - intros env service namespace n i c Hn. cbn zeta.
    rewrite k8s_scale_out_of_range by assumption. cbn [fst snd].
    repeat split.
    apply not_false_iff_true. rewrite tool_syntax_ok_single.
    apply range_error_not_argument_error.
Qed.

(** C5 (as stated) fails: the call [k8s_scale] with replicas=150 returns a
    failure, and the trace that records it has [tool_syntax_ok] true. *)
Lemma tool_syntax_ok_after_range_failure :
  map (fun c => (name (call c), ok (result c), error (result c)))
      (tool_calls Examples.failed_scale_only)
    = [("k8s_scale", false, Some "replicas out of range: 150")] /\
  tool_syntax_ok (Scoring.partial_credit Examples.failed_scale_only) = true.
Proof. split; reflexivity. Qed.

(** ** The tools *)

Lemma metrics_query_pure {rt : PyRuntime} (env : EnvState) (service metric : string)
    (minutes : Z) (namespace : string) :
  env_after env (Tools.metrics_query env service metric minutes namespace) = env.
Proof.
  unfold Tools.metrics_query.
  destruct (negb (str_mem metric Tools.METRICS)); [reflexivity |].
  destruct ((minutes <=? 0) || (120 <? minutes)); [reflexivity |].
  destruct (deployments env !! (service, namespace)) as [d|]; [| reflexivity].
  destruct (float_of_int (replicas d)) as [reps| |]; cbn; [| reflexivity ..].
  repeat match goal with |- context [if ?b then _ else _] => destruct b end; reflexivity.
Qed.



(** C7.  On an existing deployment, [k8s_scale] with replicas in [1,100]
    succeeds and sets the replica count of that deployment, leaving its
    other fields, every other deployment, the feature flags, the ticket, the
    incident log and the seed as they were; with replicas outside [1,100] or
    an unknown deployment it fails and returns the environment unchanged. *)
Theorem k8s_scale_frame (env : EnvState) (service namespace : string) (n : Z) :
  let env' := (Tools.k8s_scale env service n namespace).1 in
  let r := (Tools.k8s_scale env service n namespace).2 in
  (forall d : Deployment,
     deployments env !! (service, namespace) = Some d -> 1 <= n <= 100 ->
     ok r = true /\
     deployments env' !! (service, namespace) = Some (set_replicas d n) /\
     (forall k, k <> (service, namespace) -> deployments env' !! k = deployments env !! k) /\
     feature_flags env' = feature_flags env /\
     ticket env' = ticket env /\
     incident_log env' = incident_log env /\
     seed env' = seed env) /\
  (n < 1 \/ 100 < n \/ deployments env !! (service, namespace) = None ->
     ok r = false /\ env' = env).
Proof.
  cbn zeta. split.
  - intros d Hd Hn. unfold Tools.k8s_scale. rewrite Hd.
    destruct (Z.ltb_spec n 1), (Z.ltb_spec 100 n); try lia. cbn.
    repeat split.
    + apply lookup_insert_eq.
    + intros k Hk. now apply lookup_insert_ne.
  - intros [H | [H | H]].
    + rewrite k8s_scale_out_of_range by auto. split; reflexivity.
    + rewrite k8s_scale_out_of_range by auto. split; reflexivity.
    + destruct (Z.ltb_spec n 1); [rewrite k8s_scale_out_of_range by auto; split; reflexivity |].
      destruct (Z.ltb_spec 100 n); [rewrite k8s_scale_out_of_range by auto; split; reflexivity |].
      rewrite k8s_scale_unknown by (auto; lia). split; reflexivity.
Qed.

(** The scenario of the specification: scaling checkout-service to 6. *)
Example k8s_scale_checkout :
  let env' := (Tools.k8s_scale Examples.checkout_env "checkout-service" 6 "prod").1 in
  replicas <$> deployments Examples.checkout_env !! ("checkout-service", "prod") = Some 2 /\
  replicas <$> deployments env' !! ("checkout-service", "prod") = Some 6.
Proof. split; reflexivity. Qed.

(** ** [build_env] *)

Lemma build_env_deployments_loop (key : string * string) (items : list DeploymentItem)
    (env : EnvState) :
  deployments
    (fold_left
       (fun env item =>
          set_deployments env
            (<[(item_service item, item_namespace item) := deployment_of item]>
               (deployments env)))
       items env) !! key
  = match last (entries_for key items) with
    | Some item => Some (deployment_of item)
    | None => deployments env !! key
    end.
Proof.
  revert env. induction items as [|item items IH]; intros env; [reflexivity |].
  cbn [fold_left]. rewrite IH.
  assert (Hcons : entries_for key (item :: items)
                  = if String.eqb (item_service item) key.1
                       && String.eqb (item_namespace item) key.2
                    then item :: entries_for key items else entries_for key items)
    by reflexivity.
  rewrite Hcons. clear Hcons IH.
  generalize (entries_for key items) as l. intros l.
  destruct key as [s n]. cbn [fst snd].
  destruct (String.eqb_spec (item_service item) s) as [Hs|Hs];
    [destruct (String.eqb_spec (item_namespace item) n) as [Hn|Hn] |]; cbn [andb].
  - subst. destruct l as [|x l]; [cbn; apply lookup_insert_eq |].
    rewrite last_cons_cons.
    destruct (last (x :: l)) eqn:E; [reflexivity | apply last_None in E; discriminate].
  - destruct (last l); [reflexivity |]. cbn. apply lookup_insert_ne. congruence.
  - destruct (last l); [reflexivity |]. cbn. apply lookup_insert_ne. congruence.
Qed.

Lemma build_env_flags_loop (flags : list (string * pyval)) (env : EnvState) :
  let env' :=
    fold_left
      (fun env kv => set_feature_flags env (<[kv.1 := py_bool kv.2]> (feature_flags env)))
      flags env in
  deployments env' = deployments env /\ ticket env' = ticket env /\
  incident_log env' = incident_log env /\ seed env' = seed env.
Proof.
  revert env. induction flags as [|kv flags IH]; intros env; cbn zeta; [auto |].
  cbn [fold_left]. specialize (IH (set_feature_flags env (<[kv.1 := py_bool kv.2]> (feature_flags env)))).
  cbn zeta in IH. exact IH.
Qed.

Lemma build_env_deployments (initial_state : InitialState) (key : string * string) :
  deployments (Harness.build_env initial_state) !! key
  = deployment_of <$> last (entries_for key (default [] (init_deployments initial_state))).
Proof.
  unfold Harness.build_env.
  match goal with
  | |- context [fold_left ?f ?flags (fold_left ?g ?items ?e)] =>
      pose proof (build_env_flags_loop flags (fold_left g items e)) as [Hd _];
      pose proof (build_env_deployments_loop key items e) as Hl
  end.
  cbn zeta in Hd.
  destruct (init_ticket initial_state); cbn [deployments set_ticket];
    rewrite Hd; unfold deployment_of in *; rewrite Hl;
    destruct (last _); reflexivity.
Qed.

(** C10.  When the deployments list of the initial state has entries with
    the same (service, namespace) pair, [build_env] returns an environment
    whose deployment under that key is the one made of the last such entry
    in list order: its replica count, or 1 when the entry gives none. *)
Theorem build_env_last_wins (initial_state : InitialState) (items : list DeploymentItem)
    (s n : string) (item : DeploymentItem) :
  init_deployments initial_state = Some items ->
  last (entries_for (s, n) items) = Some item ->
  deployments (Harness.build_env initial_state) !! (s, n)
  = Some {| service := s; namespace := n; replicas := default 1 (item_replicas item);
            restarted_at := None |}.
Proof.
  intros Hitems Hlast. rewrite build_env_deployments, Hitems. cbn [default from_option id].
  rewrite Hlast. cbn. unfold deployment_of.
  assert (Hin : In item (entries_for (s, n) items)).
  { apply list_elem_of_In. eapply last_Some_elem_of. exact Hlast. }
  apply filter_In in Hin as [_ Hkey]. cbn in Hkey.
  apply andb_true_iff in Hkey as [Hs Hn].
  apply String.eqb_eq in Hs, Hn. now subst.
Qed.

(** C10, on a list with two entries for checkout-service/prod. *)
Lemma build_env_last_wins_witness :
  length (entries_for ("checkout-service", "prod")
            (default [] (init_deployments Examples.duplicate_initial))) = 2%nat /\
  deployments (Harness.build_env Examples.duplicate_initial) !! ("checkout-service", "prod")
  = Some {| service := "checkout-service"; namespace := "prod"; replicas := 7;
            restarted_at := None |}.
Proof.
  split; [reflexivity |].
  apply (build_env_last_wins Examples.duplicate_initial
           (default [] (init_deployments Examples.duplicate_initial))
           "checkout-service" "prod"
           {| item_service := "checkout-service"; item_namespace := "prod";
              item_replicas := Some 7 |});
    reflexivity.
Defined.

(** ** [exec_tool] *)

Lemma registry_lookup {rt : PyRuntime} (n : string) (fn : Tools.pyfunction) :
  Tools.TOOL_REGISTRY !! n = Some fn ->
  (n = "metrics_query" /\ fn = Tools.fn_metrics_query) \/
  (n = "k8s_scale" /\ fn = Tools.fn_k8s_scale) \/
  (n = "k8s_restart" /\ fn = Tools.fn_k8s_restart) \/
  (n = "feature_flag_set" /\ fn = Tools.fn_feature_flag_set) \/
  (n = "incident_log" /\ fn = Tools.fn_incident_log) \/
  (n = "ticket_update" /\ fn = Tools.fn_ticket_update).
Proof.
  unfold Tools.TOOL_REGISTRY. cbn [list_to_map foldr uncurry].
  rewrite !lookup_insert_Some, lookup_empty. cbn [fst snd]. intuition (subst; auto; discriminate).
Qed.










(** A run-time error that is no [TypeError]: a metrics query on a deployment
    whose replica count no double can hold. *)
Example exec_tool_overflow :
  returned (Harness.exec_tool (rt := Examples.demo_runtime) 0
              (Harness.build_env Examples.huge_initial) Examples.call_metrics)
  = Return (failure "runtime error: int too large to convert to float").
Proof. reflexivity. Qed.

(** ** The ticket status *)

(** Takes the next [x ← m; k] of a tool's code apart by the outcome of [m]. *)
Ltac read_bound :=
  match goal with
  | |- context [mbind _ ?m] =>
      destruct m as [?|?|]; cbn [mbind outcome_bind bind]; try discriminate
  end.

(** A call through [exec_tool] leaves the ticket as it was unless it is an
    accepted [ticket_update], whose status is one of the four. *)
Lemma exec_tool_ticket {rt : PyRuntime} (now : float) (env env' : EnvState) (c : ToolCall)
    (r : ToolResult) :
  Harness.exec_tool now env c = Return (env', r) ->
  ticket env' = ticket env \/
  (name c = "ticket_update" /\ ok r = true /\ valid_status (status (ticket env'))).
Proof.
  unfold Harness.exec_tool.
  destruct (Tools.TOOL_REGISTRY !! name c) as [fn|] eqn:Hfn;
    [| intros [= <- _]; now left].
  destruct (Tools.call_function fn now env (arguments c)) as [[e1 r1]|[m|m]|] eqn:Hcall;
    try (intros [= <- _]; now left); try discriminate.
  intros [= -> ->]. revert Hcall. unfold Tools.call_function.
  destruct (Tools.binds _ _); [| discriminate].
  apply registry_lookup in Hfn as [[Hn ->] | [[Hn ->] | [[Hn ->] | [[Hn ->] | [[Hn ->] | [Hn ->]]]]]];
    cbn [Tools.fn_code Tools.fn_metrics_query Tools.fn_k8s_scale Tools.fn_k8s_restart
         Tools.fn_feature_flag_set Tools.fn_incident_log Tools.fn_ticket_update].
  - read_bound. destruct (negb (str_mem _ Tools.METRICS)); [intros [= <- _]; now left |].
    repeat read_bound. intros Hq.
    match type of Hq with
    | Tools.metrics_query _ ?a ?b ?x ?y = _ => pose proof (metrics_query_pure env a b x y) as He
    end.
    rewrite Hq in He. cbn in He. left. now subst.
  - repeat read_bound. unfold Tools.k8s_scale. repeat case_match; intros [= <- _]; now left.
  - repeat read_bound. unfold Tools.k8s_restart. repeat case_match; intros [= <- _]; now left.
  - repeat read_bound. unfold Tools.feature_flag_set. intros [= <- _]; now left.
  - repeat read_bound. unfold Tools.incident_log. repeat case_match; intros [= <- _]; now left.
  - repeat read_bound. unfold Tools.ticket_update.
    match goal with |- context [str_mem ?x ?l] => destruct (str_mem x l) eqn:Hmem end;
      cbn [negb]; intros [= <- <-]; [right | now left].
    repeat split; [assumption |]. unfold valid_status. cbn [ticket set_ticket status].
    now apply str_mem_true_iff.
Qed.

(** The part of C8 that the code keeps: only [ticket_update] changes the
    ticket, and a status that is one of the four stays one of the four. *)
Lemma reachable_status_valid {rt : PyRuntime} (initial_state : InitialState) (env : EnvState) :
  valid_status (status (ticket (Harness.build_env initial_state))) ->
  reachable_from initial_state env -> valid_status (status (ticket env)).
Proof.
  intros Hinit Hreach. induction Hreach as [|env env' now c r _ IH Hcall]; [assumption |].
  apply exec_tool_ticket in Hcall as [-> | (_ & _ & Hv)]; assumption.
Qed.

(** C8 fails on the code: [build_env] copies a ticket status from the
    initial state without the check [ticket_update] makes, so the
    environment built from [{"ticket": {"status": "closed"}}] is reachable
    and its ticket status is none of open, investigating, mitigated,
    resolved. *)
Theorem build_env_unchecked_status {rt : PyRuntime} :
  reachable_from Examples.closed_initial (Harness.build_env Examples.closed_initial) /\
  status (ticket (Harness.build_env Examples.closed_initial)) = "closed" /\
  ~ valid_status (status (ticket (Harness.build_env Examples.closed_initial))).
Proof.
  split; [constructor |]. split; [reflexivity |].
  cbn. intros [H | [H | [H | [H | []]]]]; discriminate H.
Qed.

(** ** The scenarios of the specification *)



(** C4, on the full run: the scale call at index 0 precedes the metrics
    query at index 1. *)
Lemma verification_performed_iff_witness :
  verification_performed (Scoring.partial_credit Examples.full_trace) = true.
Proof.
  apply (proj1 (verification_performed_iff Examples.full_trace)).
  eexists 0%nat, 1%nat, _, _.
  split; [reflexivity |]. split; [reflexivity |]. split; [lia |].
  split; [left; reflexivity | reflexivity].
Defined.

(** C5, on a scale call that lacks two of its arguments. *)
Lemma tool_syntax_ok_iff_witness :
  exists r : ToolResult,
    Harness.exec_tool (rt := Examples.demo_runtime) 0 Examples.checkout_env
      Examples.call_scale_unbound = Return (Examples.checkout_env, r) /\
    tool_syntax_ok (Scoring.partial_credit (single_call 1 Examples.call_scale_unbound r))
      = false.
Proof.
  destruct tool_syntax_ok_iff as (_ & Hunbound & _).
  apply (Hunbound Examples.demo_runtime 0%float Examples.checkout_env
           Examples.call_scale_unbound Tools.fn_k8s_scale 1);
    reflexivity.
Defined.

(** C7, on the checkout environment: scaling to 6 succeeds and sets the
    replica count, scaling to 150 fails and changes nothing. *)
Lemma k8s_scale_frame_witness :
  (ok (Tools.k8s_scale Examples.checkout_env "checkout-service" 6 "prod").2 = true /\
   replicas <$> deployments (Tools.k8s_scale Examples.checkout_env "checkout-service" 6 "prod").1
                  !! ("checkout-service", "prod") = Some 6) /\
  (ok (Tools.k8s_scale Examples.checkout_env "checkout-service" 150 "prod").2 = false /\
   (Tools.k8s_scale Examples.checkout_env "checkout-service" 150 "prod").1
   = Examples.checkout_env).
Proof.
  split.
  - destruct (k8s_scale_frame Examples.checkout_env "checkout-service" "prod" 6) as [H _].
    destruct (H {| service := "checkout-service"; namespace := "prod"; replicas := 2;
                   restarted_at := None |}) as (Hok & Hkey & _);
      [reflexivity | lia |].
    split; [exact Hok |]. cbv zeta in Hkey. rewrite Hkey. reflexivity.
  - destruct (k8s_scale_frame Examples.checkout_env "checkout-service" "prod" 150) as [_ H].
    apply H. right. left. lia.
Defined.


(** C3, on the full run: technical success and all four signals. *)
Lemma compute_weighted_score_total_witness :
  total_score
    (Scoring.compute_weighted_score
       (Scoring.check_acceptance Examples.full_env Examples.checkout_criteria)
       (Scoring.partial_credit Examples.full_trace)
       (Scoring.check_technical_success Examples.full_env Examples.checkout_criteria))
  = 100%float.
Proof.
  apply (compute_weighted_score_total
           (Scoring.check_acceptance Examples.full_env Examples.checkout_criteria)
           (Scoring.check_technical_success Examples.full_env Examples.checkout_criteria)
           (Scoring.partial_credit Examples.full_trace));
    reflexivity.
Defined.

(** The first end-to-end scenario: 6 replicas, one log entry containing the
    required text, ticket mitigated, all four signals true, score 100.0. *)
Example end_to_end_full :
  let acc := Scoring.check_acceptance Examples.full_env Examples.checkout_criteria in
  let tech := Scoring.check_technical_success Examples.full_env Examples.checkout_criteria in
  let partial := Scoring.partial_credit Examples.full_trace in
  replicas <$> deployments Examples.full_env !! ("checkout-service", "prod") = Some 6 /\
  map message (incident_log Examples.full_env)
    = ["scaled checkout-service to mitigate errors"] /\
  status (ticket Examples.full_env) = "mitigated" /\
  valid acc = true /\
  partial = {| tool_syntax_ok := true; verification_performed := true;
               incident_logged := true; ticket_updated := true |} /\
  total_score (Scoring.compute_weighted_score acc partial tech) = 100%float.
Proof. repeat split. Qed.

(** The second end-to-end scenario: only the scale call; the log criterion
    is unmet, so neither check is valid, and the score is the 5 points of
    [tool_syntax_ok]. *)
Example end_to_end_scale_only :
  let acc := Scoring.check_acceptance Examples.scale_only_env Examples.mitigation_criteria in
  let tech :=
    Scoring.check_technical_success Examples.scale_only_env Examples.mitigation_criteria in
  let partial := Scoring.partial_credit Examples.scale_only_trace in
  valid tech = false /\ valid acc = false /\
  reasons acc = ["incident log missing required message"] /\
  incident_logged partial = false /\
  total_score (Scoring.compute_weighted_score acc partial tech) = 5%float.
Proof. repeat split. Qed.

(** * Further properties of the code *)

(** ** The tools one by one *)

(** X1.  [k8s_restart] on an existing deployment succeeds and records the
    time of the call as its restart time; the replica count of that
    deployment, every other deployment, the flags, the ticket, the incident
    log and the seed stay as they were.  On an unknown deployment it fails
    and returns the environment unchanged. *)
Theorem k8s_restart_frame (now : float) (env : EnvState) (service namespace : string) :
  let env' := (Tools.k8s_restart now env service namespace).1 in
  let r := (Tools.k8s_restart now env service namespace).2 in
  (forall d : Deployment,
     deployments env !! (service, namespace) = Some d ->
     ok r = true /\
     deployments env' !! (service, namespace) = Some (set_restarted_at d now) /\
     (forall k, k <> (service, namespace) -> deployments env' !! k = deployments env !! k) /\
     feature_flags env' = feature_flags env /\
     ticket env' = ticket env /\
     incident_log env' = incident_log env /\
     seed env' = seed env) /\
  (deployments env !! (service, namespace) = None ->
   r = failure ("unknown deployment: " +:+ service +:+ " in " +:+ namespace) /\ env' = env).
Proof.
  cbn zeta. unfold Tools.k8s_restart. split.
  - intros d Hd. rewrite Hd. cbn. repeat split.
    + apply lookup_insert_eq.
    + intros k Hk. now apply lookup_insert_ne.
  - intros Hd. rewrite Hd. split; reflexivity.
Qed.

(** X1, on the checkout deployment: restarted at time 7, still 2 replicas. *)
Lemma k8s_restart_frame_witness :
  deployments (Tools.k8s_restart 7 Examples.checkout_env "checkout-service" "prod").1
    !! ("checkout-service", "prod")
  = Some {| service := "checkout-service"; namespace := "prod"; replicas := 2;
            restarted_at := Some 7%float |}.
Proof.
  destruct (k8s_restart_frame 7 Examples.checkout_env "checkout-service" "prod") as [H _].
  destruct (H {| service := "checkout-service"; namespace := "prod"; replicas := 2;
                 restarted_at := None |}) as (_ & Hkey & _); [reflexivity |].
  exact Hkey.
Defined.

(** X2.  [feature_flag_set] always succeeds and upserts: afterwards the flag
    reads as the value given, every other flag reads as before, and nothing
    else changes; setting the same flag again overwrites, so only the last
    value counts. *)
Theorem feature_flag_set_upsert (env : EnvState) (flag : string) (enabled : bool) :
  let env' := (Tools.feature_flag_set env flag enabled).1 in
  ok (Tools.feature_flag_set env flag enabled).2 = true /\
  feature_flags env' !! flag = Some enabled /\
  (forall k, k <> flag -> feature_flags env' !! k = feature_flags env !! k) /\
  deployments env' = deployments env /\
  ticket env' = ticket env /\
  incident_log env' = incident_log env /\
  seed env' = seed env /\
  (forall again : bool,
     (Tools.feature_flag_set env' flag again).1 = (Tools.feature_flag_set env flag again).1).
Proof.
  cbn zeta. unfold Tools.feature_flag_set. cbn. repeat split.
  - apply lookup_insert_eq.
  - intros k Hk. now apply lookup_insert_ne.
  - intros again. unfold set_feature_flags. cbn. f_equal. apply insert_insert_eq.
Qed.

(** X3.  [incident_log] with a severity of info, warning or critical
    succeeds and appends exactly one entry, with the given message and
    severity and the time of the call, after the entries already there;
    nothing else changes.  With any other severity it fails and returns the
    environment unchanged. *)
Theorem incident_log_appends (now : float) (env : EnvState) (message severity : string) :
  let env' := (Tools.incident_log now env message severity).1 in
  let r := (Tools.incident_log now env message severity).2 in
  (In severity ["info"; "warning"; "critical"] ->
   ok r = true /\
   incident_log env'
   = incident_log env ++ [{| ts := now; severity := severity; message := message |}] /\
   deployments env' = deployments env /\
   feature_flags env' = feature_flags env /\
   ticket env' = ticket env /\
   seed env' = seed env) /\
  (~ In severity ["info"; "warning"; "critical"] ->
   r = failure ("invalid severity: " +:+ severity) /\ env' = env).
Proof.
  cbn zeta. unfold Tools.incident_log.
  destruct (str_mem severity ["info"; "warning"; "critical"]) eqn:Hmem; cbn [negb].
  - apply str_mem_true_iff in Hmem. split; [intros _; repeat split | contradiction].
  - split; [| intros _; split; reflexivity].
    intros Hin. apply str_mem_true_iff in Hin. congruence.
Qed.

(** X3, on the log call of the specification. *)
Lemma incident_log_appends_witness :
  map message
    (incident_log (Tools.incident_log 3 Examples.full_env "rolled back" "critical").1)
  = ["scaled checkout-service to mitigate errors"; "rolled back"].
Proof.
  destruct (incident_log_appends 3 Examples.full_env "rolled back" "critical") as [H _].
  destruct H as (_ & Hlog & _); [cbn; tauto |].
  cbv zeta in Hlog. rewrite Hlog. reflexivity.
Defined.

(** X4.  [ticket_update] with a status of open, investigating, mitigated or
    resolved succeeds and overwrites both the status and the note of the
    ticket, leaving the rest of the environment as it was.  With any other
    status it fails and returns the environment, ticket included,
    unchanged. *)
Theorem ticket_update_overwrites (env : EnvState) (status note : string) :
  let env' := (Tools.ticket_update env status note).1 in
  let r := (Tools.ticket_update env status note).2 in
  (valid_status status ->
   ok r = true /\
   ticket env' = {| status := status; note := note |} /\
   deployments env' = deployments env /\
   feature_flags env' = feature_flags env /\
   incident_log env' = incident_log env /\
   seed env' = seed env) /\
  (~ valid_status status ->
   r = failure ("invalid status: " +:+ status) /\ env' = env).
Proof.
  cbn zeta. unfold Tools.ticket_update, valid_status.
  destruct (str_mem status ["open"; "investigating"; "mitigated"; "resolved"]) eqn:Hmem;
    cbn [negb].
  - apply str_mem_true_iff in Hmem. split; [intros _; repeat split | contradiction].
  - split; [| intros _; split; reflexivity].
    intros Hin. apply str_mem_true_iff in Hin. congruence.
Qed.

(** X4, on a status outside the four: the ticket keeps its status. *)
Lemma ticket_update_overwrites_witness :
  (Tools.ticket_update Examples.full_env "closed" "done").1 = Examples.full_env.
Proof.
  destruct (ticket_update_overwrites Examples.full_env "closed" "done") as [_ H].
  apply H. cbn. intros [H1 | [H1 | [H1 | [H1 | []]]]]; discriminate H1.
Defined.

(** ** [metrics_query] *)

Lemma float_of_int_small (z : Z) :
  1 <= z <= 100 -> float_of_int z = Return (nearest_float z).
Proof.
  intros Hz.
  assert (Hall : forallb (fun n => match float_of_int (Z.of_nat n) with
                                   | Return _ => true
                                   | _ => false
                                   end) (seq 1 100) = true) by (vm_compute; reflexivity).
  rewrite forallb_forall in Hall.
  specialize (Hall (Z.to_nat z)). rewrite Z2Nat.id in Hall by lia.
  unfold float_of_int in *. destruct (is_infinity (nearest_float z)); [| reflexivity].
  discriminate Hall. apply in_seq. lia.
Qed.

Lemma minutes_out_of_range (minutes : Z) :
  (minutes <=? 0) || (120 <? minutes) = true <-> minutes < 1 \/ 120 < minutes.
Proof. rewrite orb_true_iff, Z.leb_le, Z.ltb_lt. lia. Qed.

Lemma minutes_in_range (minutes : Z) :
  (minutes <=? 0) || (120 <? minutes) = false <-> 1 <= minutes <= 120.
Proof. rewrite orb_false_iff, Z.leb_gt, Z.ltb_ge. lia. Qed.

(** X5.  [metrics_query] validates in a fixed order and never mutates: an
    unknown metric name is reported first, then minutes outside [1,120],
    then an unknown deployment, each as a failure that returns the
    environment unchanged; with a known metric, minutes in [1,120] and an
    existing deployment of 1 to 100 replicas the call succeeds and echoes
    the metric and the minutes in its data. *)
Theorem metrics_query_validation {rt : PyRuntime} (env : EnvState) (service metric : string)
    (minutes : Z) (namespace : string) :
  let o := Tools.metrics_query env service metric minutes namespace in
  (~ In metric Tools.METRICS ->
   o = Return (env, failure ("invalid metric: " +:+ metric))) /\
  (In metric Tools.METRICS -> minutes < 1 \/ 120 < minutes ->
   o = Return (env, failure ("minutes out of range: " +:+ str_of_int minutes))) /\
  (In metric Tools.METRICS -> 1 <= minutes <= 120 ->
   deployments env !! (service, namespace) = None ->
   o = Return (env, failure ("unknown deployment: " +:+ service +:+ " in " +:+ namespace))) /\
  (In metric Tools.METRICS -> 1 <= minutes <= 120 ->
   forall d : Deployment,
     deployments env !! (service, namespace) = Some d -> 1 <= replicas d <= 100 ->
     exists (value : float) (status recommendation : string),
       o = Return (env, success [("metric", PStr metric); ("minutes", PInt minutes);
                                 ("value", PFloat value); ("status", PStr status);
                                 ("recommendation", PStr recommendation)])).
Proof.
  cbn zeta. unfold Tools.metrics_query.
  destruct (str_mem metric Tools.METRICS) eqn:Hm; cbn [negb].
  - apply str_mem_true_iff in Hm. split; [contradiction |].
    split; [| split].
    + intros _ Hmin. rewrite (proj2 (minutes_out_of_range minutes) Hmin). reflexivity.
    + intros _ Hmin Hd. rewrite (proj2 (minutes_in_range minutes) Hmin), Hd. reflexivity.
    + intros _ Hmin d Hd Hr.
      rewrite (proj2 (minutes_in_range minutes) Hmin), Hd, (float_of_int_small _ Hr).
      cbn [mbind outcome_bind bind].
      repeat match goal with |- context [if ?b then _ else _] => destruct b end;
        eexists _, _, _; reflexivity.
  - split; [reflexivity |].
    assert (~ In metric Tools.METRICS) by (rewrite <- str_mem_true_iff; congruence).
    repeat split; intros; contradiction.
Qed.

(** X5, on the metrics query of the specification. *)
Lemma metrics_query_validation_witness :
  exists (value : float) (status recommendation : string),
    Tools.metrics_query (rt := Examples.demo_runtime) Examples.checkout_env
      "checkout-service" "error_rate" 15 "prod"
    = Return (Examples.checkout_env,
              success [("metric", PStr "error_rate"); ("minutes", PInt 15);
                       ("value", PFloat value); ("status", PStr status);
                       ("recommendation", PStr recommendation)]).
Proof.
  destruct (metrics_query_validation (rt := Examples.demo_runtime) Examples.checkout_env
              "checkout-service" "error_rate" 15 "prod") as (_ & _ & _ & H).
  apply (H ltac:(cbn; tauto) ltac:(lia)
           {| service := "checkout-service"; namespace := "prod"; replicas := 2;
              restarted_at := None |});
    [reflexivity | cbn; lia].
Defined.

Lemma py_max_zero_nonneg (x : float) : PrimFloat.ltb (py_max 0 x) 0 = false.
Proof.
  unfold py_max. destruct (PrimFloat.ltb 0 x) eqn:Hx; [| reflexivity].
  rewrite ltb_spec in *. change (Prim2SF 0) with (S754_zero false) in *.
  destruct (Prim2SF x) as [s|s| |s m e]; cbn in *; try discriminate; try reflexivity;
    destruct s; cbn in *; try discriminate; reflexivity.
Qed.

(** X6.  Whatever the random draw, a successful [metrics_query] reports a
    value that is not below zero, and a status tier that fits the metric:
    always [info] for qps, and one of good, acceptable and concerning for
    error_rate and latency_p95. *)
Theorem metrics_query_value_and_tier {rt : PyRuntime} (env env' : EnvState)
    (service metric : string) (minutes : Z) (namespace : string) (r : ToolResult) :
  Tools.metrics_query env service metric minutes namespace = Return (env', r) ->
  ok r = true ->
  exists (value : float) (status recommendation : string),
    data r = Some [("metric", PStr metric); ("minutes", PInt minutes);
                   ("value", PFloat value); ("status", PStr status);
                   ("recommendation", PStr recommendation)] /\
    PrimFloat.ltb value 0 = false /\
    (metric = "qps" -> status = "info") /\
    (metric <> "qps" -> In status ["good"; "acceptable"; "concerning"]).
Proof.
  unfold Tools.metrics_query.
  destruct (str_mem metric Tools.METRICS) eqn:Hm; cbn [negb];
    [| intros [= <- <-]; discriminate].
  destruct ((minutes <=? 0) || (120 <? minutes)); [intros [= <- <-]; discriminate |].
  destruct (deployments env !! (service, namespace)) as [d|]; [| intros [= <- <-]; discriminate].
  destruct (float_of_int (replicas d)) as [reps| |]; cbn [mbind outcome_bind bind];
    try discriminate.
  apply str_mem_true_iff in Hm. cbn in Hm.
  destruct Hm as [<- | [<- | [<- | []]]]; cbn [String.eqb Ascii.eqb Bool.eqb].
  - repeat match goal with |- context [if ?b then _ else _] => destruct b end;
      intros [= <- <-] _; eexists _, _, _;
      (split; [reflexivity |]); (split; [apply py_max_zero_nonneg |]);
      (split; [discriminate | intros _; cbn; tauto]).
  - repeat match goal with |- context [if ?b then _ else _] => destruct b end;
      intros [= <- <-] _; eexists _, _, _;
      (split; [reflexivity |]); (split; [apply py_max_zero_nonneg |]);
      (split; [discriminate | intros _; cbn; tauto]).
  - intros [= <- <-] _. eexists _, _, _.
    split; [reflexivity |]. split; [apply py_max_zero_nonneg |].
    split; [reflexivity | intros H; now contradiction H].
Qed.

(** X6, on the metrics query of the specification. *)
Lemma metrics_query_value_and_tier_witness :
  exists (r : ToolResult) (value : float) (status recommendation : string),
    Tools.metrics_query (rt := Examples.demo_runtime) Examples.checkout_env
      "checkout-service" "latency_p95" 15 "prod" = Return (Examples.checkout_env, r) /\
    data r = Some [("metric", PStr "latency_p95"); ("minutes", PInt 15);
                   ("value", PFloat value); ("status", PStr status);
                   ("recommendation", PStr recommendation)] /\
    PrimFloat.ltb value 0 = false.
Proof.
  eexists.
  destruct (metrics_query_value_and_tier (rt := Examples.demo_runtime)
              Examples.checkout_env Examples.checkout_env
              "checkout-service" "latency_p95" 15 "prod" _ eq_refl eq_refl)
    as (value & status & recommendation & Hdata & Hval & _).
  exists value, status, recommendation. split; [reflexivity |]. split; assumption.
Defined.

(** ** What a call through [exec_tool] can do *)

(** A call that returns either failed without touching the environment, or
    ran one of the six tools under its registered name. *)
Lemma exec_tool_inv {rt : PyRuntime} (now : float) (env env' : EnvState) (c : ToolCall)
    (r : ToolResult) :
  Harness.exec_tool now env c = Return (env', r) ->
  (env' = env /\ ok r = false) \/
  (name c = "metrics_query" /\ exists service metric minutes namespace,
     Tools.metrics_query env service metric minutes namespace = Return (env', r)) \/
  (name c = "k8s_scale" /\ exists service replicas namespace,
     arguments c !! "service" = Some (PStr service) /\
     arguments c !! "replicas" = Some (PInt replicas) /\
     arguments c !! "namespace" = Some (PStr namespace) /\
     Tools.k8s_scale env service replicas namespace = (env', r)) \/
  (name c = "k8s_restart" /\ exists service namespace,
     Tools.k8s_restart now env service namespace = (env', r)) \/
  (name c = "feature_flag_set" /\ exists flag enabled,
     Tools.feature_flag_set env flag enabled = (env', r)) \/
  (name c = "incident_log" /\ exists message severity,
     arguments c !! "message" = Some (PStr message) /\
     Tools.incident_log now env message severity = (env', r)) \/
  (name c = "ticket_update" /\ exists status note,
     arguments c !! "status" = Some (PStr status) /\
     arguments c !! "note" = Some (PStr note) /\
     Tools.ticket_update env status note = (env', r)).
Proof.
  unfold Harness.exec_tool.
  destruct (Tools.TOOL_REGISTRY !! name c) as [fn|] eqn:Hfn;
    [| intros [= <- <-]; left; split; reflexivity].
  destruct (Tools.call_function fn now env (arguments c)) as [[e1 r1]|[m|m]|] eqn:Hcall;
    try (intros [= <- <-]; left; split; reflexivity); try discriminate.
  intros [= -> ->]. revert Hcall. unfold Tools.call_function.
  destruct (Tools.binds _ _); [| discriminate].
  apply registry_lookup in Hfn as [[Hn ->] | [[Hn ->] | [[Hn ->] | [[Hn ->] | [[Hn ->] | [Hn ->]]]]]];
    cbn [Tools.fn_code Tools.fn_metrics_query Tools.fn_k8s_scale Tools.fn_k8s_restart
         Tools.fn_feature_flag_set Tools.fn_incident_log Tools.fn_ticket_update].
  - read_bound. destruct (negb (str_mem _ Tools.METRICS));
      [intros [= <- <-]; left; split; reflexivity |].
    repeat read_bound. intros Hq. right. left. split; [assumption |]. eauto.
  - unfold Tools.arg_int_compared, Tools.arg_str.
    destruct (arguments c !! "replicas") as [[| | n | |]|]; cbn [mbind outcome_bind bind];
      try discriminate.
    destruct (arguments c !! "service") as [[| | | |s]|]; cbn [mbind outcome_bind bind];
      try discriminate.
    destruct (arguments c !! "namespace") as [[| | | |ns]|]; cbn [mbind outcome_bind bind];
      try discriminate.
    intros [= Hq]. right. right. left. split; [assumption |]. exists s, n, ns. auto.
  - repeat read_bound. intros [= Hq]. do 3 right. left. split; [assumption |]. eauto.
  - repeat read_bound. intros [= <- <-]. do 4 right. left. split; [assumption |].
    eexists _, _. reflexivity.
  - unfold Tools.arg_str.
    destruct (arguments c !! "message") as [[| | | |m]|]; cbn [mbind outcome_bind bind];
      try discriminate.
    destruct (arguments c !! "severity") as [[| | | |sev]|]; cbn [mbind outcome_bind bind];
      try discriminate.
    intros [= Hq]. do 5 right. left. split; [assumption |]. exists m, sev. auto.
  - unfold Tools.arg_str.
    destruct (arguments c !! "status") as [[| | | |st]|]; cbn [mbind outcome_bind bind];
      try discriminate.
    destruct (arguments c !! "note") as [[| | | |nt]|]; cbn [mbind outcome_bind bind];
      try discriminate.
    intros [= Hq]. do 6 right. split; [assumption |]. exists st, nt. auto.
Qed.

(** The effect of each tool on the parts of the environment. *)
Lemma k8s_scale_effect (env env' : EnvState) (service namespace : string) (n : Z)
    (r : ToolResult) :
  Tools.k8s_scale env service n namespace = (env', r) ->
  (ok r = false /\ env' = env) \/
  (ok r = true /\ 1 <= n <= 100 /\
   exists d, deployments env !! (service, namespace) = Some d /\
     env' = set_deployments env
              (<[(service, namespace) := set_replicas d n]> (deployments env))).
Proof.
  unfold Tools.k8s_scale.
  destruct (Z.ltb_spec n 1), (Z.ltb_spec 100 n); cbn [orb];
    try (intros [= <- <-]; left; split; reflexivity).
  destruct (deployments env !! (service, namespace)) as [d|] eqn:Hd;
    intros [= <- <-]; [right | left; split; reflexivity].
  split; [reflexivity |]. split; [lia |]. eauto.
Qed.

Lemma k8s_restart_effect (now : float) (env env' : EnvState) (service namespace : string)
    (r : ToolResult) :
  Tools.k8s_restart now env service namespace = (env', r) ->
  (ok r = false /\ env' = env) \/
  (ok r = true /\
   exists d, deployments env !! (service, namespace) = Some d /\
     env' = set_deployments env
              (<[(service, namespace) := set_restarted_at d now]> (deployments env))).
Proof.
  unfold Tools.k8s_restart.
  destruct (deployments env !! (service, namespace)) as [d|] eqn:Hd;
    intros [= <- <-]; [right | left; split; reflexivity].
  split; [reflexivity |]. eauto.
Qed.

Lemma incident_log_effect (now : float) (env env' : EnvState) (message severity : string)
    (r : ToolResult) :
  Tools.incident_log now env message severity = (env', r) ->
  (ok r = false /\ env' = env) \/
  (ok r = true /\
   env' = set_incident_log env
            (incident_log env ++ [{| ts := now; severity := severity; message := message |}])).
Proof.
  unfold Tools.incident_log. destruct (negb _); intros [= <- <-];
    [left | right]; split; reflexivity.
Qed.

Lemma ticket_update_effect (env env' : EnvState) (status note : string) (r : ToolResult) :
  Tools.ticket_update env status note = (env', r) ->
  (ok r = false /\ env' = env) \/
  (ok r = true /\ valid_status status /\
   env' = set_ticket env {| status := status; note := note |}).
Proof.
  unfold Tools.ticket_update.
  destruct (str_mem status _) eqn:Hm; cbn [negb]; intros [= <- <-];
    [right | left; split; reflexivity].
  split; [reflexivity |]. split; [now apply str_mem_true_iff | reflexivity].
Qed.

Lemma metrics_query_effect {rt : PyRuntime} (env env' : EnvState) (service metric : string)
    (minutes : Z) (namespace : string) (r : ToolResult) :
  Tools.metrics_query env service metric minutes namespace = Return (env', r) -> env' = env.
Proof.
  intros Hq. pose proof (metrics_query_pure env service metric minutes namespace) as He.
  rewrite Hq in He. cbn in He. exact He.
Qed.

(** X7.  A call through [exec_tool] whose result is a failure, for whatever
    reason (unknown tool, arguments that do not bind, an exception, or a
    tool that rejects its arguments), returns the environment unchanged. *)
Theorem exec_tool_failure_unchanged {rt : PyRuntime} (now : float) (env env' : EnvState)
    (c : ToolCall) (r : ToolResult) :
  Harness.exec_tool now env c = Return (env', r) -> ok r = false -> env' = env.
Proof.
  intros Hcall Hok.
  apply exec_tool_inv in Hcall
    as [[He _] | [[_ (s & m & mi & ns & Hq)] | [[_ (s & n & ns & _ & _ & _ & Hq)]
       | [[_ (s & ns & Hq)] | [[_ (f & b & Hq)] | [[_ (m & sev & _ & Hq)]
       | [_ (st & nt & _ & _ & Hq)]]]]]]].
  - exact He.
  - now apply metrics_query_effect in Hq.
  - apply k8s_scale_effect in Hq as [[_ He] | [Ht _]]; [exact He | congruence].
  - apply k8s_restart_effect in Hq as [[_ He] | [Ht _]]; [exact He | congruence].
  - unfold Tools.feature_flag_set in Hq. injection Hq as <- <-. discriminate Hok.
  - apply incident_log_effect in Hq as [[_ He] | [Ht _]]; [exact He | congruence].
  - apply ticket_update_effect in Hq as [[_ He] | [Ht _]]; [exact He | congruence].
Qed.

(** X7, on the scale call with 150 replicas. *)
Lemma exec_tool_failure_unchanged_witness :
  env_after Examples.checkout_env
    (Harness.exec_tool (rt := Examples.demo_runtime) 0 Examples.checkout_env
       (Examples.call_scale 150))
  = Examples.checkout_env.
Proof.
  destruct (Harness.exec_tool (rt := Examples.demo_runtime) 0 Examples.checkout_env
              (Examples.call_scale 150)) as [[env' r]| |] eqn:Hcall; [| reflexivity ..].
  cbn. apply (exec_tool_failure_unchanged (rt := Examples.demo_runtime) 0
                Examples.checkout_env env' (Examples.call_scale 150) r Hcall).
  vm_compute in Hcall. injection Hcall as _ <-. reflexivity.
Defined.

(** ** Runs of [run_sequence] *)

Lemma run_steps_records {rt : PyRuntime} (clock : nat -> float) (max_steps : nat)
    (sequence : list ToolCall) :
  forall (i : nat) (env : EnvState) (trace : list TraceEntry) (env' : EnvState)
         (trace' : list TraceEntry),
    Harness.run_steps clock max_steps i env sequence trace = Return (env', trace') ->
    exists new : list TraceEntry,
      trace' = trace ++ new /\
      length new = Nat.min (length sequence) (max_steps - i) /\
      (forall (k : nat) (e : TraceEntry),
         new !! k = Some e -> step e = Z.of_nat (i + k) + 1 /\ sequence !! k = Some (call e)) /\
      records_run clock i env new env'.
Proof.
  induction sequence as [|c rest IH]; intros i env trace env' trace'; cbn [Harness.run_steps].
  - intros [= <- <-]. exists []. rewrite app_nil_r.
    split; [reflexivity |]. split; [reflexivity |]. split; [| reflexivity].
    intros k e H. now rewrite lookup_nil in H.
  - destruct (Nat.leb_spec max_steps i) as [Hle|Hlt].
    + intros [= <- <-]. exists []. rewrite app_nil_r.
      replace (max_steps - i)%nat with 0%nat by lia. rewrite Nat.min_0_r.
      split; [reflexivity |]. split; [reflexivity |]. split; [| reflexivity].
      intros k e H. now rewrite lookup_nil in H.
    + destruct (Harness.exec_tool (clock i) env c) as [[env1 r]| |] eqn:Hcall;
        cbn [mbind outcome_bind bind fst snd]; try discriminate.
      intros Hrun. apply IH in Hrun as (new & -> & Hlen & Hidx & Hrec).
      exists ({| step := Z.of_nat i + 1; call := c; result := r |} :: new).
      split; [now rewrite <- app_assoc |]. split; [cbn [length]; rewrite Hlen; lia |].
      split.
      * intros [|j] e Hj; cbn in Hj.
        -- injection Hj as <-. cbn. split; [f_equal; lia | reflexivity].
        -- apply Hidx in Hj as [Hs Hc]. split; [rewrite Hs; lia | exact Hc].
      * cbn. exists env1. split; assumption.
Qed.

(** X8.  [run_sequence] executes the calls in order and stops at the end
    of the sequence or at the step budget, whichever comes first: the trace
    holds one entry per executed call, numbered 1, 2, ... without gaps, each
    with the call as issued and the result [exec_tool] returned in the
    environment the earlier calls left. *)
Theorem run_sequence_trace {rt : PyRuntime} (clock : nat -> float) (env env' : EnvState)
    (sequence : list ToolCall) (max_steps : nat) (trace : ExecutionTrace) :
  Harness.run_sequence clock env sequence max_steps = Return (env', trace) ->
  length (tool_calls trace) = Nat.min (length sequence) max_steps /\
  (forall (k : nat) (e : TraceEntry),
     tool_calls trace !! k = Some e ->
     step e = Z.of_nat k + 1 /\ sequence !! k = Some (call e)) /\
  records_run clock 0 env (tool_calls trace) env'.
Proof.
  unfold Harness.run_sequence.
  destruct (Harness.run_steps clock max_steps 0 env sequence []) as [[e1 t1]| |] eqn:Hrun;
    cbn [mbind outcome_bind bind fst snd]; try discriminate.
  intros [= <- <-]. cbn [tool_calls].
  apply run_steps_records in Hrun as (new & Hnew & Hlen & Hidx & Hrec).
  cbn in Hnew. subst t1. rewrite Nat.sub_0_r in Hlen. auto.
Qed.

(** X8, on the full run with a budget of 3: the fourth call is not made. *)
Lemma run_sequence_trace_witness :
  exists (env' : EnvState) (trace : ExecutionTrace),
    Harness.run_sequence (rt := Examples.demo_runtime) (fun _ => 0%float)
      Examples.checkout_env Examples.full_run 3 = Return (env', trace) /\
    length (tool_calls trace) = 3%nat /\
    status (ticket env') = "open".
Proof.
  destruct (Harness.run_sequence (rt := Examples.demo_runtime) (fun _ => 0%float)
              Examples.checkout_env Examples.full_run 3) as [[env' trace]| |] eqn:Hrun;
    try (vm_compute in Hrun; discriminate Hrun).
  exists env', trace. split; [reflexivity |].
  split.
  - apply (run_sequence_trace (rt := Examples.demo_runtime) _ _ _ _ _ _ Hrun).
  - vm_compute in Hrun. injection Hrun as <- _. reflexivity.
Defined.

(** X9.  Runs compose: running a sequence followed by another is running
    the first and then, from the environment, trace and step number reached,
    the second; a budget used up by the first leaves nothing of the second
    to run. *)
Theorem run_steps_app {rt : PyRuntime} (clock : nat -> float) (max_steps : nat)
    (first second : list ToolCall) (i : nat) (env : EnvState) (trace : list TraceEntry) :
  Harness.run_steps clock max_steps i env (first ++ second) trace
  = (r ← Harness.run_steps clock max_steps i env first trace;
     Harness.run_steps clock max_steps (i + length first) r.1 second r.2).
Proof.
  revert i env trace. induction first as [|c rest IH]; intros i env trace.
  - cbn. now rewrite Nat.add_0_r.
  - cbn [app Harness.run_steps length].
    destruct (Nat.leb_spec max_steps i) as [Hle|Hlt].
    + cbn [mbind outcome_bind bind fst snd].
      destruct second as [|c2 rest2]; cbn [Harness.run_steps]; [reflexivity |].
      destruct (Nat.leb_spec max_steps (i + S (length rest))); [reflexivity | lia].
    + destruct (Harness.exec_tool (clock i) env c) as [[env1 r]| |];
        cbn [mbind outcome_bind bind fst snd]; try reflexivity.
      rewrite IH. now replace (S i + length rest)%nat with (i + S (length rest))%nat by lia.
Qed.

(** ** What a run leaves behind *)

Lemma is_successful_failed (n : string) (e : TraceEntry) :
  ok (result e) = false -> is_successful n e = false.
Proof. unfold is_successful. intros ->. apply andb_false_r. Qed.

Lemma is_successful_other (n m : string) (e : TraceEntry) :
  name (call e) = m -> String.eqb m n = false -> is_successful n e = false.
Proof. unfold is_successful. intros -> ->. reflexivity. Qed.

Lemma is_successful_same (n : string) (e : TraceEntry) :
  name (call e) = n -> ok (result e) = true -> is_successful n e = true.
Proof. unfold is_successful. intros -> ->. now rewrite String.eqb_refl. Qed.

(** Closes the log part of a step that logs nothing. *)
Ltac same_log := exists []; split; [now rewrite app_nil_r | reflexivity].

(** What one call changes, in terms of the entry the trace keeps of it. *)
Lemma exec_tool_step {rt : PyRuntime} (now : float) (env env' : EnvState) (i : Z)
    (c : ToolCall) (r : ToolResult) :
  Harness.exec_tool now env c = Return (env', r) ->
  let e := {| step := i; call := c; result := r |} in
  deployment_keys env' = deployment_keys env /\
  seed env' = seed env /\
  dom (feature_flags env) ⊆ dom (feature_flags env') /\
  (exists new : list LogEntry,
     incident_log env' = incident_log env ++ new /\
     map message new = option_list (logged_message e)) /\
  ticket env' = default (ticket env) (ticket_written e) /\
  (forall key : string * string,
     replicas <$> deployments env' !! key
     = from_option Some (replicas <$> deployments env !! key) (replicas_written key e)).
Proof.
  intros Hcall e.
  apply exec_tool_inv in Hcall
    as [[-> Hok] | [[Hn (s & m & mi & ns & Hq)] | [[Hn (s & n & ns & Hs & Hrep & Hns & Hq)]
       | [[Hn (s & ns & Hq)] | [[Hn (f & b & Hq)] | [[Hn (m & sev & Hm & Hq)]
       | [Hn (st & nt & Hst & Hnt & Hq)]]]]]]].
  - unfold logged_message, ticket_written, replicas_written.
    rewrite !is_successful_failed by exact Hok. repeat split; try reflexivity; same_log.
  - apply metrics_query_effect in Hq as ->.
    unfold logged_message, ticket_written, replicas_written.
    rewrite !(is_successful_other _ "metrics_query" e Hn) by reflexivity.
    repeat split; try reflexivity; same_log.
  - unfold logged_message, ticket_written.
    rewrite !(is_successful_other _ "k8s_scale" e Hn) by reflexivity.
    unfold replicas_written. cbn [call arguments e]. rewrite Hs, Hns, Hrep.
    apply k8s_scale_effect in Hq as [[Hok ->] | (Hok & Hn' & d & Hd & ->)].
    + rewrite is_successful_failed by exact Hok. repeat split; try reflexivity; same_log.
    + rewrite is_successful_same by assumption.
      unfold deployment_keys. cbn [deployments set_deployments seed feature_flags
                                  incident_log ticket].
      repeat split; try reflexivity; try same_log.
      * apply dom_insert_lookup_L. eauto.
      * intros key. destruct (decide ((s, ns) = key)) as [<-|Hne].
        -- rewrite bool_decide_eq_true_2 by reflexivity.
           now rewrite lookup_insert_eq.
        -- rewrite bool_decide_eq_false_2 by assumption.
           now rewrite lookup_insert_ne.
  - unfold logged_message, ticket_written, replicas_written.
    rewrite !(is_successful_other _ "k8s_restart" e Hn) by reflexivity.
    apply k8s_restart_effect in Hq as [[Hok ->] | (Hok & d & Hd & ->)];
      [repeat split; try reflexivity; same_log |].
    unfold deployment_keys. cbn [deployments set_deployments seed feature_flags
                                incident_log ticket].
    repeat split; try reflexivity; try same_log.
    + apply dom_insert_lookup_L. eauto.
    + intros key. destruct (decide ((s, ns) = key)) as [<-|Hne].
      * now rewrite lookup_insert_eq, Hd.
      * now rewrite lookup_insert_ne.
  - unfold logged_message, ticket_written, replicas_written.
    rewrite !(is_successful_other _ "feature_flag_set" e Hn) by reflexivity.
    unfold Tools.feature_flag_set in Hq. injection Hq as <- _.
    cbn [deployments set_feature_flags seed feature_flags incident_log ticket].
    repeat split; try reflexivity; try same_log. apply dom_insert_subseteq.
  - unfold ticket_written, replicas_written.
    rewrite !(is_successful_other _ "incident_log" e Hn) by reflexivity.
    unfold logged_message. cbn [call arguments e]. rewrite Hm.
    apply incident_log_effect in Hq as [[Hok ->] | (Hok & ->)].
    + rewrite is_successful_failed by exact Hok. repeat split; try reflexivity; same_log.
    + rewrite is_successful_same by assumption.
      cbn [deployments set_incident_log seed feature_flags incident_log ticket].
      repeat split; try reflexivity.
      eexists. split; reflexivity.
  - unfold logged_message, replicas_written.
    rewrite !(is_successful_other _ "ticket_update" e Hn) by reflexivity.
    unfold ticket_written. cbn [call arguments e]. rewrite Hst, Hnt.
    apply ticket_update_effect in Hq as [[Hok ->] | (Hok & _ & ->)].
    + rewrite is_successful_failed by exact Hok. repeat split; try reflexivity; same_log.
    + rewrite is_successful_same by assumption. repeat split; try reflexivity; same_log.
Qed.

Lemma last_omap_cons {A B : Type} (f : A -> option B) (x : A) (l : list A) :
  last (omap f (x :: l))
  = match last (omap f l) with
    | Some y => Some y
    | None => f x
    end.
Proof.
  cbn [omap list_omap]. destruct (f x) as [y|]; [| now destruct (last (omap f l))].
  apply last_cons.
Qed.

(** What a recorded run changes, in terms of its entries. *)
Lemma records_run_summary {rt : PyRuntime} (clock : nat -> float) (entries : list TraceEntry) :
  forall (i : nat) (env env' : EnvState),
    records_run clock i env entries env' ->
    deployment_keys env' = deployment_keys env /\
    seed env' = seed env /\
    dom (feature_flags env) ⊆ dom (feature_flags env') /\
    (exists new : list LogEntry,
       incident_log env' = incident_log env ++ new /\
       map message new = omap logged_message entries) /\
    ticket env' = default (ticket env) (last (omap ticket_written entries)) /\
    (forall key : string * string,
       replicas <$> deployments env' !! key
       = from_option Some (replicas <$> deployments env !! key)
           (last (omap (replicas_written key) entries))).
Proof.
  induction entries as [|e rest IH]; intros i env env'; cbn [records_run].
  - intros ->. repeat split; try reflexivity. exists []. now rewrite app_nil_r.
  - intros (env1 & Hcall & Hrest).
    apply IH in Hrest as (Hk & Hs & Hf & (new & Hlog & Hmsg) & Ht & Hr).
    apply (exec_tool_step _ _ _ (step e)) in Hcall
      as (Hk1 & Hs1 & Hf1 & (new1 & Hlog1 & Hmsg1) & Ht1 & Hr1).
    cbn zeta in *. destruct e as [st c r]. cbn [step call result] in *.
    split; [congruence |]. split; [congruence |].
    split; [transitivity (dom (feature_flags env1)); assumption |].
    split; [| split].
    + exists (new1 ++ new). split; [rewrite Hlog, Hlog1; now rewrite app_assoc |].
      rewrite map_app, Hmsg, Hmsg1. cbn [omap list_omap].
      now destruct (logged_message _).
    + rewrite Ht, Ht1, last_omap_cons.
      destruct (last (omap ticket_written rest)); [reflexivity |].
      now destruct (ticket_written _).
    + intros key. rewrite Hr, Hr1, last_omap_cons.
      destruct (last (omap (replicas_written key) rest)); [reflexivity |].
      now destruct (replicas_written key _).
Qed.

Lemma run_sequence_records {rt : PyRuntime} (clock : nat -> float) (env env' : EnvState)
    (sequence : list ToolCall) (max_steps : nat) (trace : ExecutionTrace) :
  Harness.run_sequence clock env sequence max_steps = Return (env', trace) ->
  records_run clock 0 env (tool_calls trace) env'.
Proof.
  unfold Harness.run_sequence.
  destruct (Harness.run_steps clock max_steps 0 env sequence []) as [[e1 t1]| |] eqn:Hrun;
    cbn [mbind outcome_bind bind fst snd]; try discriminate.
  intros [= <- <-]. cbn [tool_calls].
  apply run_steps_records in Hrun as (new & Hnew & _ & _ & Hrec).
  cbn in Hnew. now subst t1.
Qed.

(** X10.  No run adds or removes a deployment, changes the seed or removes
    a feature flag: after [run_sequence] the deployments have the keys they
    had, the seed is the same, and every flag that was set is still set. *)
Theorem run_sequence_keeps {rt : PyRuntime} (clock : nat -> float) (env env' : EnvState)
    (sequence : list ToolCall) (max_steps : nat) (trace : ExecutionTrace) :
  Harness.run_sequence clock env sequence max_steps = Return (env', trace) ->
  deployment_keys env' = deployment_keys env /\
  seed env' = seed env /\
  dom (feature_flags env) ⊆ dom (feature_flags env').
Proof.
  intros Hrun. apply run_sequence_records in Hrun.
  apply records_run_summary in Hrun as (Hk & Hs & Hf & _). auto.
Qed.

(** X11.  The incident log is append-only over a run, and grows by exactly
    the messages of the successful [incident_log] calls of the trace, in
    trace order; a failed call to [incident_log] counts in the trace but
    logs nothing. *)
Theorem run_sequence_log {rt : PyRuntime} (clock : nat -> float) (env env' : EnvState)
    (sequence : list ToolCall) (max_steps : nat) (trace : ExecutionTrace) :
  Harness.run_sequence clock env sequence max_steps = Return (env', trace) ->
  exists new : list LogEntry,
    incident_log env' = incident_log env ++ new /\
    map message new = omap logged_message (tool_calls trace).
Proof.
  intros Hrun. apply run_sequence_records in Hrun.
  apply records_run_summary in Hrun as (_ & _ & _ & Hlog & _). exact Hlog.
Qed.

(** X12.  After a run the ticket is the one the last successful
    [ticket_update] of the trace wrote, status and note, and the ticket the
    run started with when the trace has none. *)
Theorem run_sequence_ticket {rt : PyRuntime} (clock : nat -> float) (env env' : EnvState)
    (sequence : list ToolCall) (max_steps : nat) (trace : ExecutionTrace) :
  Harness.run_sequence clock env sequence max_steps = Return (env', trace) ->
  ticket env' = default (ticket env) (last (omap ticket_written (tool_calls trace))).
Proof.
  intros Hrun. apply run_sequence_records in Hrun.
  apply records_run_summary in Hrun as (_ & _ & _ & _ & Ht & _). exact Ht.
Qed.

(** X13.  After a run the replica count of a deployment is the one the last
    successful [k8s_scale] of the trace for its (service, namespace) key
    set, and the count it started with when the trace has none; no other
    call changes a replica count. *)
Theorem run_sequence_replicas {rt : PyRuntime} (clock : nat -> float) (env env' : EnvState)
    (sequence : list ToolCall) (max_steps : nat) (trace : ExecutionTrace)
    (key : string * string) :
  Harness.run_sequence clock env sequence max_steps = Return (env', trace) ->
  replicas <$> deployments env' !! key
  = from_option Some (replicas <$> deployments env !! key)
      (last (omap (replicas_written key) (tool_calls trace))).
Proof.
  intros Hrun. apply run_sequence_records in Hrun.
  apply records_run_summary in Hrun as (_ & _ & _ & _ & _ & Hr). apply Hr.
Qed.

(** The full run of the specification, evaluated. *)
Lemma full_run_result :
  Harness.run_sequence (rt := Examples.demo_runtime) (fun _ => 0%float)
    Examples.checkout_env Examples.full_run 8
  = Return (Examples.full_env, Examples.full_trace).
Proof. vm_compute. reflexivity. Qed.

(** X10, on the full run. *)
Lemma run_sequence_keeps_witness :
  deployment_keys Examples.full_env = deployment_keys Examples.checkout_env /\
  seed Examples.full_env = seed Examples.checkout_env /\
  dom (feature_flags Examples.checkout_env) ⊆ dom (feature_flags Examples.full_env).
Proof.
  exact (run_sequence_keeps (rt := Examples.demo_runtime) _ _ _ _ _ _ full_run_result).
Defined.

(** X11, on the full run: one message logged. *)
Lemma run_sequence_log_witness :
  exists new : list LogEntry,
    incident_log Examples.full_env = incident_log Examples.checkout_env ++ new /\
    map message new = ["scaled checkout-service to mitigate errors"].
Proof.
  exact (run_sequence_log (rt := Examples.demo_runtime) _ _ _ _ _ _ full_run_result).
Defined.

(** X12, on the full run. *)
Lemma run_sequence_ticket_witness :
  ticket Examples.full_env = {| status := "mitigated"; note := "scaled and verified" |}.
Proof.
  exact (run_sequence_ticket (rt := Examples.demo_runtime) _ _ _ _ _ _ full_run_result).
Defined.

(** X13, on the full run: 6 replicas, as the scale call set. *)
Lemma run_sequence_replicas_witness :
  replicas <$> deployments Examples.full_env !! ("checkout-service", "prod") = Some 6.
Proof.
  exact (run_sequence_replicas (rt := Examples.demo_runtime) _ _ _ _ _ _
           ("checkout-service", "prod") full_run_result).
Defined.

(** ** Scoring *)

(** X14.  The acceptance check is the technical-success check followed by
    the ticket check: when the ticket criterion is absent, empty or met the
    two return the same record; when a required status differs from the
    ticket's, acceptance is invalid and its reasons are those of technical
    success followed by one reason that names both statuses. *)
Theorem check_acceptance_extends_technical (env : EnvState) (c : Criteria) :
  (ticket_met env c ->
   Scoring.check_acceptance env c = Scoring.check_technical_success env c) /\
  (forall t : string,
     ticket_status c = Some t -> t <> "" -> status (ticket env) <> t ->
     valid (Scoring.check_acceptance env c) = false /\
     reasons (Scoring.check_acceptance env c)
     = reasons (Scoring.check_technical_success env c)
       ++ ["ticket status " +:+ status (ticket env) +:+ " != " +:+ t]).
Proof.
  unfold Scoring.check_acceptance, Scoring.check_technical_success.
  destruct (Scoring.check_log env c (Scoring.check_deployment env c (true, [])))
    as [ok0 rs] eqn:Hst.
  cbn zeta. unfold Scoring.check_ticket, ticket_met, ticket_criterion. split.
  - intros Hmet. destruct (truthy_str (ticket_status c)) eqn:Ht; [| reflexivity].
    apply truthy_str_iff in Ht as (t & Ht & Hne). rewrite Ht. cbn [default from_option id].
    rewrite (Hmet t Ht Hne), String.eqb_refl. reflexivity.
  - intros t Ht Hne Hst'.
    assert (Htr : truthy_str (ticket_status c) = true) by (apply truthy_str_iff; eauto).
    rewrite Htr, Ht. cbn [default from_option id].
    destruct (String.eqb_spec (status (ticket env)) t); [contradiction |].
    split; reflexivity.
Qed.

(** X14, on the run that leaves the ticket open. *)
Lemma check_acceptance_extends_technical_witness :
  reasons (Scoring.check_acceptance Examples.technical_env Examples.checkout_criteria)
  = ["ticket status open != mitigated"].
Proof.
  destruct (check_acceptance_extends_technical Examples.technical_env
              Examples.checkout_criteria) as [_ H].
  destruct (H "mitigated") as [_ Hr]; [reflexivity | discriminate | discriminate |].
  exact Hr.
Defined.

Lemma k8s_scale_success (env : EnvState) (service namespace : string) (n : Z)
    (d : Deployment) :
  deployments env !! (service, namespace) = Some d -> 1 <= n <= 100 ->
  Tools.k8s_scale env service n namespace
  = (set_deployments env (<[(service, namespace) := set_replicas d n]> (deployments env)),
     success [("service", PStr service); ("namespace", PStr namespace);
              ("replicas", PInt n)]).
Proof.
  intros Hd Hn. unfold Tools.k8s_scale. rewrite Hd.
  destruct (Z.ltb_spec n 1), (Z.ltb_spec 100 n); try lia. reflexivity.
Qed.

Lemma incident_log_success (now : float) (env : EnvState) (message severity : string) :
  In severity ["info"; "warning"; "critical"] ->
  Tools.incident_log now env message severity
  = (set_incident_log env
       (incident_log env ++ [{| ts := now; severity := severity; message := message |}]),
     success [("ts", PFloat now); ("severity", PStr severity); ("message", PStr message)]).
Proof.
  intros Hs. unfold Tools.incident_log.
  now rewrite (proj2 (str_mem_true_iff severity _) Hs).
Qed.

Lemma ticket_update_success (env : EnvState) (status note : string) :
  valid_status status ->
  Tools.ticket_update env status note
  = (set_ticket env {| status := status; note := note |},
     success [("status", PStr status); ("note", PStr note)]).
Proof.
  intros Hs. unfold Tools.ticket_update.
  now rewrite (proj2 (str_mem_true_iff status _) Hs).
Qed.

(** X15.  The criteria can always be met: in any environment that has the
    deployment, scaling it to a count in [1,100] at or above the floor,
    logging a message that contains the required text and updating the
    ticket to the required status leaves a state that [check_acceptance]
    accepts, whatever the log and the ticket held before. *)
Theorem remediation_is_accepted (now : float) (env : EnvState) (service namespace : string)
    (n gte : Z) (sub message severity t note : string) :
  is_Some (deployments env !! (service, namespace)) ->
  1 <= n <= 100 -> gte <= n ->
  is_substring sub message ->
  In severity ["info"; "warning"; "critical"] ->
  valid_status t ->
  let env1 := (Tools.k8s_scale env service n namespace).1 in
  let env2 := (Tools.incident_log now env1 message severity).1 in
  let env3 := (Tools.ticket_update env2 t note).1 in
  valid (Scoring.check_acceptance env3 (full_criteria service namespace gte sub t)) = true.
Proof.
  intros [d Hd] Hn Hgte Hsub Hsev Ht. cbn zeta.
  rewrite (k8s_scale_success env service namespace n d Hd Hn). cbn [fst].
  rewrite incident_log_success by assumption. cbn [fst].
  rewrite ticket_update_success by assumption. cbn [fst].
  apply check_acceptance_spec. unfold criteria_hold, full_criteria. split; [| split].
  - intros r [= <-] _. exists service, namespace, (set_replicas d n).
    cbn. repeat split.
    + apply lookup_insert_eq.
    + intros g [= <-]. exact Hgte.
  - intros s' [= <-] _.
    exists {| ts := now; severity := severity; message := message |}.
    split; [| exact Hsub].
    cbn. apply in_or_app. right. left. reflexivity.
  - intros t' [= <-] _. reflexivity.
Qed.

(** X15, on the checkout scenario. *)
Lemma remediation_is_accepted_witness :
  valid (Scoring.check_acceptance
           (Tools.ticket_update
              (Tools.incident_log 0
                 (Tools.k8s_scale Examples.checkout_env "checkout-service" 6 "prod").1
                 "scaled checkout-service to mitigate errors" "warning").1
              "mitigated" "scaled and verified").1
           Examples.checkout_criteria) = true.
Proof.
  apply (remediation_is_accepted 0 Examples.checkout_env "checkout-service" "prod" 6 5
           "scaled checkout-service" "scaled checkout-service to mitigate errors"
           "warning" "mitigated" "scaled and verified").
  - eexists. reflexivity.
  - lia.
  - lia.
  - exists "", " to mitigate errors". reflexivity.
  - cbn. tauto.
  - cbn. tauto.
Defined.

(** X16.  The weighted score is at least 60 exactly when technical success
    is valid, and at most 40 otherwise; and it is monotone: a run that has
    every signal another run has, and is a technical success when the other
    is, scores no less. *)
Theorem weighted_score_threshold (acceptance acceptance' technical technical' : CheckResult)
    (partial partial' : PartialCredit) :
  let total := total_score (Scoring.compute_weighted_score acceptance partial technical) in
  let total' := total_score (Scoring.compute_weighted_score acceptance' partial' technical') in
  PrimFloat.leb 60 total = valid technical /\
  PrimFloat.leb total 40 = negb (valid technical) /\
  ((valid technical = true -> valid technical' = true) -> signals_le partial partial' ->
   PrimFloat.leb total total' = true).
Proof.
  cbn zeta. unfold signals_le.
  destruct technical as [[|] rs], partial as [[|] [|] [|] [|]];
    (split; [vm_compute; reflexivity |]); (split; [vm_compute; reflexivity |]);
    intros Ht (H1 & H2 & H3 & H4);
    destruct technical' as [[|] rs'], partial' as [[|] [|] [|] [|]];
    cbn [valid tool_syntax_ok verification_performed incident_logged ticket_updated] in *;
    try (discriminate (Ht eq_refl)); try (discriminate (H1 eq_refl));
    try (discriminate (H2 eq_refl)); try (discriminate (H3 eq_refl));
    try (discriminate (H4 eq_refl));
    vm_compute; reflexivity.
Qed.

(** X16, on the run that only scales against the full run. *)
Lemma weighted_score_threshold_witness :
  PrimFloat.leb
    (total_score
       (Scoring.compute_weighted_score
          (Scoring.check_acceptance Examples.scale_only_env Examples.mitigation_criteria)
          (Scoring.partial_credit Examples.scale_only_trace)
          (Scoring.check_technical_success Examples.scale_only_env
             Examples.mitigation_criteria)))
    (total_score
       (Scoring.compute_weighted_score
          (Scoring.check_acceptance Examples.full_env Examples.checkout_criteria)
          (Scoring.partial_credit Examples.full_trace)
          (Scoring.check_technical_success Examples.full_env Examples.checkout_criteria)))
  = true.
Proof.
  apply (weighted_score_threshold
           (Scoring.check_acceptance Examples.scale_only_env Examples.mitigation_criteria)
           (Scoring.check_acceptance Examples.full_env Examples.checkout_criteria)
           (Scoring.check_technical_success Examples.scale_only_env
              Examples.mitigation_criteria)
           (Scoring.check_technical_success Examples.full_env Examples.checkout_criteria)
           (Scoring.partial_credit Examples.scale_only_trace)
           (Scoring.partial_credit Examples.full_trace)).
  - intros _. reflexivity.
  - repeat split; intros _; reflexivity.
Defined.

(** ** Signals and the trace *)

Lemma named_call_iff (n : string) (calls : list TraceEntry) :
  existsb (fun c => String.eqb (name (call c)) n) calls = true
  <-> exists c : TraceEntry, In c calls /\ name (call c) = n.
Proof.
  rewrite existsb_exists. split; intros (c & Hin & H); exists c; split; auto;
    now apply String.eqb_eq.
Qed.

Lemma incident_logged_spec (trace : ExecutionTrace) :
  incident_logged (Scoring.partial_credit trace) = true
  <-> exists c : TraceEntry, In c (tool_calls trace) /\ name (call c) = "incident_log".
Proof.
  unfold Scoring.partial_credit.
  destruct (fold_left Scoring.verification_step (tool_calls trace) (false, false)).
  apply named_call_iff.
Qed.

Lemma ticket_updated_spec (trace : ExecutionTrace) :
  ticket_updated (Scoring.partial_credit trace) = true
  <-> exists c : TraceEntry, In c (tool_calls trace) /\ name (call c) = "ticket_update".
Proof.
  unfold Scoring.partial_credit.
  destruct (fold_left Scoring.verification_step (tool_calls trace) (false, false)).
  apply named_call_iff.
Qed.

(** X17.  The signals of [partial_credit] are monotone in the trace: calls
    appended to a trace never take back [verification_performed],
    [incident_logged] or [ticket_updated], and never repair a
    [tool_syntax_ok] that an earlier entry has already lost. *)
Theorem partial_credit_monotone (calls more : list TraceEntry) :
  let p := Scoring.partial_credit {| tool_calls := calls |} in
  let q := Scoring.partial_credit {| tool_calls := calls ++ more |} in
  (verification_performed p = true -> verification_performed q = true) /\
  (incident_logged p = true -> incident_logged q = true) /\
  (ticket_updated p = true -> ticket_updated q = true) /\
  (tool_syntax_ok p = false -> tool_syntax_ok q = false).
Proof.
  cbn zeta. split; [| split; [| split]].
  - rewrite !verification_performed_spec. cbn [tool_calls].
    intros (i & j & a & q & Hi & Hj & Hrest).
    exists i, j, a, q. split; [now apply lookup_app_l_Some |].
    split; [now apply lookup_app_l_Some | exact Hrest].
  - rewrite !incident_logged_spec. cbn [tool_calls].
    intros (c & Hin & Hc). exists c. split; [apply in_or_app; now left | exact Hc].
  - rewrite !ticket_updated_spec. cbn [tool_calls].
    intros (c & Hin & Hc). exists c. split; [apply in_or_app; now left | exact Hc].
  - rewrite !tool_syntax_ok_spec. cbn [tool_calls].
    intros (c & Hin & Hc). exists c. split; [apply in_or_app; now left | exact Hc].
Qed.

(** X17, on the full trace extended by a failing scale call: the signals
    stay. *)
Lemma partial_credit_monotone_witness :
  verification_performed
    (Scoring.partial_credit
       {| tool_calls := tool_calls Examples.full_trace
                        ++ tool_calls Examples.failed_scale_only |}) = true.
Proof.
  apply (partial_credit_monotone (tool_calls Examples.full_trace)
           (tool_calls Examples.failed_scale_only)).
  reflexivity.
Defined.

Lemma omap_nil_of_none {A B : Type} (f : A -> option B) (l : list A) :
  (forall x, In x l -> f x = None) -> omap f l = [].
Proof.
  induction l as [|x l IH]; intros H; [reflexivity |].
  cbn [omap list_omap]. rewrite (H x) by now left.
  apply IH. intros y Hy. apply H. now right.
Qed.

Lemma not_named_unsuccessful (n : string) (calls : list TraceEntry) :
  existsb (fun c => String.eqb (name (call c)) n) calls = false ->
  forall e, In e calls -> is_successful n e = false.
Proof.
  intros Hex e Hin. unfold is_successful.
  destruct (String.eqb (name (call e)) n) eqn:He; [| reflexivity].
  assert (existsb (fun c => String.eqb (name (call c)) n) calls = true)
    by (apply existsb_exists; eauto).
  congruence.
Qed.

(** X18.  A signal that is false vouches for the environment: when the trace
    of a run has [incident_logged] false the run left the incident log as
    it was, and when it has [ticket_updated] false the run left the ticket
    as it was. *)
Theorem unsignalled_run_unchanged {rt : PyRuntime} (clock : nat -> float)
    (env env' : EnvState) (sequence : list ToolCall) (max_steps : nat)
    (trace : ExecutionTrace) :
  Harness.run_sequence clock env sequence max_steps = Return (env', trace) ->
  (incident_logged (Scoring.partial_credit trace) = false ->
   incident_log env' = incident_log env) /\
  (ticket_updated (Scoring.partial_credit trace) = false -> ticket env' = ticket env).
Proof.
  intros Hrun. apply run_sequence_records in Hrun.
  apply records_run_summary in Hrun as (_ & _ & _ & (new & Hlog & Hmsg) & Ht & _).
  unfold Scoring.partial_credit.
  destruct (fold_left Scoring.verification_step (tool_calls trace) (false, false)).
  cbn [incident_logged ticket_updated]. split; intros Hno.
  - rewrite omap_nil_of_none in Hmsg.
    + destruct new; [now rewrite app_nil_r in Hlog | discriminate Hmsg].
    + intros e He. unfold logged_message.
      now rewrite (not_named_unsuccessful _ _ Hno e He).
  - rewrite omap_nil_of_none in Ht; [exact Ht |].
    intros e He. unfold ticket_written.
    now rewrite (not_named_unsuccessful _ _ Hno e He).
Qed.

(** X18, on the run that only scales. *)
Lemma unsignalled_run_unchanged_witness :
  incident_log Examples.scale_only_env = incident_log Examples.checkout_env /\
  ticket Examples.scale_only_env = ticket Examples.checkout_env.
Proof.
  assert (Hrun : Harness.run_sequence (rt := Examples.demo_runtime) (fun _ => 0%float)
                   Examples.checkout_env [Examples.call_scale 6] 8
                 = Return (Examples.scale_only_env, Examples.scale_only_trace))
    by (vm_compute; reflexivity).
  destruct (unsignalled_run_unchanged (rt := Examples.demo_runtime) _ _ _ _ _ _ Hrun)
    as [Hlog Hticket].
  split; [apply Hlog | apply Hticket]; reflexivity.
Defined.

(** ** More on [build_env] *)

Lemma build_env_deployments_frame (items : list DeploymentItem) (env : EnvState) :
  let env' :=
    fold_left
      (fun env item =>
         set_deployments env
           (<[(item_service item, item_namespace item) := deployment_of item]>
              (deployments env)))
      items env in
  feature_flags env' = feature_flags env /\ ticket env' = ticket env /\
  incident_log env' = incident_log env /\ seed env' = seed env.
Proof.
  revert env. induction items as [|item items IH]; intros env; cbn zeta; [auto |].
  cbn [fold_left].
  exact (IH (set_deployments env
               (<[(item_service item, item_namespace item) := deployment_of item]>
                  (deployments env)))).
Qed.

Lemma build_env_flags_lookup (k : string) (flags : list (string * pyval)) (env : EnvState) :
  feature_flags
    (fold_left
       (fun env kv => set_feature_flags env (<[kv.1 := py_bool kv.2]> (feature_flags env)))
       flags env) !! k
  = match last (flag_values k flags) with
    | Some v => Some (py_bool v)
    | None => feature_flags env !! k
    end.
Proof.
  revert env. induction flags as [|[k' v] flags IH]; intros env; [reflexivity |].
  cbn [fold_left]. rewrite IH. unfold flag_values. cbn [List.filter fst snd].
  destruct (String.eqb_spec k' k) as [->|Hne]; cbn [map].
  - destruct (map snd (List.filter _ flags)) as [|x l] eqn:E.
    + cbn. apply lookup_insert_eq.
    + rewrite last_cons_cons.
      destruct (last (x :: l)) eqn:El; [reflexivity | apply last_None in El; discriminate].
  - destruct (last (map snd (List.filter _ flags))); [reflexivity |].
    cbn. now apply lookup_insert_ne.
Qed.

Lemma build_env_rest (initial_state : InitialState) :
  let env := Harness.build_env initial_state in
  incident_log env = [] /\
  seed env = 42 /\
  ticket env = {| status := default "open" (init_ticket initial_state ≫= init_status);
                  note := default "" (init_ticket initial_state ≫= init_note) |} /\
  (forall k : string,
     feature_flags env !! k
     = py_bool <$> last (flag_values k (default [] (init_feature_flags initial_state)))).
Proof.
  cbn zeta. unfold Harness.build_env.
  match goal with
  | |- context [fold_left ?f ?flags (fold_left ?g ?items ?e)] =>
      assert (H1 : feature_flags (fold_left g items e) = feature_flags e /\
                   ticket (fold_left g items e) = ticket e /\
                   incident_log (fold_left g items e) = incident_log e /\
                   seed (fold_left g items e) = seed e)
        by exact (build_env_deployments_frame items e);
      set (env1 := fold_left g items e) in *;
      pose proof (build_env_flags_loop flags env1) as (_ & Ht & Hl & Hs);
      pose proof (fun k => build_env_flags_lookup k flags env1) as Hfl;
      set (env2 := fold_left f flags env1) in *
  end.
  destruct H1 as (Hf' & Ht' & Hl' & Hs'). cbn zeta in *.
  assert (Hflags : forall k : string,
            feature_flags env2 !! k
            = py_bool <$> last (flag_values k (default [] (init_feature_flags initial_state)))).
  { intros k. rewrite Hfl, Hf'. cbn. now destruct (last _). }
  destruct (init_ticket initial_state) as [t|];
    cbn [incident_log seed ticket set_ticket feature_flags status note mbind option_bind];
    rewrite ?Hl, ?Hs, ?Ht, ?Hl', ?Hs', ?Ht';
    (split; [reflexivity |]); (split; [reflexivity |]); (split; [reflexivity |]);
    exact Hflags.
Qed.

(** X19.  [build_env] starts every run from the same blank state: an empty
    incident log, the seed 42, and a ticket that is open with an empty note
    unless the initial state gives a status or a note.  A deployment exists
    exactly for the keys the deployments list names, and every flag holds
    the truthiness [bool(v)] of the last value given for it, so that a
    non-empty string or a non-zero number enables a flag. *)
Theorem build_env_initial (initial_state : InitialState) :
  let env := Harness.build_env initial_state in
  incident_log env = [] /\
  seed env = 42 /\
  ticket env = {| status := default "open" (init_ticket initial_state ≫= init_status);
                  note := default "" (init_ticket initial_state ≫= init_note) |} /\
  (forall key : string * string,
     deployments env !! key = None
     <-> entries_for key (default [] (init_deployments initial_state)) = []) /\
  (forall k : string,
     feature_flags env !! k
     = py_bool <$> last (flag_values k (default [] (init_feature_flags initial_state)))).
Proof.
  cbn zeta. destruct (build_env_rest initial_state) as (Hl & Hs & Ht & Hf).
  split; [exact Hl |]. split; [exact Hs |]. split; [exact Ht |]. split; [| exact Hf].
  intros key. rewrite build_env_deployments.
  destruct (last _) eqn:El; cbn.
  - split; [discriminate | intros E; rewrite E in El; discriminate].
  - now apply last_None in El.
Qed.

(** A flag given as the string ["false"] is enabled, one given as 0 is not. *)
Example build_env_flag_truthiness :
  let env := Harness.build_env
               {| init_deployments := None;
                  init_feature_flags := Some [("canary", PStr "false"); ("beta", PInt 0)];
                  init_ticket := None |} in
  feature_flags env !! "canary" = Some true /\ feature_flags env !! "beta" = Some false.
Proof. split; reflexivity. Qed.

(** ** The registry *)



(** ** The replica bounds *)





(** * The conversation loop and the drivers *)
(** ** [parse_response] *)

Lemma string_app_cons (x : ascii) (a b : string) : String x a +:+ b = String x (a +:+ b).
Proof. reflexivity. Qed.

Lemma string_app_assoc (a b c : string) : (a +:+ b) +:+ c = a +:+ (b +:+ c).
Proof.
  induction a as [|x a IH]; [reflexivity |]. rewrite !string_app_cons. now f_equal.
Qed.

Lemma string_app_length (a b : string) :
  String.length (a +:+ b) = (String.length a + String.length b)%nat.
Proof.
  induction a as [|x a IH]; [reflexivity |]. rewrite string_app_cons. simpl. now f_equal.
Qed.

Lemma lstrip_app (pre : string) (c : ascii) (rest : string) :
  Llm.is_space c = false ->
  Llm.lstrip (pre +:+ String c rest) = Llm.lstrip pre +:+ String c rest.
Proof.
  intros Hc. induction pre as [|x pre IH].
  - cbn [String.append]. simpl. now rewrite Hc.
  - rewrite string_app_cons. simpl. now destruct (Llm.is_space x).
Qed.

Lemma rstrip_cons (c : ascii) (s : string) :
  Llm.is_space c = false -> Llm.rstrip (String c s) = String c (Llm.rstrip s).
Proof. intros Hc. simpl. rewrite Hc. now destruct (Llm.rstrip s). Qed.

Lemma rstrip_app (a : string) (c : ascii) (post : string) :
  Llm.is_space c = false ->
  Llm.rstrip (a +:+ String c post) = a +:+ String c (Llm.rstrip post).
Proof.
  intros Hc. induction a as [|x a IH]; [now apply rstrip_cons |].
  rewrite !string_app_cons. cbn [Llm.rstrip]. rewrite IH.
  now destruct a.
Qed.

Lemma has_char_lstrip (c : ascii) (s : string) :
  has_char c s = false -> has_char c (Llm.lstrip s) = false.
Proof.
  induction s as [|x s IH]; simpl; [reflexivity |].
  intros [Hx Hs]%orb_false_iff. destruct (Llm.is_space x); [now apply IH |].
  simpl. now rewrite Hx, Hs.
Qed.

Lemma has_char_rstrip (c : ascii) (s : string) :
  has_char c s = false -> has_char c (Llm.rstrip s) = false.
Proof.
  induction s as [|x s IH]; simpl; [reflexivity |].
  intros [Hx Hs]%orb_false_iff. specialize (IH Hs).
  destruct (Llm.rstrip s); [destruct (Llm.is_space x) |]; simpl in *; rewrite ?Hx; auto.
Qed.

Lemma find_from_none (c : ascii) (s : string) (i : Z) :
  has_char c s = false -> Llm.find_from c s i = -1.
Proof.
  revert i. induction s as [|x s IH]; intros i; simpl; [reflexivity |].
  intros [-> Hs]%orb_false_iff. now apply IH.
Qed.

Lemma rfind_from_none (c : ascii) (s : string) (i : Z) :
  has_char c s = false -> Llm.rfind_from c s i = -1.
Proof.
  revert i. induction s as [|x s IH]; intros i; simpl; [reflexivity |].
  intros [-> Hs]%orb_false_iff. now rewrite IH.
Qed.

Lemma find_from_app (c : ascii) (a rest : string) (i : Z) :
  has_char c a = false ->
  Llm.find_from c (a +:+ String c rest) i = i + Z.of_nat (String.length a).
Proof.
  revert i. induction a as [|x a IH]; intros i.
  - intros _. change (EmptyString +:+ String c rest) with (String c rest).
    cbn [Llm.find_from String.length]. rewrite Ascii.eqb_refl. lia.
  - rewrite string_app_cons. simpl. intros [-> Ha]%orb_false_iff.
    rewrite IH by assumption. lia.
Qed.

Lemma rfind_from_app (c : ascii) (a post : string) (i : Z) :
  0 <= i -> has_char c post = false ->
  Llm.rfind_from c (a +:+ String c post) i = i + Z.of_nat (String.length a).
Proof.
  intros Hi Hp. revert i Hi. induction a as [|x a IH]; intros i Hi.
  - change (EmptyString +:+ String c post) with (String c post).
    cbn [Llm.rfind_from String.length]. rewrite rfind_from_none by assumption.
    rewrite Ascii.eqb_refl. cbn. lia.
  - rewrite string_app_cons. cbn [Llm.rfind_from String.length]. rewrite IH by lia.
    destruct (Z.leb_spec 0 (i + 1 + Z.of_nat (String.length a))); lia.
Qed.

Lemma substring_skip (a b : string) (n : nat) :
  String.substring (String.length a) n (a +:+ b) = String.substring 0 n b.
Proof. induction a as [|x a IH]; [reflexivity | rewrite string_app_cons; exact IH]. Qed.

Lemma substring_prefix (b c : string) :
  String.substring 0 (String.length b) (b +:+ c) = b.
Proof.
  induction b as [|x b IH]; [now destruct c |].
  rewrite string_app_cons. simpl. now rewrite IH.
Qed.


Lemma json_candidate_wrapped (pre body post : string) :
  has_char "{" pre = false -> has_char "}" post = false ->
  Llm.json_candidate (pre +:+ "{" +:+ body +:+ "}" +:+ post) = "{" +:+ body +:+ "}".
Proof.
  intros Hpre Hpost. unfold Llm.json_candidate, Llm.strip.
  change ("{" +:+ body +:+ "}" +:+ post) with (String "{" (body +:+ String "}" post)).
  rewrite lstrip_app by reflexivity.
  change (String "{" (body +:+ String "}" post))
    with ((String "{" body) +:+ String "}" post).
  rewrite <- string_app_assoc, rstrip_app by reflexivity.
  apply (has_char_lstrip "{") in Hpre. apply (has_char_rstrip "}") in Hpost.
  set (pre' := Llm.lstrip pre) in *. set (post' := Llm.rstrip post) in *.
  cbn zeta.
  rewrite rfind_from_app by (lia || assumption).
  rewrite string_app_assoc.
  change (String "{" body +:+ String "}" post')
    with (String "{" (body +:+ String "}" post')).
  rewrite find_from_app by assumption.
  rewrite string_app_length. cbn [String.length].
  replace ((0 <=? 0 + Z.of_nat (String.length pre'))
           && (0 + Z.of_nat (String.length pre')
               <=? 0 + Z.of_nat (String.length pre' + S (String.length body)))) with true
    by (symmetry; apply andb_true_iff; split; apply Z.leb_le; lia).
  replace (Z.to_nat (0 + Z.of_nat (String.length pre'))) with (String.length pre') by lia.
  replace (Z.to_nat (0 + Z.of_nat (String.length pre' + S (String.length body)) + 1
                     - (0 + Z.of_nat (String.length pre'))))
    with (String.length ("{" +:+ body +:+ "}")).
  2:{ rewrite !string_app_length. simpl. lia. }
  rewrite substring_skip.
  replace (String "{" (body +:+ String "}" post')) with (("{" +:+ body +:+ "}") +:+ post')
    by (now rewrite !string_app_assoc).
  apply substring_prefix.
Qed.

Lemma json_candidate_no_brace (txt : string) :
  has_char "{" txt = false -> Llm.json_candidate txt = Llm.strip txt.
Proof.
  intros H. unfold Llm.json_candidate.
  rewrite find_from_none; [reflexivity |].
  unfold Llm.strip. now apply has_char_rstrip, has_char_lstrip.
Qed.

(** X22.  [parse_response] tolerates text around the object: of a reply
    that holds an object between a text without an opening brace and a text
    without a closing brace, exactly the span from the first [{] to the last
    [}] reaches [json.loads], so prose or a code fence around the object
    does no harm, while a top-level array of objects loses its brackets.  A
    reply without an opening brace is parsed whole, stripped of surrounding
    white space; a content that is not a string counts as unparsable. *)
Theorem parse_response_candidate {llm : LlmRuntime} :
  (forall pre body post : string,
     has_char "{" pre = false -> has_char "}" post = false ->
     Llm.parse_response (Some (pre +:+ "{" +:+ body +:+ "}" +:+ post))
     = json_loads ("{" +:+ body +:+ "}")) /\
  (forall txt : string,
     has_char "{" txt = false ->
     Llm.parse_response (Some txt) = json_loads (Llm.strip txt)) /\
  Llm.parse_response None = None.
Proof.
  split; [| split; [| reflexivity]].
  - intros pre body post Hpre Hpost. unfold Llm.parse_response. cbn [mbind option_bind].
    now rewrite json_candidate_wrapped.
  - intros txt Htxt. unfold Llm.parse_response. cbn [mbind option_bind].
    now rewrite json_candidate_no_brace.
Qed.

(** ** The conversation loop *)

(** A pass that goes on either left the environment and the trace alone or
    recorded one call with the result of [exec_tool]. *)
Lemma turn_continue {rt : PyRuntime} {llm : LlmRuntime} (h : HarnessConfig) (now : float)
    (n : nat) (env env1 : EnvState) (trace trace1 : list TraceEntry)
    (messages messages1 : list Message) :
  Llm.turn h now n env trace messages = Llm.Continue env1 trace1 messages1 ->
  (env1 = env /\ trace1 = trace) \/
  (exists (c : ToolCall) (r : ToolResult),
     Harness.exec_tool now env c = Return (env1, r) /\
     trace1 = trace ++ [{| step := Z.of_nat n; call := c; result := r |}]).
Proof.
  unfold Llm.turn. intros H.
  repeat case_match; try discriminate; injection H as <- <- <-; eauto.
Qed.

Lemma steps_within_weaken (lo lo' hi : Z) (entries : list TraceEntry) :
  lo' <= lo -> steps_within lo hi entries -> steps_within lo' hi entries.
Proof. destruct entries as [|e rest]; cbn; [trivial |]. intros ? [? ?]. split; [lia | assumption]. Qed.

Lemma steps_within_length (entries : list TraceEntry) :
  forall lo hi : Z, steps_within lo hi entries -> Z.of_nat (length entries) <= Z.max 0 (hi - lo + 1).
Proof.
  induction entries as [|e rest IH]; intros lo hi; cbn [steps_within length]; [lia |].
  intros [Hb Hrest]. apply IH in Hrest. lia.
Qed.

Lemma llm_loop_trace {rt : PyRuntime} {llm : LlmRuntime} (h : HarnessConfig)
    (clock : nat -> float) (remaining : nat) :
  forall (n : nat) (env : EnvState) (trace : list TraceEntry) (messages : list Message)
         (env' : EnvState) (tr : ExecutionTrace),
    Llm.llm_loop h clock remaining n env trace messages = Returned (env', tr) ->
    exists new : list TraceEntry,
      tool_calls tr = trace ++ new /\
      steps_within (Z.of_nat n) (Z.of_nat n + Z.of_nat remaining - 1) new /\
      records_turns clock env new env'.
Proof.
  induction remaining as [|remaining IH]; intros n env trace messages env' tr;
    cbn [Llm.llm_loop].
  - intros [= <- <-]. exists []. now rewrite app_nil_r.
  - destruct (Llm.turn h (clock n) n env trace messages) as [| e | | env1 trace1 messages1]
      eqn:Hturn; try discriminate.
    + intros [= <- <-]. exists []. now rewrite app_nil_r.
    + intros Hloop. apply IH in Hloop as (new & Htr & Hsteps & Hrec).
      apply turn_continue in Hturn as [[-> ->] | (c & r & Hcall & ->)].
      * exists new. split; [assumption |]. split; [| assumption].
        apply (steps_within_weaken (Z.of_nat (S n))); [lia |].
        now replace (Z.of_nat n + Z.of_nat (S remaining) - 1)
          with (Z.of_nat (S n) + Z.of_nat remaining - 1) by lia.
      * exists ({| step := Z.of_nat n; call := c; result := r |} :: new).
        split; [now rewrite Htr, <- app_assoc |].
        split; cbn [steps_within records_turns step call result].
        -- split; [lia |].
           now replace (Z.of_nat n + 1) with (Z.of_nat (S n)) by lia;
             replace (Z.of_nat n + Z.of_nat (S remaining) - 1)
               with (Z.of_nat (S n) + Z.of_nat remaining - 1) by lia.
        -- exists env1. rewrite Nat2Z.id. now split.
Qed.

(** X23.  A run of [run_llm] that returns has executed at most one tool call
    per step of its budget: the step numbers of the trace increase strictly
    and lie in 1..max_steps (with gaps where a turn produced no call), so
    the trace has at most max_steps entries; and each entry holds the result
    [exec_tool] returned for its call in the environment the earlier entries
    left. *)
Theorem run_llm_trace {rt : PyRuntime} {llm : LlmRuntime} (h : HarnessConfig)
    (clock : nat -> float) (env env' : EnvState) (scenario : Scenario) (variant : string)
    (max_steps : nat) (trace : ExecutionTrace) :
  Llm.run_llm h clock env scenario variant max_steps = Returned (env', trace) ->
  steps_within 1 (Z.of_nat max_steps) (tool_calls trace) /\
  (length (tool_calls trace) <= max_steps)%nat /\
  records_turns clock env (tool_calls trace) env'.
Proof.
  unfold Llm.run_llm. intros H.
  apply llm_loop_trace in H as (new & Htr & Hsteps & Hrec).
  cbn [app] in Htr. rewrite Htr.
  replace (Z.of_nat 1 + Z.of_nat max_steps - 1) with (Z.of_nat max_steps) in Hsteps by lia.
  split; [assumption |]. split; [| assumption].
  apply steps_within_length in Hsteps. lia.
Qed.





(** ** Exceptions that leave the loop *)





Lemma llm_loop_final_answer {rt : PyRuntime} {llm : LlmRuntime} (h : HarnessConfig)
    (clock : nat -> float) (remaining n : nat) (env : EnvState) (trace : list TraceEntry)
    (messages : list Message) (raw : option string) (d : gmap string json) :
  Llm._openrouter_chat h messages = Content raw ->
  Llm.parse_response raw = Some (JDict d) ->
  is_Some (d !! "final_answer") ->
  Llm.llm_loop h clock (S remaining) n env trace messages
  = Returned (env, {| tool_calls := trace |}).
Proof.
  intros Hraw Hp Hd.
  cbn [Llm.llm_loop]. unfold Llm.turn. rewrite Hraw. cbn [Llm.parse_attempts].
  rewrite Hp. cbn [Llm.has_final_answer]. now rewrite bool_decide_eq_true_2.
Qed.

Lemma run_llm_offline {rt : PyRuntime} {llm : LlmRuntime} (h : HarnessConfig)
    (clock : nat -> float) (env : EnvState) (scenario : Scenario) (variant : string)
    (max_steps : nat) :
  truthy_str (api_key h) = false ->
  (exists d : gmap string json,
     json_loads Llm.no_api_key_reply = Some (JDict d) /\ is_Some (d !! "final_answer")) ->
  Llm.run_llm h clock env scenario variant max_steps = Returned (env, {| tool_calls := [] |}).
Proof.
  intros Hkey (d & Hloads & Hd). unfold Llm.run_llm.
  destruct max_steps as [|remaining]; [reflexivity |].
  apply (llm_loop_final_answer _ _ _ _ _ _ _ (Some Llm.no_api_key_reply) d); [| | assumption].
  - unfold Llm._openrouter_chat. now rewrite Hkey.
  - unfold Llm.parse_response. cbn [mbind option_bind].
    replace (Llm.json_candidate Llm.no_api_key_reply) with Llm.no_api_key_reply
      by (vm_compute; reflexivity).
    exact Hloads.
Qed.

(** X26.  A reply that holds a final answer ends the run at once, before
    any tool call the same reply may hold is looked at; and a harness
    without an API key never reaches the chat service or a tool: whatever
    the scenario and the budget, [run_llm] returns the environment as it
    was, with an empty trace. *)
Theorem run_llm_final_answer {rt : PyRuntime} {llm : LlmRuntime} (h : HarnessConfig)
    (clock : nat -> float) :
  (forall (remaining n : nat) (env : EnvState) (trace : list TraceEntry)
          (messages : list Message) (raw : option string) (d : gmap string json),
     Llm._openrouter_chat h messages = Content raw ->
     Llm.parse_response raw = Some (JDict d) ->
     is_Some (d !! "final_answer") ->
     Llm.llm_loop h clock (S remaining) n env trace messages
     = Returned (env, {| tool_calls := trace |})) /\
  (truthy_str (api_key h) = false ->
   (exists d : gmap string json,
      json_loads Llm.no_api_key_reply = Some (JDict d) /\ is_Some (d !! "final_answer")) ->
   forall (env : EnvState) (scenario : Scenario) (variant : string) (max_steps : nat),
     Llm.run_llm h clock env scenario variant max_steps
     = Returned (env, {| tool_calls := [] |})).
Proof.
  split.
  - intros remaining n env trace messages raw d. apply llm_loop_final_answer.
  - intros Hkey Hloads env scenario variant max_steps. now apply run_llm_offline.
Qed.

(** ** Calls without arguments *)

Lemma exec_tool_no_arguments {rt : PyRuntime} (now : float) (env : EnvState) (tool : string) :
  exists r : ToolResult,
    Harness.exec_tool now env {| name := tool; arguments := ∅ |} = Return (env, r) /\
    ok r = false.
Proof.
  destruct (Tools.TOOL_REGISTRY !! tool) as [fn |] eqn:Hfn.
  - assert (Hb : Tools.binds (Tools.fn_params fn) ∅ = false)
      by (apply registry_lookup in Hfn
            as [[_ ->] | [[_ ->] | [[_ ->] | [[_ ->] | [[_ ->] | [_ ->]]]]]]; reflexivity).
    eexists. split;
      [exact (exec_tool_unbound now env {| name := tool; arguments := ∅ |} fn Hfn Hb) |].
    reflexivity.
  - eexists. split;
      [exact (exec_tool_unknown now env {| name := tool; arguments := ∅ |} Hfn) |].
    reflexivity.
Qed.

(** X27.  The loop does not screen a call for its tool name or for missing
    arguments: a reply whose [tool_call] names a tool, whichever, and gives
    no arguments (none, [null], or an empty object) is executed with no
    arguments; the call fails without changing the environment, is recorded
    in the trace under the number of the step, and its result is sent back
    to the model. *)
Theorem turn_call_without_arguments {rt : PyRuntime} {llm : LlmRuntime} (h : HarnessConfig)
    (now : float) (n : nat) (env : EnvState) (trace : list TraceEntry)
    (messages : list Message) (raw : option string) (d c : gmap string json)
    (tool : string) :
  Llm._openrouter_chat h messages = Content raw ->
  Llm.parse_response raw = Some (JDict d) ->
  d !! "final_answer" = None ->
  d !! "tool_call" = Some (JDict c) ->
  c !! "name" = Some (JStr tool) ->
  (forall a : json, c !! "arguments" = Some a -> json_truthy a = false) ->
  exists r : ToolResult,
    ok r = false /\
    Llm.turn h now n env trace messages
    = Llm.Continue env
        (trace ++ [{| step := Z.of_nat n;
                      call := {| name := tool; arguments := ∅ |};
                      result := r |}])
        (messages ++ [{| role := "assistant"; content := dumps_tool_result r |}]).
Proof.
  intros Hraw Hp Hfinal Hcall Hname Hargs.
  destruct (exec_tool_no_arguments now env tool) as (r & Hexec & Hok).
  exists r. split; [assumption |].
  unfold Llm.turn. rewrite Hraw. cbn [Llm.parse_attempts]. rewrite Hp.
  cbn [Llm.has_final_answer Llm.get_tool_call]. rewrite Hfinal, Hcall.
  rewrite bool_decide_eq_false_2 by (intros [x Hx]; discriminate).
  rewrite bool_decide_eq_false_2 by (intros ->; now rewrite lookup_empty in Hname).
  rewrite Hname.
  assert (Hempty : match c !! "arguments" with
                   | Some a => if json_truthy a then a else JDict ∅
                   | None => JDict ∅
                   end = JDict ∅).
  { destruct (c !! "arguments") as [a |]; [| reflexivity]. now rewrite (Hargs a eq_refl). }
  rewrite Hempty. unfold Llm.arguments_of.
  rewrite bool_decide_eq_true_2 by apply map_Forall_empty.
  rewrite omap_empty. now rewrite Hexec.
Qed.

(** X27, on a reply that names [k8s_scale] and stops there. *)
Lemma turn_call_without_arguments_witness :
  exists r : ToolResult,
    ok r = false /\
    Llm.turn (rt := Examples.demo_runtime)
      (llm := LlmExamples.scripted [Content (Some LlmExamples.bare_reply)])
      LlmExamples.online 0 1 Examples.checkout_env [] []
    = Llm.Continue Examples.checkout_env
        [{| step := 1; call := {| name := "k8s_scale"; arguments := ∅ |}; result := r |}]
        [{| role := "assistant"; content := "{failed}" |}].
Proof.
  destruct (turn_call_without_arguments (rt := Examples.demo_runtime)
              (llm := LlmExamples.scripted [Content (Some LlmExamples.bare_reply)])
              LlmExamples.online 0 1 Examples.checkout_env [] []
              (Some LlmExamples.bare_reply)
              (list_to_map [("tool_call", JDict (list_to_map [("name", JStr "k8s_scale")]))])
              (list_to_map [("name", JStr "k8s_scale")]) "k8s_scale")
    as (r & Hok & Hturn); try (vm_compute; reflexivity).
  - intros a Ha. vm_compute in Ha. discriminate Ha.
  - exists r. split; [assumption |]. rewrite Hturn.
    cbn [app dumps_tool_result LlmExamples.scripted]. now rewrite Hok.
Defined.

(** ** The drivers of [run_eval.py] *)

Lemma slice_to_length {A : Type} (l : list A) (limit : Z) :
  length (RunEval.slice_to l limit)
  = (if (0 <=? limit)%Z then Nat.min (Z.to_nat limit) (length l)
     else length l - Z.to_nat (- limit))%nat.
Proof.
  unfold RunEval.slice_to. destruct (0 <=? limit); rewrite length_take; lia.
Qed.

Lemma score_run_sound (sc : Scenario) (env : EnvState) (trace : ExecutionTrace) :
  run_valid (RunEval.score_run sc env trace) = true ->
  technical_success (RunEval.score_run sc env trace) = true.
Proof.
  cbn [RunEval.score_run run_valid technical_success].
  rewrite check_acceptance_spec, check_technical_success_spec.
  unfold criteria_hold. tauto.
Qed.

Lemma counters_ordered (runs : list RunRecord) :
  Forall (fun r => run_valid r = true -> technical_success r = true) runs ->
  (RunEval.passed runs <= RunEval.technical_passed runs <= RunEval.total runs)%nat.
Proof.
  unfold RunEval.passed, RunEval.technical_passed, RunEval.total.
  induction 1 as [|r runs Hr _ IH]; cbn [sum_list_with length]; [lia |].
  destruct (run_valid r), (technical_success r); lia.
Qed.

Lemma percent_ordered (n m total : nat) :
  (n <= m <= total)%nat ->
  (RunEval.percent n total <= RunEval.percent m total <= 100)%nat.
Proof.
  intros [Hnm Hmt]. unfold RunEval.percent. split.
  - apply Nat.Div0.div_le_mono. lia.
  - apply Nat.Div0.div_le_upper_bound. lia.
Qed.

Lemma ground_truth_runs_sound {rt : PyRuntime} (clock : nat -> nat -> float)
    (gt : gmap string (list ToolCall)) (scenarios : list Scenario) :
  forall (k : nat) (runs : list RunRecord),
    RunEval.ground_truth_runs clock gt k scenarios = Return runs ->
    map scenario_id runs = map sc_id scenarios /\
    Forall (fun r => (run_valid r = true -> technical_success r = true) /\
                     (length (tool_calls (run_trace r)) <= 8)%nat) runs.
Proof.
  induction scenarios as [|sc rest IH]; intros k runs; cbn [RunEval.ground_truth_runs].
  - intros [= <-]. split; [reflexivity | constructor].
  - unfold Harness.run_sequence.
    destruct (Harness.run_steps (clock k) 8 0 (Harness.build_env (initial_state sc))
                (default [] (gt !! str_of_int (sc_id sc))) [])
      as [[env' trace] | e |] eqn:Hrun; cbn; try discriminate.
    destruct (RunEval.ground_truth_runs clock gt (S k) rest) as [runs' | e |] eqn:Hrest;
      cbn; try discriminate.
    intros [= <-]. destruct (IH _ _ Hrest) as [Hids Hall].
    split; [cbn [map RunEval.score_run scenario_id]; now f_equal |].
    constructor; [| assumption]. split; [apply score_run_sound |].
    cbn [RunEval.score_run run_trace tool_calls].
    apply run_steps_records in Hrun as (new & -> & Hlen & _). cbn [app]. lia.
Qed.

(** X28.  Every report of [run_ground_truth] is consistent: it holds one
    run per selected scenario, in order, where [scenarios[:limit]] selects
    the first [limit] scenarios, or all but the last [-limit] for a negative
    limit; each run has at most 8 trace entries and is a technical success
    whenever it is valid.  So in the summary of [main] the full pass count
    never exceeds the technical pass count, neither exceeds the total, and
    the two percentages are ordered and at most 100. *)
Theorem run_ground_truth_report {rt : PyRuntime} (clock : nat -> nat -> float)
    (gt : gmap string (list ToolCall)) (scenarios : list Scenario) (limit : Z)
    (runs : list RunRecord) :
  RunEval.run_ground_truth clock gt scenarios limit = Return runs ->
  map scenario_id runs = map sc_id (RunEval.slice_to scenarios limit) /\
  RunEval.total runs
  = (if (0 <=? limit)%Z then Nat.min (Z.to_nat limit) (length scenarios)
     else length scenarios - Z.to_nat (- limit))%nat /\
  Forall (fun r => (run_valid r = true -> technical_success r = true) /\
                   (length (tool_calls (run_trace r)) <= 8)%nat) runs /\
  (RunEval.passed runs <= RunEval.technical_passed runs <= RunEval.total runs)%nat /\
  (RunEval.percent (RunEval.passed runs) (RunEval.total runs)
   <= RunEval.percent (RunEval.technical_passed runs) (RunEval.total runs) <= 100)%nat.
Proof.
  unfold RunEval.run_ground_truth. intros H.
  apply ground_truth_runs_sound in H as [Hids Hall].
  assert (Hord : (RunEval.passed runs <= RunEval.technical_passed runs
                  <= RunEval.total runs)%nat).
  { apply counters_ordered. eapply Forall_impl; [exact Hall |]. now intros r [? _]. }
  split; [assumption |]. split; [| split; [assumption |]].
  - unfold RunEval.total.
    rewrite <- (length_map scenario_id), Hids, length_map. apply slice_to_length.
  - split; [assumption | now apply percent_ordered].
Qed.

Lemma llm_runs_sound {rt : PyRuntime} {llm : LlmRuntime} (h : HarnessConfig)
    (clock : nat -> nat -> float) (variant : string) (scenarios : list Scenario) :
  forall (k : nat) (runs : list RunRecord),
    RunEval.llm_runs h clock variant k scenarios = Returned runs ->
    map scenario_id runs = map sc_id scenarios /\
    Forall (fun r => (run_valid r = true -> technical_success r = true) /\
                     (length (tool_calls (run_trace r)) <= 8)%nat) runs.
Proof.
  induction scenarios as [|sc rest IH]; intros k runs; cbn [RunEval.llm_runs].
  - intros [= <-]. split; [reflexivity | constructor].
  - destruct (Llm.run_llm h (clock k) (Harness.build_env (initial_state sc)) sc variant 8)
      as [[env' trace] | e |] eqn:Hrun; try discriminate.
    destruct (RunEval.llm_runs h clock variant (S k) rest) as [runs' | e |] eqn:Hrest;
      try discriminate.
    intros [= <-]. destruct (IH _ _ Hrest) as [Hids Hall].
    split; [cbn [map RunEval.score_run scenario_id]; now f_equal |].
    constructor; [| assumption]. split; [apply score_run_sound |].
    cbn [RunEval.score_run run_trace].
    unfold Llm.run_llm in Hrun. apply llm_loop_trace in Hrun as (new & -> & Hsteps & _).
    cbn [app]. apply steps_within_length in Hsteps. lia.
Qed.

Lemma llm_runs_offline {rt : PyRuntime} {llm : LlmRuntime} (h : HarnessConfig)
    (clock : nat -> nat -> float) (variant : string) (scenarios : list Scenario) :
  (forall (env : EnvState) (sc : Scenario) (k : nat),
     Llm.run_llm h (clock k) env sc variant 8 = Returned (env, {| tool_calls := [] |})) ->
  forall k : nat,
    RunEval.llm_runs h clock variant k scenarios
    = Returned (map (fun sc => RunEval.score_run sc (Harness.build_env (initial_state sc))
                                 {| tool_calls := [] |}) scenarios).
Proof.
  intros Hrun. induction scenarios as [|sc rest IH]; intros k; cbn [RunEval.llm_runs map];
    [reflexivity |].
  now rewrite Hrun, IH.
Qed.

Lemma offline_score (sc : Scenario) (env : EnvState) :
  let r := RunEval.score_run sc env {| tool_calls := [] |} in
  total_score (weighted_score r) = if technical_success r then 65%float else 5%float.
Proof.
  cbn [RunEval.score_run weighted_score technical_success].
  generalize (Scoring.check_acceptance env (acceptance_criteria sc)) as acc.
  generalize (Scoring.check_technical_success env (acceptance_criteria sc)) as technical.
  intros [[] rs] acc; vm_compute; reflexivity.
Qed.

(** X29.  Every report of [run_eval.run_llm] that is returned is consistent
    in the same way: one run per selected scenario, in order, each with at
    most 8 trace entries and a technical success whenever it is valid, so
    that the counters and percentages of the summary are ordered.  Without
    an API key the report is fully determined: each scenario is scored on
    the environment [build_env] gave it and an empty trace, which earns 5
    points, or 65 when the initial state already is a technical success. *)
Theorem run_eval_llm_report {rt : PyRuntime} {llm : LlmRuntime} (h : HarnessConfig)
    (clock : nat -> nat -> float) (scenarios : list Scenario) (limit : Z) (variant : string) :
  (forall runs : list RunRecord,
     RunEval.run_llm h clock scenarios limit variant = Returned runs ->
     map scenario_id runs = map sc_id (RunEval.slice_to scenarios limit) /\
     Forall (fun r => (run_valid r = true -> technical_success r = true) /\
                      (length (tool_calls (run_trace r)) <= 8)%nat) runs /\
     (RunEval.passed runs <= RunEval.technical_passed runs <= RunEval.total runs)%nat /\
     (RunEval.percent (RunEval.passed runs) (RunEval.total runs)
      <= RunEval.percent (RunEval.technical_passed runs) (RunEval.total runs) <= 100)%nat) /\
  (truthy_str (api_key h) = false ->
   (exists d : gmap string json,
      json_loads Llm.no_api_key_reply = Some (JDict d) /\ is_Some (d !! "final_answer")) ->
   RunEval.run_llm h clock scenarios limit variant
   = Returned (map (fun sc => RunEval.score_run sc (Harness.build_env (initial_state sc))
                                {| tool_calls := [] |})
                 (RunEval.slice_to scenarios limit)) /\
   forall sc : Scenario,
     let r := RunEval.score_run sc (Harness.build_env (initial_state sc))
                {| tool_calls := [] |} in
     total_score (weighted_score r) = if technical_success r then 65%float else 5%float).
Proof.
  split.
  - unfold RunEval.run_llm. intros runs H.
    apply llm_runs_sound in H as [Hids Hall].
    assert (Hord : (RunEval.passed runs <= RunEval.technical_passed runs
                    <= RunEval.total runs)%nat).
    { apply counters_ordered. eapply Forall_impl; [exact Hall |]. now intros r [? _]. }
    repeat (split; [assumption |]). now apply percent_ordered.
  - intros Hkey Hloads. split; [| intros sc; apply offline_score].
    unfold RunEval.run_llm. apply llm_runs_offline.
    intros env sc k. now apply run_llm_offline.
Qed.


(** ** The properties on scripted conversations *)

(** X22, on a call wrapped in prose. *)
Lemma parse_response_candidate_witness :
  Llm.parse_response (llm := LlmExamples.scripted [])
    (Some ("Sure, scaling now: " +:+ "{" +:+ LlmExamples.scale_body +:+ "}" +:+ " Done."))
  = Some LlmExamples.scale_json.
Proof.
  rewrite (proj1 (parse_response_candidate (llm := LlmExamples.scripted []))
             "Sure, scaling now: " LlmExamples.scale_body " Done." eq_refl eq_refl).
  vm_compute. reflexivity.
Defined.

(** The conversation in which the model wraps its call in prose and has to
    be asked once to reformat, evaluated. *)
Lemma polite_run_result :
  LlmExamples.run LlmExamples.online LlmExamples.polite_script 8
  = Returned (LlmExamples.polite_env, LlmExamples.polite_trace).
Proof. vm_compute. reflexivity. Qed.

(** X23, on that conversation: one call, at step 1. *)
Lemma run_llm_trace_witness :
  steps_within 1 8 (tool_calls LlmExamples.polite_trace) /\
  (length (tool_calls LlmExamples.polite_trace) <= 8)%nat /\
  records_turns (rt := Examples.demo_runtime) (fun _ => 0%float) Examples.checkout_env
    (tool_calls LlmExamples.polite_trace) LlmExamples.polite_env.
Proof.
  exact (run_llm_trace (rt := Examples.demo_runtime)
           (llm := LlmExamples.scripted LlmExamples.polite_script)
           _ _ _ _ _ _ 8%nat _ polite_run_result).
Defined.



(** X26, on a reply that holds a final answer and a call, and on a harness
    without a key. *)
Lemma run_llm_final_answer_witness :
  LlmExamples.run LlmExamples.online [Content (Some LlmExamples.both_reply)] 8
  = Returned (Examples.checkout_env, {| tool_calls := [] |}) /\
  LlmExamples.run LlmExamples.offline [] 8
  = Returned (Examples.checkout_env, {| tool_calls := [] |}).
Proof.
  split.
  - unfold LlmExamples.run, Llm.run_llm.
    apply (proj1 (run_llm_final_answer (rt := Examples.demo_runtime)
                    (llm := LlmExamples.scripted [Content (Some LlmExamples.both_reply)])
                    LlmExamples.online (fun _ => 0%float))
             7%nat 1%nat _ _ _ (Some LlmExamples.both_reply)
             (list_to_map [("final_answer", JStr "scaling");
                           ("tool_call", JDict (list_to_map [("name", JStr "k8s_scale")]))]));
      [reflexivity | vm_compute; reflexivity | now eexists].
  - apply (proj2 (run_llm_final_answer (rt := Examples.demo_runtime)
                    (llm := LlmExamples.scripted []) LlmExamples.offline (fun _ => 0%float)));
      [reflexivity |].
    exists (list_to_map [("final_answer", JStr "no_api_key")]).
    split; [vm_compute; reflexivity | now eexists].
Defined.

(** The ground-truth report on two scenarios, evaluated. *)
Lemma ground_truth_result :
  RunEval.run_ground_truth (rt := Examples.demo_runtime) (fun _ _ => 0%float)
    LlmExamples.ground_truth [LlmExamples.checkout_scenario; LlmExamples.idle_scenario] 2
  = Return LlmExamples.ground_truth_report.
Proof. vm_compute. reflexivity. Qed.

(** X28, on that report: one of two runs passes. *)
Lemma run_ground_truth_report_witness :
  map scenario_id LlmExamples.ground_truth_report = [1; 2] /\
  (RunEval.passed LlmExamples.ground_truth_report
   <= RunEval.technical_passed LlmExamples.ground_truth_report
   <= RunEval.total LlmExamples.ground_truth_report)%nat.
Proof.
  destruct (run_ground_truth_report (rt := Examples.demo_runtime) _ _ _ _ _
              ground_truth_result) as (Hids & _ & _ & Hord & _).
  split; [exact Hids | exact Hord].
Defined.

(** The report of the LLM driver with limit -1 on two scenarios, evaluated:
    the last scenario is left out. *)
Lemma llm_result :
  RunEval.run_llm (rt := Examples.demo_runtime)
    (llm := LlmExamples.scripted LlmExamples.polite_script) LlmExamples.online
    (fun _ _ => 0%float) [LlmExamples.checkout_scenario; LlmExamples.idle_scenario] (-1)
    "baseline"
  = Returned LlmExamples.llm_report.
Proof. vm_compute. reflexivity. Qed.

(** X29, on that report. *)
Lemma run_eval_llm_report_witness :
  map scenario_id LlmExamples.llm_report = [1] /\
  (RunEval.passed LlmExamples.llm_report
   <= RunEval.technical_passed LlmExamples.llm_report
   <= RunEval.total LlmExamples.llm_report)%nat.
Proof.
  destruct (proj1 (run_eval_llm_report (rt := Examples.demo_runtime)
                     (llm := LlmExamples.scripted LlmExamples.polite_script) _ _ _ _ _)
              _ llm_result) as (Hids & _ & Hord & _).
  split; [exact Hids | exact Hord].
Defined.

(** Two replies with a malformed call use up steps 1 and 2: the call that
    follows them is recorded under step 3. *)
Example malformed_replies_use_steps :
  match LlmExamples.run LlmExamples.online
          [Content (Some LlmExamples.malformed_reply);
           Content (Some LlmExamples.malformed_reply);
           Content (Some LlmExamples.scale_reply)] 8 with
  | Returned (_, trace) => map step (tool_calls trace)
  | _ => []
  end = [3].
Proof. vm_compute. reflexivity. Qed.

(** A top-level array of objects reaches [json.loads] without its brackets. *)
Example json_candidate_array : Llm.json_candidate "[{}, {}]" = "{}, {}".
Proof. vm_compute. reflexivity. Qed.
